(** * Activity identity resolution: a shallow embedding of
      [orchestrator/app/services/activity_processing_service.py]

    The development follows the Python module function by function.
    Python [str] values are lists of Unicode code points, Python [dict]s are
    insertion-ordered association lists, exceptions are an explicit result
    type, and the attributes of [ActivityProcessingService] together with the
    two files it writes form an explicit state that every method threads.

    What lives outside the repository is taken as a parameter: the Unicode
    character database used by [str.lower], [unicodedata] and [re]; the
    sentence-embedding model; the nearest-neighbour search of the vector
    index; the random source behind [uuid.uuid4]; and the outcome of each
    file write.  Floating-point numbers are idealised as rationals. *)

From Stdlib Require Import String Ascii.
From Stdlib Require Import List ZArith NArith QArith Bool Lia.
From Stdlib Require Import Sorted Permutation.
Import ListNotations.

#[local] Set Warnings "-register-all".

Set Implicit Arguments.

(* ================================================================= *)
(** ** Python strings *)

(** A Python [str]: a sequence of code points. *)
Definition str := list N.

(** Code points of an ASCII literal. *)
Definition u (s : String.string) : str :=
  map Ascii.N_of_ascii (String.list_ascii_of_string s).
Arguments u s%_string.

Fixpoint str_eqb (a b : str) : bool :=
  match a, b with
  | [], [] => true
  | x :: a', y :: b' => N.eqb x y && str_eqb a' b'
  | _, _ => false
  end.

(** [a <= b] on [str]: lexicographic by code point, as Python compares. *)
Fixpoint str_leb (a b : str) : bool :=
  match a, b with
  | [], _ => true
  | _ :: _, [] => false
  | x :: a', y :: b' =>
      if N.ltb x y then true
      else if N.eqb x y then str_leb a' b' else false
  end.

Definition str_ltb (a b : str) : bool := negb (str_leb b a).

(** [sep.join(parts)]. *)
Fixpoint join (sep : str) (parts : list str) : str :=
  match parts with
  | [] => []
  | [w] => w
  | w :: rest => w ++ sep ++ join sep rest
  end.

(* ================================================================= *)
(** ** Python dicts *)

(** An insertion-ordered dictionary with [str] keys.  [dict_set] keeps the
    position of a key that is already present and appends a new one. *)
Definition dict (V : Type) := list (str * V).

Fixpoint dict_get {V} (k : str) (d : dict V) : option V :=
  match d with
  | [] => None
  | (k', v) :: d' => if str_eqb k k' then Some v else dict_get k d'
  end.

Fixpoint dict_set {V} (k : str) (v : V) (d : dict V) : dict V :=
  match d with
  | [] => [(k, v)]
  | (k', v') :: d' =>
      if str_eqb k k' then (k', v) :: d' else (k', v') :: dict_set k v d'
  end.

Definition keys {V} (d : dict V) : list str := map fst d.
Definition values {V} (d : dict V) : list V := map snd d.

(* ================================================================= *)
(** ** Exceptions *)

Inductive exn :=
| AttributeError | KeyError | IndexError | TypeError
| OverflowError | OSError | RuntimeError.

Inductive res (A : Type) :=
| Ok (a : A)
| Raise (e : exn).
Arguments Ok {A} a.
Arguments Raise {A} e.

(* ================================================================= *)
(** ** The Unicode character database *)

(** The tables behind [str.lower], [unicodedata.normalize('NFKD', _)],
    [unicodedata.combining], the regular-expression class [\w] (alphanumeric
    or underscore) and the white space of [\s] and [str.split]. *)
Record Unicode := {
  str_lower : str -> str;
  nfkd : str -> str;
  combining : N -> bool;
  isalnum : N -> bool;
  isspace : N -> bool
}.

Section Normalizer.
Variable U : Unicode.

(** [\w]. *)
Definition is_word (c : N) : bool := isalnum U c || N.eqb c 95.

(** A character that [re.sub(r'[^\w\s\-\.,]', '', text)] keeps. *)
Definition kept_char (c : N) : bool :=
  is_word c || isspace U c || N.eqb c 45 || N.eqb c 46 || N.eqb c 44.

(** [text.split()]: maximal runs of non-space characters. [cur] is the run
    being read. *)
Fixpoint split_from (cur : str) (s : str) : list str :=
  match s with
  | [] => match cur with [] => [] | _ => [cur] end
  | c :: s' =>
      if isspace U c
      then match cur with
           | [] => split_from [] s'
           | _ => cur :: split_from [] s'
           end
      else split_from (cur ++ [c]) s'
  end.

Definition split (s : str) : list str := split_from [] s.

(** A word that [split] can return: not empty, no white space inside. *)
Definition word (w : str) : Prop :=
  w <> [] /\ Forall (fun c => isspace U c = false) w.

Fixpoint lstrip (s : str) : str :=
  match s with
  | [] => []
  | c :: s' => if isspace U c then lstrip s' else s
  end.

Definition strip (s : str) : str := rev (lstrip (rev (lstrip s))).

Definition _normalize_text (text : str) : str :=
  match text with
  | [] => []
  | _ =>
      let text := str_lower U text in
      let text := nfkd U text in
      let text := filter (fun c => negb (combining U c)) text in
      let text := filter kept_char text in
      let text := join (u " ") (split text) in
      strip text
  end.

Definition _create_activity_signature (name location category : str) : str :=
  let normalized_name := _normalize_text name in
  let normalized_location := _normalize_text location in
  let normalized_category := _normalize_text category in
  let signature := normalized_name ++ u " | " ++ normalized_location in
  match normalized_category with
  | [] => signature
  | _ => signature ++ u " | " ++ normalized_category
  end.

End Normalizer.

(* ================================================================= *)
(** ** Values, vectors and the vector index *)

(** JSON-like Python values, as activities and trip plans carry them. *)
Inductive pyval :=
| VNone
| VBool (b : bool)
| VInt (z : Z)
| VStr (s : str)
| VList (l : list pyval)
| VDict (d : list (str * pyval)).

(** An embedding; the float components are idealised as rationals. *)
Definition vec := list Q.

Inductive Metric := L2 | IP.

(** A flat FAISS index: the metric it was built with and the stored vectors,
    slot [i] being the [i]-th vector added. *)
Record Faiss := { metric : Metric; vectors : list vec }.

Definition IndexFlatL2 : Faiss := {| metric := L2; vectors := [] |}.
Definition IndexFlatIP : Faiss := {| metric := IP; vectors := [] |}.
Definition ntotal (ix : Faiss) : nat := length (vectors ix).
Definition index_add (ix : Faiss) (v : vec) : Faiss :=
  {| metric := metric ix; vectors := vectors ix ++ [v] |}.

(** [ActivityRecord].  The dataclass declares the first five fields.
    [last_used] is the instance attribute that [cleanup_old_activities] reads:
    the dataclass does not declare it and its constructor never sets it, so it
    is [None] on every record this module builds, and reading it then raises
    [AttributeError]; [Some t] is a record object that carries the attribute,
    [t] in microseconds since 0001-01-01T00:00:00. *)
Record ActivityRecord := {
  activity_id : str;
  name : str;
  location : str;
  category : str;
  embedding : vec;
  last_used : option Z
}.

(** [l[i]] for a Python list and an integer index. *)
Definition list_get {A} (l : list A) (i : Z) : res A :=
  let n := Z.of_nat (length l) in
  let j := if (i <? 0)%Z then (n + i)%Z else i in
  if ((0 <=? j) && (j <? n))%Z
  then match nth_error l (Z.to_nat j) with
       | Some a => Ok a
       | None => Raise IndexError
       end
  else Raise IndexError.

(* ================================================================= *)
(** ** The environment and the service state *)

Record Env := {
  unicode : Unicode;
  (** [SentenceTransformer.encode([text])[0]]; [None] when the model raises. *)
  encode : str -> option vec;
  (** [index.search(query, k)] for one query: [k] pairs (distance, slot),
      slot [-1] where the index holds fewer than [k] vectors. *)
  faiss_search : Faiss -> vec -> nat -> list (Q * Z);
  (** The integer of the [n]-th UUID that [uuid.uuid4] draws. *)
  uuid4 : nat -> N;
  (** Whether the [n]-th file write of the process raises. *)
  write_fails : nat -> bool
}.

(** The attributes of [ActivityProcessingService], the two files under
    [db_path], and how many UUIDs and file writes have been consumed. *)
Record Service := {
  similarity_threshold : Q;
  index : Faiss;
  index_to_id : list str;
  activities : dict ActivityRecord;
  faiss_file : option Faiss;
  records_file : option (dict ActivityRecord);
  uuid_drawn : nat;
  writes_done : nat
}.

Definition set_index (ix : Faiss) (s : Service) : Service :=
  {| similarity_threshold := similarity_threshold s; index := ix;
     index_to_id := index_to_id s; activities := activities s;
     faiss_file := faiss_file s; records_file := records_file s;
     uuid_drawn := uuid_drawn s; writes_done := writes_done s |}.

Definition set_index_to_id (l : list str) (s : Service) : Service :=
  {| similarity_threshold := similarity_threshold s; index := index s;
     index_to_id := l; activities := activities s;
     faiss_file := faiss_file s; records_file := records_file s;
     uuid_drawn := uuid_drawn s; writes_done := writes_done s |}.

Definition set_activities (a : dict ActivityRecord) (s : Service) : Service :=
  {| similarity_threshold := similarity_threshold s; index := index s;
     index_to_id := index_to_id s; activities := a;
     faiss_file := faiss_file s; records_file := records_file s;
     uuid_drawn := uuid_drawn s; writes_done := writes_done s |}.

Definition set_faiss_file (f : option Faiss) (s : Service) : Service :=
  {| similarity_threshold := similarity_threshold s; index := index s;
     index_to_id := index_to_id s; activities := activities s;
     faiss_file := f; records_file := records_file s;
     uuid_drawn := uuid_drawn s; writes_done := writes_done s |}.

Definition set_records_file (f : option (dict ActivityRecord)) (s : Service)
  : Service :=
  {| similarity_threshold := similarity_threshold s; index := index s;
     index_to_id := index_to_id s; activities := activities s;
     faiss_file := faiss_file s; records_file := f;
     uuid_drawn := uuid_drawn s; writes_done := writes_done s |}.

Definition next_uuid (s : Service) : Service :=
  {| similarity_threshold := similarity_threshold s; index := index s;
     index_to_id := index_to_id s; activities := activities s;
     faiss_file := faiss_file s; records_file := records_file s;
     uuid_drawn := S (uuid_drawn s); writes_done := writes_done s |}.

Definition next_write (s : Service) : Service :=
  {| similarity_threshold := similarity_threshold s; index := index s;
     index_to_id := index_to_id s; activities := activities s;
     faiss_file := faiss_file s; records_file := records_file s;
     uuid_drawn := uuid_drawn s; writes_done := S (writes_done s) |}.

(** A method of the service: it returns or raises, and leaves a state behind
    in both cases, since Python mutates the object in place. *)
Definition M (A : Type) := Service -> res A * Service.

Definition ret {A} (a : A) : M A := fun s => (Ok a, s).
Definition raise {A} (e : exn) : M A := fun s => (Raise e, s).
Definition lift {A} (r : res A) : M A := fun s => (r, s).
Definition bind {A B} (m : M A) (k : A -> M B) : M B :=
  fun s => match m s with
           | (Ok a, s') => k a s'
           | (Raise e, s') => (Raise e, s')
           end.
Definition get {A} (f : Service -> A) : M A := fun s => (Ok (f s), s).
Definition modify (f : Service -> Service) : M unit := fun s => (Ok tt, f s).

(** [try: body  except Exception as e: handler]. *)
Definition try_except {A} (body : M A) (handler : exn -> M A) : M A :=
  fun s => match body s with
           | (Ok a, s') => (Ok a, s')
           | (Raise e, s') => handler e s'
           end.

Declare Scope py_scope.
Delimit Scope py_scope with py.
Notation "x <- m ;; k" := (bind m (fun x => k))
  (at level 61, m at next level, right associativity) : py_scope.
Notation "m ;; k" := (bind m (fun _ => k))
  (at level 61, right associativity) : py_scope.

(* ================================================================= *)
(** ** UUIDs and clock arithmetic *)

Definition hex_digit (d : N) : N :=
  if (d <? 10)%N then (48 + d)%N else (87 + d)%N.

(** ['%0wx' % n]: the [w] low hexadecimal digits of [n], most significant
    first. *)
Fixpoint hex_digits (w : nat) (n : N) : str :=
  match w with
  | O => []
  | S w' => hex_digits w' (n / 16)%N ++ [hex_digit (n mod 16)%N]
  end.

(** [UUID.hex] of a UUID whose integer is [n]. *)
Definition uuid_hex (n : N) : str := hex_digits 32 n.

(** ["activity_" + uuid.hex[:16]] for a UUID whose integer is [n]. *)
Definition activity_id_of_uuid (n : N) : str :=
  u "activity_" ++ firstn 16 (uuid_hex n).

(** A [datetime] is a number of microseconds since 0001-01-01T00:00:00. *)
Definition datetime_max : Z := 315537897599999999.

(** [timedelta(days=d)], in microseconds. *)
Definition timedelta_days (d : Z) : res Z :=
  if (Z.abs d <=? 999999999)%Z then Ok (d * 86400000000)%Z
  else Raise OverflowError.

(** [t - delta] on a [datetime]. *)
Definition datetime_sub (t delta : Z) : res Z :=
  let r := (t - delta)%Z in
  if ((0 <=? r) && (r <=? datetime_max))%Z then Ok r else Raise OverflowError.

(* ================================================================= *)
(** ** Sorting dictionary items by key *)

Fixpoint insert_item {V} (x : str * V) (l : list (str * V)) : list (str * V) :=
  match l with
  | [] => [x]
  | y :: l' =>
      if str_leb (fst x) (fst y) then x :: y :: l' else y :: insert_item x l'
  end.

(** [sorted(items, key=lambda x: x[0])], a stable sort. *)
Fixpoint sorted_items {V} (l : list (str * V)) : list (str * V) :=
  match l with
  | [] => []
  | x :: l' => insert_item x (sorted_items l')
  end.

(** [dict(items)]. *)
Definition dict_of_items {V} (l : list (str * V)) : dict V :=
  fold_left (fun d kv => dict_set (fst kv) (snd kv) d) l [].

(* ================================================================= *)
(** ** The service *)

Section ActivityProcessingService.
Variable E : Env.
Local Open Scope py_scope.

(** [faiss.write_index(self.index, str(self.db_path))].  The failure that
    [write_fails] stands for is a file that cannot be opened for writing:
    FAISS then raises [RuntimeError] and the file keeps the content it had. *)
Definition write_index : M unit :=
  fun s =>
    let s' := next_write s in
    if write_fails E (writes_done s) then (Raise RuntimeError, s')
    else (Ok tt, set_faiss_file (Some (index s)) s').

(** [_save_activities]: [open(activities_path, 'wb')] raises [OSError] when
    the file cannot be opened, before [pickle.dump] runs. *)
Definition _save_activities : M unit :=
  fun s =>
    let s' := next_write s in
    if write_fails E (writes_done s) then (Raise OSError, s')
    else (Ok tt, set_records_file (Some (activities s)) s').

Definition _load_activities (s : Service) : dict ActivityRecord :=
  match records_file s with
  | Some records => records
  | None => []
  end.

(** One turn of the loop of [_rebuild_index]. *)
Definition rebuild_step (s : Service) (item : str * ActivityRecord) : Service :=
  let s1 := set_index (index_add (index s) (embedding (snd item))) s in
  set_index_to_id (index_to_id s1 ++ [fst item]) s1.

Definition _rebuild_index : M unit :=
  modify (set_index IndexFlatL2) ;;
  modify (set_index_to_id []) ;;
  modify (fun s => fold_left rebuild_step (activities s) s) ;;
  write_index.

Definition _init_index : M unit :=
  try_except
    (modify (set_index_to_id []) ;;
     db <- get faiss_file ;;
     match db with
     | Some ix =>
         modify (set_index ix) ;;
         recs <- get records_file ;;
         match recs with
         | Some records =>
             let sorted_records := sorted_items records in
             modify (set_activities (dict_of_items sorted_records)) ;;
             modify (set_index_to_id (map fst sorted_records)) ;;
             n <- get (fun s => ntotal (index s)) ;;
             l <- get (fun s => length (index_to_id s)) ;;
             if negb (Nat.eqb n l) then _rebuild_index else ret tt
         | None => ret tt
         end
     | None =>
         modify (set_index IndexFlatL2) ;;
         modify (set_activities []) ;;
         modify (set_index_to_id [])
     end)
    (fun _ =>
       modify (set_index IndexFlatL2) ;;
       modify (set_activities []) ;;
       modify (set_index_to_id [])).

(** [ActivityProcessingService(similarity_threshold=threshold)] over the
    files found on disk. *)
Definition init_service (threshold : Q)
    (on_disk_index : option Faiss)
    (on_disk_records : option (dict ActivityRecord)) : Service :=
  let s0 := {| similarity_threshold := threshold;
               index := IndexFlatL2; index_to_id := [];
               activities := []; faiss_file := on_disk_index;
               records_file := on_disk_records;
               uuid_drawn := 0; writes_done := 0 |} in
  let s1 := set_activities (_load_activities s0) s0 in
  snd (_init_index s1).

Definition default_similarity_threshold : Q := 85 # 100.

Definition _generate_activity_id (name location category : str) : M str :=
  fun s => (Ok (activity_id_of_uuid (uuid4 E (uuid_drawn s))), next_uuid s).

Definition _get_embedding (text : str) : M vec :=
  match encode E text with
  | Some v => ret v
  | None => raise RuntimeError
  end.

(** The loop of [_search_similar_activities] over the hits of one query. *)
Fixpoint similar_of_hits (ids : list str) (threshold : Q)
    (hits : list (Q * Z)) : res (list (str * Q)) :=
  match hits with
  | [] => Ok []
  | (distance, slot) :: rest =>
      let max_distance := 2%Q in
      let similarity := (1 - distance / max_distance)%Q in
      if negb (slot =? -1)%Z && Qle_bool threshold similarity
      then match list_get ids slot with
           | Raise e => Raise e
           | Ok activity_id =>
               match similar_of_hits ids threshold rest with
               | Raise e => Raise e
               | Ok l => Ok ((activity_id, similarity) :: l)
               end
           end
      else similar_of_hits ids threshold rest
  end.

Definition _search_similar_activities (embedding : vec)
  : M (option (list (str * Q))) :=
  fun s =>
    if (0 <? ntotal (index s))%nat
    then
      let hits := faiss_search E (index s) embedding 5 in
      match similar_of_hits (index_to_id s) (similarity_threshold s) hits with
      | Ok l => (Ok (Some l), s)
      | Raise e => (Raise e, s)
      end
    else (Ok None, s).

Definition _store_activity (activity_record : ActivityRecord) : M unit :=
  try_except
    (modify (fun s =>
               set_index (index_add (index s) (embedding activity_record)) s) ;;
     modify (fun s =>
               set_activities
                 (dict_set (activity_id activity_record) activity_record
                    (activities s)) s) ;;
     modify (fun s =>
               set_index_to_id
                 (index_to_id s ++ [activity_id activity_record]) s) ;;
     write_index ;;
     _save_activities)
    (fun e => raise e).

(** [activity_data.get(key, '').lower()]. *)
Definition get_lower (activity_data : dict pyval) (key : str) : res str :=
  match dict_get key activity_data with
  | None => Ok (str_lower (unicode E) (u ""))
  | Some (VStr s) => Ok (str_lower (unicode E) s)
  | Some _ => Raise AttributeError
  end.

(** [activity_data.get(key)] and [activity_data.get(key, default)]. *)
Definition get_or (activity_data : dict pyval) (key : str) (default : pyval)
  : pyval :=
  match dict_get key activity_data with
  | Some v => v
  | None => default
  end.

(** The string that [process_activity] passes to [_get_embedding]. *)
Definition embedded_signature (name location category : str) : str :=
  name ++ u " | " ++ location ++ u " | " ++ category.

(** The dictionary returned on the match path. *)
Definition matched_result (activity_data : dict pyval) (similar_id : str)
  : dict pyval :=
  [ (u "name", get_or activity_data (u "name") VNone);
    (u "description", get_or activity_data (u "description") (VStr (u "")));
    (u "location", get_or activity_data (u "location") VNone);
    (u "startTime", get_or activity_data (u "startTime") VNone);
    (u "endTime", get_or activity_data (u "endTime") VNone);
    (u "participants", get_or activity_data (u "participants") VNone);
    (u "category", get_or activity_data (u "category") VNone);
    (u "activityId", VStr similar_id) ].

(** [{**activity_data, 'activityId': activity_id}]. *)
Definition annotated (activity_data : dict pyval) (activity_id : str)
  : dict pyval :=
  dict_set (u "activityId") (VStr activity_id) activity_data.

(** The create path: the statements after the match test. *)
Definition create_activity (activity_data : dict pyval)
    (name location category : str) (embedding : vec) : M (dict pyval) :=
  activity_id <- _generate_activity_id name location category ;;
  let activity_record :=
    {| activity_id := activity_id; name := name; location := location;
       category := category; embedding := embedding; last_used := None |} in
  _store_activity activity_record ;;
  ret (annotated activity_data activity_id).

(** The body of the [try] of [process_activity]. *)
Definition process_activity_body (activity_data : dict pyval)
  : M (dict pyval) :=
  name <- lift (get_lower activity_data (u "name")) ;;
  location <- lift (get_lower activity_data (u "location")) ;;
  category <- lift (get_lower activity_data (u "category")) ;;
  let signature := embedded_signature name location category in
  embedding <- _get_embedding signature ;;
  similar_activities <- _search_similar_activities embedding ;;
  match similar_activities with
  | Some ((similar_id, similarity) :: _) =>
      acts <- get activities ;;
      match dict_get similar_id acts with
      | None => raise KeyError
      | Some similar_activity =>
          threshold <- get similarity_threshold ;;
          if Qle_bool threshold similarity
          then
            let updated_record :=
              {| activity_id := similar_id; name := name;
                 location := location; category := category;
                 embedding := embedding; last_used := None |} in
            modify (fun s =>
                      set_activities
                        (dict_set similar_id updated_record (activities s)) s) ;;
            _rebuild_index ;;
            ret (matched_result activity_data similar_id)
          else create_activity activity_data name location category embedding
      end
  | _ => create_activity activity_data name location category embedding
  end.

(** The [except Exception] handler of [process_activity]. *)
Definition fallback (activity_data : dict pyval) : M (dict pyval) :=
  fun s =>
    let fallback_id := activity_id_of_uuid (uuid4 E (uuid_drawn s)) in
    (Ok (annotated activity_data fallback_id), next_uuid s).

Definition process_activity (activity_data : dict pyval) : M (dict pyval) :=
  try_except (process_activity_body activity_data)
             (fun _ => fallback activity_data).

End ActivityProcessingService.

(* ================================================================= *)
(** ** Trip plans and the recency cleanup *)

Section TripPlanAndCleanup.
Variable E : Env.
Local Open Scope py_scope.

(** [for x in v]: the elements a [for] loop over [v] visits. *)
Definition py_iter (v : pyval) : res (list pyval) :=
  match v with
  | VList l => Ok l
  | VStr s => Ok (map (fun c => VStr [c]) s)
  | VDict d => Ok (map (fun kv => VStr (fst kv)) d)
  | _ => Raise TypeError
  end.

(** [self.process_activity(activity)] for whatever the list holds.  A value
    that is not a dict has no [get]: the [try] raises at once, and in the
    handler, after the fallback id is drawn, [{**activity_data, ...}] raises
    [TypeError], which leaves the method. *)
Definition process_activity_value (activity : pyval) : M pyval :=
  match activity with
  | VDict activity_data =>
      r <- process_activity E activity_data ;; ret (VDict r)
  | _ => modify next_uuid ;; raise TypeError
  end.

(** The inner loop of [process_trip_plan]. *)
Fixpoint process_activities (acts : list pyval) : M (list pyval) :=
  match acts with
  | [] => ret []
  | activity :: rest =>
      processed_activity <- process_activity_value activity ;;
      processed_rest <- process_activities rest ;;
      ret (processed_activity :: processed_rest)
  end.

(** One turn of the outer loop: the span with its ['activities'] replaced. *)
Definition process_span (span : pyval) : M pyval :=
  match span with
  | VDict sd =>
      acts <- lift (py_iter (get_or sd (u "activities") (VList []))) ;;
      processed_activities <- process_activities acts ;;
      ret (VDict (dict_set (u "activities") (VList processed_activities) sd))
  | _ => raise AttributeError
  end.

Fixpoint process_spans (spans : list pyval) : M (list pyval) :=
  match spans with
  | [] => ret []
  | span :: rest =>
      span' <- process_span span ;;
      rest' <- process_spans rest ;;
      ret (span' :: rest')
  end.

(** [process_trip_plan].  The plan is a tree decoded from JSON; the spans
    are updated in place, so the returned shallow copy shows them under its
    ['spans'] key. *)
Definition process_trip_plan (trip_plan_json : dict pyval) : M (dict pyval) :=
  let spans_value := get_or trip_plan_json (u "spans") (VList []) in
  spans <- lift (py_iter spans_value) ;;
  spans' <- process_spans spans ;;
  match dict_get (u "spans") trip_plan_json with
  | Some (VList _) => ret (dict_set (u "spans") (VList spans') trip_plan_json)
  | _ => ret trip_plan_json
  end.

(** The loop of [cleanup_old_activities]: the activities kept so far and the
    index built from them. *)
Fixpoint keep_recent (cutoff_date : Z) (items : list (str * ActivityRecord))
    (new_activities : dict ActivityRecord) (new_index : Faiss)
  : res (dict ActivityRecord * Faiss) :=
  match items with
  | [] => Ok (new_activities, new_index)
  | (activity_id, activity) :: rest =>
      match last_used activity with
      | None => Raise AttributeError
      | Some t =>
          if (cutoff_date <=? t)%Z
          then keep_recent cutoff_date rest
                 (dict_set activity_id activity new_activities)
                 (index_add new_index (embedding activity))
          else keep_recent cutoff_date rest new_activities new_index
      end
  end.

(** [cleanup_old_activities(days_old)], [now] being what [datetime.now()]
    returns during the call. *)
Definition cleanup_old_activities (now : Z) (days_old : Z) : M Z :=
  delta <- lift (timedelta_days days_old) ;;
  cutoff_date <- lift (datetime_sub now delta) ;;
  acts <- get activities ;;
  kept <- lift (keep_recent cutoff_date acts [] IndexFlatIP) ;;
  let new_activities := fst kept in
  let new_index := snd kept in
  modify (set_index new_index) ;;
  modify (set_activities new_activities) ;;
  write_index E ;;
  _save_activities E ;;
  current <- get activities ;;
  let deleted_count :=
    (Z.of_nat (length current) - Z.of_nat (length new_activities))%Z in
  ret deleted_count.

(** [get_activity_stats()['total_activities']]. *)
Definition total_activities (s : Service) : nat := length (activities s).

End TripPlanAndCleanup.

(* ================================================================= *)
(** ** Concrete instances of the environment *)

(** A fragment of the Unicode character database: the tables agree with
    CPython's on U+0000..U+007F, on the code points that [decompose] lists and
    on the five combining marks those decompositions produce.  The statements
    made at this instance use no other code point. *)
Module Ucd.

Definition lower_cp (c : N) : N :=
  if ((65 <=? c) && (c <=? 90))%N then (c + 32)%N
  else if ((192 <=? c) && (c <=? 222) && negb (c =? 215))%N then (c + 32)%N
  else c.

Definition lower (s : str) : str := map lower_cp s.

(** Compatibility decomposition of one code point. *)
Definition decompose (c : N) : str :=
  (if c =? 160 then [32]                  (* NO-BREAK SPACE *)
   else if c =? 224 then [97; 768]        (* a grave *)
   else if c =? 225 then [97; 769]        (* a acute *)
   else if c =? 231 then [99; 807]        (* c cedilla *)
   else if c =? 232 then [101; 768]       (* e grave *)
   else if c =? 233 then [101; 769]       (* e acute *)
   else if c =? 241 then [110; 771]       (* n tilde *)
   else if c =? 246 then [111; 776]       (* o diaeresis *)
   else if c =? 252 then [117; 776]       (* u diaeresis *)
   else if c =? 8470 then [78; 111]       (* NUMERO SIGN: "No" *)
   else if c =? 8482 then [84; 77]        (* TRADE MARK SIGN: "TM" *)
   else [c])%N.

Definition to_nfkd (s : str) : str := flat_map decompose s.

Definition is_combining (c : N) : bool :=
  ((c =? 768) || (c =? 769) || (c =? 771) || (c =? 776) || (c =? 807))%N.

Definition is_alnum (c : N) : bool :=
  (((48 <=? c) && (c <=? 57)) || ((65 <=? c) && (c <=? 90))
   || ((97 <=? c) && (c <=? 122))
   || ((192 <=? c) && (c <=? 255) && negb (c =? 215) && negb (c =? 247)))%N.

Definition is_space (c : N) : bool :=
  (((9 <=? c) && (c <=? 13)) || ((28 <=? c) && (c <=? 32))
   || (c =? 133) || (c =? 160))%N.

Definition table : Unicode :=
  {| str_lower := lower; nfkd := to_nfkd; combining := is_combining;
     isalnum := is_alnum; isspace := is_space |}.

End Ucd.

(** A flat index searched by brute force: every stored vector is scored
    against the query, the [k] best come first (smallest squared Euclidean
    distance for [L2], largest inner product for [IP]), equal scores in slot
    order, and missing results are padded with slot [-1]. *)
Module Flat.

Fixpoint l2sqr (a b : vec) : Q :=
  match a, b with
  | x :: a', y :: b' => ((x - y) * (x - y) + l2sqr a' b')%Q
  | _, _ => 0%Q
  end.

Fixpoint inner_product (a b : vec) : Q :=
  match a, b with
  | x :: a', y :: b' => (x * y + inner_product a' b')%Q
  | _, _ => 0%Q
  end.

Definition score (m : Metric) (q v : vec) : Q :=
  match m with L2 => l2sqr q v | IP => inner_product q v end.

(** Whether a hit scored [a] goes before one scored [b]. *)
Definition before (m : Metric) (a b : Q) : bool :=
  match m with L2 => Qle_bool a b | IP => Qle_bool b a end.

Fixpoint insert_hit (m : Metric) (h : Q * Z) (l : list (Q * Z)) : list (Q * Z) :=
  match l with
  | [] => [h]
  | h' :: l' =>
      if before m (fst h) (fst h') then h :: h' :: l'
      else h' :: insert_hit m h l'
  end.

Fixpoint rank (m : Metric) (l : list (Q * Z)) : list (Q * Z) :=
  match l with
  | [] => []
  | h :: l' => insert_hit m h (rank m l')
  end.

Fixpoint scored (m : Metric) (q : vec) (slot : Z) (vs : list vec)
  : list (Q * Z) :=
  match vs with
  | [] => []
  | v :: vs' => (score m q v, slot) :: scored m q (slot + 1)%Z vs'
  end.

Definition padding (m : Metric) : Q * Z :=
  match m with
  | L2 => (Qmake 1000000 1, (-1)%Z)
  | IP => (Qmake (-1000000) 1, (-1)%Z)
  end.

Definition search (ix : Faiss) (q : vec) (k : nat) : list (Q * Z) :=
  let best := firstn k (rank (metric ix) (scored (metric ix) q 0%Z (vectors ix))) in
  best ++ repeat (padding (metric ix)) (k - length best).

End Flat.


(* ================================================================= *)
(** ** A flat view of [process_activity] *)

(** [process_activity] first reads (the three fields, the embedding, the
    search, the matched record) and only then writes.  [decide] is the reading
    half: it raises what the [try] raises before its first assignment, or says
    which path runs and with which values. *)
Inductive decision :=
| Matched (name location category : str) (embedding : vec) (similar_id : str)
| Fresh (name location category : str) (embedding : vec).

Section Views.
Variable E : Env.

Definition decide (activity_data : dict pyval) (s : Service) : res decision :=
  match get_lower E activity_data (u "name") with
  | Raise e => Raise e
  | Ok name =>
  match get_lower E activity_data (u "location") with
  | Raise e => Raise e
  | Ok location =>
  match get_lower E activity_data (u "category") with
  | Raise e => Raise e
  | Ok category =>
  match encode E (embedded_signature name location category) with
  | None => Raise RuntimeError
  | Some embedding =>
  match fst (_search_similar_activities E embedding s) with
  | Raise e => Raise e
  | Ok (Some ((similar_id, similarity) :: _)) =>
      match dict_get similar_id (activities s) with
      | None => Raise KeyError
      | Some _ =>
          if Qle_bool (similarity_threshold s) similarity
          then Ok (Matched name location category embedding similar_id)
          else Ok (Fresh name location category embedding)
      end
  | Ok _ => Ok (Fresh name location category embedding)
  end end end end end.

(** The id that the [n]-th draw of [uuid.uuid4] yields. *)
Definition drawn_id (n : nat) : str := activity_id_of_uuid (uuid4 E n).

(** The state in which the match path calls [write_index]: the record under
    [similar_id] replaced, index and [index_to_id] rebuilt. *)
Definition match_state (similar_id : str) (r : ActivityRecord) (s : Service)
  : Service :=
  let s1 := set_activities (dict_set similar_id r (activities s)) s in
  fold_left rebuild_step (activities s1)
    (set_index_to_id [] (set_index IndexFlatL2 s1)).

(** The state in which the create path calls [write_index]. *)
Definition create_state (r : ActivityRecord) (s : Service) : Service :=
  let s0 := next_uuid s in
  let s1 := set_index (index_add (index s0) (embedding r)) s0 in
  let s2 := set_activities (dict_set (activity_id r) r (activities s1)) s1 in
  set_index_to_id (index_to_id s2 ++ [activity_id r]) s2.

(** The record that either path stores. *)
Definition record_of (id name location category : str) (embedding : vec)
  : ActivityRecord :=
  {| activity_id := id; name := name; location := location;
     category := category; embedding := embedding; last_used := None |}.

(** [process_activity] over a list of activities, one after the other. *)
Fixpoint run_activities (acts : list (dict pyval)) (s : Service)
  : list (dict pyval) * Service :=
  match acts with
  | [] => ([], s)
  | d :: rest =>
      match process_activity E d s with
      | (Ok r, s1) =>
          let (rs, s2) := run_activities rest s1 in (r :: rs, s2)
      | (Raise _, s1) => ([], s1)
      end
  end.

End Views.

(* ================================================================= *)
(** ** Predicates used in the statements *)

Definition is_lower_hex (c : N) : bool :=
  (((48 <=? c) && (c <=? 57)) || ((97 <=? c) && (c <=? 102)))%N.

(** [activity_] followed by 16 lower-case hexadecimal characters. *)
Definition well_formed_id (id : str) : Prop :=
  exists h, id = u "activity_" ++ h /\ length h = 16%nat /\
            forallb is_lower_hex h = true.

(** The three counts of the store. *)
Definition sizes_agree (s : Service) : Prop :=
  ntotal (index s) = length (index_to_id s) /\
  length (index_to_id s) = length (activities s).

(** [k] is an id of the record store or of the index mapping. *)
Definition stored (s : Service) (k : str) : Prop :=
  In k (keys (activities s)) \/ In k (index_to_id s).

Definition str_mem (k : str) (l : list str) : bool := existsb (str_eqb k) l.

Fixpoint distinct (l : list str) : bool :=
  match l with
  | [] => true
  | k :: l' => negb (str_mem k l') && distinct l'
  end.

(** The next [k] draws of [uuid.uuid4] give ids that differ from one another
    and from every stored id. *)
Definition fresh_draws (E : Env) (s : Service) (k : nat) : bool :=
  let ids := map (drawn_id E) (seq (uuid_drawn s) k) in
  distinct ids &&
  forallb (fun id => negb (str_mem id (keys (activities s))) &&
                     negb (str_mem id (index_to_id s))) ids.

Definition str_le (a b : str) : Prop := str_leb a b = true.


(** Whether the loop of [cleanup_old_activities] keeps an item. *)
Definition recent (cutoff_date : Z) (item : str * ActivityRecord) : bool :=
  match last_used (snd item) with
  | Some t => (cutoff_date <=? t)%Z
  | None => false
  end.

(** A character of U+0000..U+007F other than a capital letter. *)
Definition plain (c : N) : Prop := (c < 128)%N /\ ~ (65 <= c <= 90)%N.

Definition is_dict (v : pyval) : bool :=
  match v with VDict _ => true | _ => false end.

(** The activities of a span and of a plan, in order; the entries that are no
    dicts are left out. *)
Definition dicts_of (l : list pyval) : list (dict pyval) :=
  flat_map (fun v => match v with VDict d => [d] | _ => [] end) l.

Definition span_activities (span : pyval) : list pyval :=
  match span with
  | VDict sd =>
      match get_or sd (u "activities") (VList []) with
      | VList acts => acts
      | _ => []
      end
  | _ => []
  end.

Definition plan_spans (plan : dict pyval) : list pyval :=
  match get_or plan (u "spans") (VList []) with
  | VList spans => spans
  | _ => []
  end.

Definition plan_activities (plan : dict pyval) : list (dict pyval) :=
  dicts_of (flat_map span_activities (plan_spans plan)).

(** A plan of the shape the itinerary generator produces: ['spans'], when
    present, is a list of dicts, and ['activities'], when present in a span, is
    a list of dicts. *)
Definition well_formed_span (span : pyval) : bool :=
  match span with
  | VDict sd =>
      match get_or sd (u "activities") (VList []) with
      | VList acts => forallb is_dict acts
      | _ => false
      end
  | _ => false
  end.

Definition well_formed_plan (plan : dict pyval) : bool :=
  match get_or plan (u "spans") (VList []) with
  | VList spans => forallb well_formed_span spans
  | _ => false
  end.

(** What one call of [process_activity] on [a] does, from the state [s1] to
    the result [r] and the state [s2], by the point at which its [try]
    raises, if it does: before anything is stored, at a write, or not at
    all. *)
Definition step_outcome (E : Env) (a : dict pyval) (s1 : Service)
    (r : dict pyval) (s2 : Service) : Prop :=
  match decide E a s1 with
  | Raise _ =>
      r = annotated a (drawn_id E (uuid_drawn s1)) /\
      activities s2 = activities s1 /\ index s2 = index s1 /\
      index_to_id s2 = index_to_id s1 /\
      faiss_file s2 = faiss_file s1 /\ records_file s2 = records_file s1
  | Ok (Fresh name location category e) =>
      let id := drawn_id E (uuid_drawn s1) in
      dict_get id (activities s2)
      = Some (record_of id name location category e) /\
      In id (index_to_id s2) /\
      if write_fails E (writes_done s1) || write_fails E (S (writes_done s1))
      then r = annotated a (drawn_id E (S (uuid_drawn s1)))
      else r = annotated a id /\
           faiss_file s2 = Some (index s2) /\
           records_file s2 = Some (activities s2)
  | Ok (Matched name location category e id) =>
      dict_get id (activities s2)
      = Some (record_of id name location category e) /\
      if write_fails E (writes_done s1)
      then r = annotated a (drawn_id E (uuid_drawn s1))
      else r = matched_result a id /\ faiss_file s2 = Some (index s2)
  end.

(* ================================================================= *)
(** ** The selection rule and the claims in the words of the specification *)



(** Section 4.4, as written: a resolution that returns normally and changed the
    store or the index has written both artifacts. *)
Definition persisted_or_reported_failed (E : Env) (d : dict pyval)
    (s : Service) : Prop :=
  forall r s',
    process_activity E d s = (Ok r, s') ->
    activities s' <> activities s \/ index s' <> index s ->
    faiss_file s' = Some (index s') /\ records_file s' = Some (activities s').

(** Section 4.2, as written: after a rebuild [index_to_id] lists the record
    ids in ascending order. *)
Definition rebuild_orders_by_id (E : Env) (s : Service) : Prop :=
  index_to_id (snd (_rebuild_index E s)) = map fst (sorted_items (activities s)).

(** Sections 4.5 and 7, as written: when the resolution of one activity of a
    plan fails, the plan is returned all the same, and the activity is not
    added to the record store or the index. *)
Definition failed_activity_is_left_out (E : Env) (plan : dict pyval)
    (s : Service) : Prop :=
  forall pre a post x sx,
    plan_activities plan = pre ++ a :: post ->
    process_activity_body E a (snd (run_activities E pre s)) = (Raise x, sx) ->
    (exists plan' s', process_trip_plan E plan s = (Ok plan', s')) /\
    let s1 := snd (run_activities E pre s) in
    let s2 := snd (process_activity E a s1) in
    activities s2 = activities s1 /\ index s2 = index s1 /\
    index_to_id s2 = index_to_id s1.

(* ================================================================= *)
(** ** Example data *)

Module Ex.

(** An embedder over four signatures; it raises on every other text. *)
Definition toy_encode (text : str) : option vec :=
  if str_eqb text (u "tokyo skytree | tyo | tour") then Some [0]
  else if str_eqb text (u "eiffel tower | par | tour") then Some [1]
  else if str_eqb text (u "tokyo tower | tyo | tour") then Some [1 # 2]
  else if str_eqb text (u " tokyo   skytree! | tyo | tour") then Some [3]
  else None.

(** The [n]-th UUID has [n + 1] in its upper 64 bits. *)
Definition toy_uuid4 (n : nat) : N := ((N.of_nat n + 1) * 2 ^ 64)%N.

Definition env (fails : nat -> bool) : Env :=
  {| unicode := Ucd.table; encode := toy_encode;
     faiss_search := Flat.search; uuid4 := toy_uuid4; write_fails := fails |}.

Definition disk_ok : nat -> bool := fun _ => false.
Definition disk_full : nat -> bool := fun _ => true.
(** The first write of the run is refused, every later one succeeds. *)
Definition disk_refuses_first : nat -> bool := fun n => Nat.eqb n 0.

(** A service started on an empty directory. *)
Definition fresh_service : Service :=
  init_service (env disk_ok) default_similarity_threshold None None.

Definition id_aa : str := u "activity_00000000000000aa".
Definition id_bb : str := u "activity_00000000000000bb".
Definition id_cc : str := u "activity_00000000000000cc".

(** Two records: "tokyo skytree" was created first and drew the id [id_bb],
    "eiffel tower" came second and drew [id_aa]. *)
Definition two_records : dict ActivityRecord :=
  [ (id_bb, record_of id_bb (u "tokyo skytree") (u "tyo") (u "tour") [0]);
    (id_aa, record_of id_aa (u "eiffel tower") (u "par") (u "tour") [1]) ].

Definition two_index : Faiss := {| metric := L2; vectors := [[0]; [1]] |}.

Definition two_service : Service :=
  {| similarity_threshold := default_similarity_threshold;
     index := two_index; index_to_id := [id_bb; id_aa];
     activities := two_records;
     faiss_file := Some two_index; records_file := Some two_records;
     uuid_drawn := 2; writes_done := 4 |}.

(** [datetime.now()] during the cleanup, and one day, in microseconds. *)
Definition now : Z := 63900000000000000.
Definition day : Z := 86400000000.

Definition aged (id : str) (v : Q) (days_ago : Z) : str * ActivityRecord :=
  (id, {| activity_id := id; name := u "park"; location := u "tyo";
          category := u "tour"; embedding := [v];
          last_used := Some (now - days_ago * day)%Z |}).

(** Three records that carry [last_used]: 40, 10 and 1 days before [now]. *)
Definition aged_records : dict ActivityRecord :=
  [ aged id_aa 0 40; aged id_bb 1 10; aged id_cc 2 1 ].

Definition aged_index : Faiss := {| metric := L2; vectors := [[0]; [1]; [2]] |}.

Definition aged_service : Service :=
  {| similarity_threshold := default_similarity_threshold;
     index := aged_index; index_to_id := [id_aa; id_bb; id_cc];
     activities := aged_records;
     faiss_file := Some aged_index; records_file := Some aged_records;
     uuid_drawn := 3; writes_done := 6 |}.

Definition activity (name location category : String.string) : dict pyval :=
  [ (u "name", VStr (u name));
    (u "description", VStr (u "a visit"));
    (u "location", VStr (u location));
    (u "startTime", VStr (u "2025-06-30T18:00:00Z"));
    (u "endTime", VStr (u "2025-06-30T21:00:00Z"));
    (u "participants", VInt 1);
    (u "category", VStr (u category)) ].

Definition skytree : dict pyval := activity "Tokyo Skytree" "TYO" "tour".
Definition eiffel : dict pyval := activity "Eiffel Tower" "PAR" "tour".
Definition tower : dict pyval := activity "Tokyo Tower" "TYO" "tour".
(** An activity the embedder raises on. *)
Definition ueno : dict pyval := activity "Ueno Park" "TYO" "tour".
(** Extra white space, an exclamation mark, an upper-case category. *)
Definition messy : dict pyval := activity " Tokyo   Skytree!" "TYO" "Tour".
(** An activity with a field the interface does not list. *)
Definition priced : dict pyval := skytree ++ [(u "price", VInt 25)].

Definition plan : dict pyval :=
  [ (u "tripId", VStr (u "trip_12345"));
    (u "spans",
     VList
       [ VDict [ (u "spanId", VStr (u "span_1"));
                 (u "activities", VList [VDict skytree; VDict ueno]) ];
         VDict [ (u "spanId", VStr (u "span_2"));
                 (u "activities", VList [VDict eiffel]) ] ]) ].

(** A plan of one span and two activities. *)
Definition pair_plan : dict pyval :=
  [ (u "tripId", VStr (u "trip_12345"));
    (u "spans",
     VList
       [ VDict [ (u "spanId", VStr (u "span_1"));
                 (u "activities", VList [VDict skytree; VDict eiffel]) ] ]) ].

End Ex.

(* ================================================================= *)
(** ** [ActivityRecord.to_dict] and [ActivityRecord.from_dict] *)

(** A value of the dictionary form of a record: a string, or the list of
    floats that [embedding.tolist()] gives and [np.array] takes back. *)
Inductive record_value :=
| RText (s : str)
| RVector (v : vec).

(** What the dataclass constructor holds after [from_dict]: the constructor
    checks no type, so each field is whatever the dictionary had. *)
Record LooseRecord := {
  loose_activity_id : record_value;
  loose_name : record_value;
  loose_location : record_value;
  loose_category : record_value;
  loose_embedding : record_value
}.

Definition to_dict (r : ActivityRecord) : dict record_value :=
  [ (u "activity_id", RText (activity_id r));
    (u "name", RText (name r));
    (u "location", RText (location r));
    (u "category", RText (category r));
    (u "embedding", RVector (embedding r)) ].

(** [data[key]]. *)
Definition item {V} (data : dict V) (key : str) : res V :=
  match dict_get key data with
  | Some v => Ok v
  | None => Raise KeyError
  end.

Definition from_dict (data : dict record_value) : res LooseRecord :=
  match item data (u "activity_id") with
  | Raise e => Raise e
  | Ok a =>
  match item data (u "name") with
  | Raise e => Raise e
  | Ok n =>
  match item data (u "location") with
  | Raise e => Raise e
  | Ok l =>
  match item data (u "category") with
  | Raise e => Raise e
  | Ok c =>
  match item data (u "embedding") with
  | Raise e => Raise e
  | Ok e =>
      Ok {| loose_activity_id := a; loose_name := n; loose_location := l;
            loose_category := c; loose_embedding := e |}
  end end end end end.

(** The record a [LooseRecord] is when its fields have the declared types.
    No [last_used] is set: the constructor has no such parameter. *)
Definition declared (r : LooseRecord) : option ActivityRecord :=
  match loose_activity_id r, loose_name r, loose_location r,
        loose_category r, loose_embedding r with
  | RText a, RText n, RText l, RText c, RVector e =>
      Some {| activity_id := a; name := n; location := l; category := c;
              embedding := e; last_used := None |}
  | _, _, _, _, _ => None
  end.

(* ================================================================= *)
(** ** [get_activity_stats] *)

(** The loop of [get_activity_stats]:
    [category_counts[c] = category_counts.get(c, 0) + 1]. *)
Definition count_category (category_counts : dict Z)
    (item : str * ActivityRecord) : dict Z :=
  let c := category (snd item) in
  let seen := match dict_get c category_counts with
              | Some n => n
              | None => 0%Z
              end in
  dict_set c (seen + 1)%Z category_counts.

Definition category_counts (acts : dict ActivityRecord) : dict Z :=
  fold_left count_category acts [].

(** The dictionary that [get_activity_stats] returns, key by key. *)
Record ActivityStats := {
  stats_total_activities : Z;
  stats_categories : dict Z;
  stats_similarity_threshold : Q
}.

Definition get_activity_stats (s : Service) : ActivityStats :=
  {| stats_total_activities := Z.of_nat (length (activities s));
     stats_categories := category_counts (activities s);
     stats_similarity_threshold := similarity_threshold s |}.

(** How many records have the category [c]. *)
Definition records_in_category (c : str) (acts : dict ActivityRecord) : Z :=
  Z.of_nat (length (filter (fun kv => str_eqb (category (snd kv)) c) acts)).

Definition sum_counts (counts : dict Z) : Z :=
  fold_right Z.add 0%Z (values counts).

(** [counts.get(c, 0)]. *)
Definition count_of (c : str) (counts : dict Z) : Z :=
  match dict_get c counts with
  | Some n => n
  | None => 0%Z
  end.

(** The keys that [from_dict] reads, in the order it reads them. *)
Definition record_keys : list str :=
  [u "activity_id"; u "name"; u "location"; u "category"; u "embedding"].

(* ================================================================= *)
(** ** The validators of [trip_service.py] *)

Fixpoint starts_with (prefix s : str) : bool :=
  match prefix, s with
  | [], _ => true
  | _ :: _, [] => false
  | x :: p', y :: s' => N.eqb x y && starts_with p' s'
  end.

(** [needle in haystack] for two strings. *)
Fixpoint is_substring (needle haystack : str) : bool :=
  starts_with needle haystack ||
  match haystack with
  | [] => false
  | _ :: rest => is_substring needle rest
  end.

(** [value == key] for a string [key]. *)
Definition equals_str (key : str) (value : pyval) : bool :=
  match value with
  | VStr s => str_eqb s key
  | _ => false
  end.

(** [key in container] for a string [key]. *)
Definition py_contains (container : pyval) (key : str) : res bool :=
  match container with
  | VDict d => Ok (match dict_get key d with Some _ => true | None => false end)
  | VList l => Ok (existsb (equals_str key) l)
  | VStr s => Ok (is_substring key s)
  | _ => Raise TypeError
  end.

(** [container[key]] for a string [key]. *)
Definition py_getitem (container : pyval) (key : str) : res pyval :=
  match container with
  | VDict d => item d key
  | _ => Raise TypeError
  end.

(** [container[key] = value] for a string [key]. *)
Definition py_setitem (container : pyval) (key : str) (value : pyval)
  : res pyval :=
  match container with
  | VDict d => Ok (VDict (dict_set key value d))
  | _ => Raise TypeError
  end.

(** [container.get(key, default)]. *)
Definition py_get (container : pyval) (key : str) (default : pyval)
  : res pyval :=
  match container with
  | VDict d => Ok (get_or d key default)
  | _ => Raise AttributeError
  end.

(** [value in options] for a list of string literals. *)
Definition one_of (options : list str) (value : pyval) : bool :=
  match value with
  | VStr s => str_mem s options
  | _ => false
  end.

(** [for field in fields: if field not in v: return False]: whether the loop
    runs to its end. *)
Fixpoint has_fields (fields : list str) (v : pyval) : res bool :=
  match fields with
  | [] => Ok true
  | field :: rest =>
      match py_contains v field with
      | Raise e => Raise e
      | Ok false => Ok false
      | Ok true => has_fields rest v
      end
  end.

Definition activity_required_fields : list str :=
  [u "name"; u "description"; u "location"; u "startTime"; u "endTime"].

Definition _validate_activity (activity : pyval) : res bool :=
  has_fields activity_required_fields activity.

Definition _validate_transportation (transport : pyval) : res bool :=
  let required_fields :=
    [u "type"; u "departureLocation"; u "arrivalLocation";
     u "departureTime"; u "arrivalTime"; u "service_class"] in
  match has_fields required_fields transport with
  | Raise e => Raise e
  | Ok false => Ok false
  | Ok true =>
      let valid_types :=
        [u "train"; u "flight"; u "car"; u "bus"; u "ferry"; u "walk";
         u "bicycle"] in
      match py_getitem transport (u "type") with
      | Raise e => Raise e
      | Ok t =>
          if negb (one_of valid_types t) then Ok false
          else
            let valid_classes :=
              [u "economy"; u "business"; u "first"; u "sleeper";
               u "premium"] in
            match py_getitem transport (u "service_class") with
            | Raise e => Raise e
            | Ok c => if negb (one_of valid_classes c) then Ok false else Ok true
            end
      end
  end.

Definition _validate_accommodation (accommodation : pyval) : res bool :=
  let required_fields :=
    [u "type"; u "location"; u "checkin"; u "checkout"] in
  match has_fields required_fields accommodation with
  | Raise e => Raise e
  | Ok false => Ok false
  | Ok true =>
      let valid_types :=
        [u "hotel"; u "resort"; u "airbnb"; u "hostel"; u "guesthouse"] in
      match py_getitem accommodation (u "type") with
      | Raise e => Raise e
      | Ok t => if negb (one_of valid_types t) then Ok false else Ok true
      end
  end.

(** [for x in items: if not validate(x): return False]. *)
Fixpoint all_valid (validate : pyval -> res bool) (items : list pyval)
  : res bool :=
  match items with
  | [] => Ok true
  | x :: rest =>
      match validate x with
      | Raise e => Raise e
      | Ok false => Ok false
      | Ok true => all_valid validate rest
      end
  end.

(** The second loop of [_validate_span]: an array field that is absent is set
    to [[]], one that is no list ends the validation.  The result is whether
    the loop ran to its end, and the span as the loop left it. *)
Fixpoint default_arrays (fields : list str) (span : pyval)
  : res bool * pyval :=
  match fields with
  | [] => (Ok true, span)
  | field :: rest =>
      match py_contains span field with
      | Raise e => (Raise e, span)
      | Ok false =>
          match py_setitem span field (VList []) with
          | Raise e => (Raise e, span)
          | Ok span' => default_arrays rest span'
          end
      | Ok true =>
          match py_getitem span field with
          | Raise e => (Raise e, span)
          | Ok (VList _) => default_arrays rest span
          | Ok _ => (Ok false, span)
          end
      end
  end.

(** [for x in span.get(field, []): if not validate(x): return False]. *)
Definition valid_entries (validate : pyval -> res bool) (span : pyval)
    (field : str) : res bool :=
  match py_get span field (VList []) with
  | Raise e => Raise e
  | Ok entries =>
      match py_iter entries with
      | Raise e => Raise e
      | Ok l => all_valid validate l
      end
  end.

(** The array fields of a span, in the order [_validate_span] visits them. *)
Definition span_array_fields : list str :=
  [u "transportation"; u "accommodation"; u "activities"].

Definition span_required_fields : list str :=
  [u "spanId"; u "spanTitle"; u "spanDescription"; u "from_location";
   u "to_location"; u "startDate"; u "endDate"].

(** [_validate_span(span)]: what it returns or raises, and the span after the
    call, which the method may have completed with empty arrays. *)
Definition _validate_span (span : pyval) : res bool * pyval :=
  match has_fields span_required_fields span with
  | Raise e => (Raise e, span)
  | Ok false => (Ok false, span)
  | Ok true =>
      let array_fields :=
        [u "transportation"; u "accommodation"; u "activities"] in
      match default_arrays array_fields span with
      | (Raise e, span1) => (Raise e, span1)
      | (Ok false, span1) => (Ok false, span1)
      | (Ok true, span1) =>
          match valid_entries _validate_transportation span1
                  (u "transportation") with
          | Raise e => (Raise e, span1)
          | Ok false => (Ok false, span1)
          | Ok true =>
          match valid_entries _validate_accommodation span1
                  (u "accommodation") with
          | Raise e => (Raise e, span1)
          | Ok false => (Ok false, span1)
          | Ok true =>
          match valid_entries _validate_activity span1 (u "activities") with
          | Raise e => (Raise e, span1)
          | Ok false => (Ok false, span1)
          | Ok true => (Ok true, span1)
          end end end
      end
  end.

(* ================================================================= *)
(** ** The endpoints of [trip_controller.py] over the service *)

(** What an endpoint does: it returns a body, or raises
    [HTTPException(status_code=500, detail=str(e))] for the exception [e] it
    caught. *)
Inductive response (A : Type) :=
| Body (a : A)
| HTTPException (status_code : Z) (cause : exn).
Arguments Body {A} a.
Arguments HTTPException {A} status_code cause.

Module TripController.

(** [try: return body(call())  except Exception as e: raise HTTPException]. *)
Definition guarded {A B} (call : M A) (body : A -> B) (s : Service)
  : response B * Service :=
  match call s with
  | (Ok a, s') => (Body (body a), s')
  | (Raise e, s') => (HTTPException 500 e, s')
  end.

(** [DELETE /cleanup-activities/{days_old}]: the body is the message and the
    [deleted_count]. *)
Definition cleanup_old_activities (E : Env) (now days_old : Z) (s : Service)
  : response (str * Z) * Service :=
  guarded (cleanup_old_activities E now days_old)
          (fun deleted_count => (u "Cleaned up old activities", deleted_count))
          s.

(** [POST /process-activities]: the body is the message and the processed
    plan. *)
Definition process_activities_endpoint (E : Env) (trip_plan_json : dict pyval)
    (s : Service) : response (str * dict pyval) * Service :=
  guarded (process_trip_plan E trip_plan_json)
          (fun processed_plan =>
             (u "Activities processed successfully", processed_plan))
          s.

(** [GET /activity-stats]. *)
Definition get_activity_stats (s : Service)
  : response (str * ActivityStats) * Service :=
  guarded (fun s => (Ok (get_activity_stats s), s))
          (fun stats => (u "Activity processing statistics", stats))
          s.

End TripController.

(* ================================================================= *)
(** ** More predicates *)

(** Slot by slot the index holds the embedding of the record that
    [index_to_id] names, and every record has its slot. *)
Definition aligned (s : Service) : Prop :=
  index_to_id s = keys (activities s) /\
  vectors (index s) = map embedding (values (activities s)).

(** No record carries the [last_used] attribute. *)
Definition without_last_used (acts : dict ActivityRecord) : Prop :=
  Forall (fun kv => last_used (snd kv) = None) acts.


(** The service as [_init_index] has it when both files were read and it
    compares the two counts. *)
Definition read_state (threshold : Q) (ix : Faiss)
    (records : dict ActivityRecord) : Service :=
  {| similarity_threshold := threshold; index := ix;
     index_to_id := map fst (sorted_items records);
     activities := dict_of_items (sorted_items records);
     faiss_file := Some ix; records_file := Some records;
     uuid_drawn := 0; writes_done := 0 |}.

(** What the [except] branch of [_init_index] assigns. *)
Definition emptied (s : Service) : Service :=
  set_index_to_id [] (set_activities [] (set_index IndexFlatL2 s)).

(** Further example data. *)
Module Ex2.

(** Two records that carry no [last_used], as [process_activity] builds
    them, in ascending order of id. *)
Definition sorted_records : dict ActivityRecord :=
  [ (Ex.id_aa, record_of Ex.id_aa (u "eiffel tower") (u "par") (u "tour") [1]);
    (Ex.id_bb, record_of Ex.id_bb (u "tokyo skytree") (u "tyo") (u "tour") [0]) ].

Definition sorted_index : Faiss := {| metric := L2; vectors := [[1]; [0]] |}.

Definition sorted_service : Service :=
  {| similarity_threshold := default_similarity_threshold;
     index := sorted_index; index_to_id := [Ex.id_aa; Ex.id_bb];
     activities := sorted_records;
     faiss_file := Some sorted_index; records_file := Some sorted_records;
     uuid_drawn := 2; writes_done := 4 |}.

(** An activity whose name is [None]. *)
Definition nameless : dict pyval :=
  [ (u "name", VNone); (u "location", VStr (u "TYO"));
    (u "category", VStr (u "tour")) ].

(** The activity "Tokyo Skytree" with other times and another description. *)
Definition skytree_later : dict pyval :=
  [ (u "category", VStr (u "tour"));
    (u "name", VStr (u "Tokyo Skytree"));
    (u "location", VStr (u "TYO"));
    (u "description", VStr (u "at night"));
    (u "startTime", VStr (u "2025-07-01T20:00:00Z")) ].

Definition span_1 : pyval :=
  VDict [ (u "spanId", VStr (u "span_1"));
          (u "spanTitle", VStr (u "Exploration of Tokyo"));
          (u "spanDescription", VStr (u "Tokyo"));
          (u "from_location", VStr (u "SGN"));
          (u "to_location", VStr (u "TYO"));
          (u "startDate", VStr (u "2025-06-30T00:00:00"));
          (u "endDate", VStr (u "2025-07-02T00:00:00"));
          (u "transportation",
           VList [ VDict [ (u "type", VStr (u "flight"));
                           (u "departureLocation", VStr (u "SGN"));
                           (u "arrivalLocation", VStr (u "TYO"));
                           (u "departureTime", VStr (u "2025-06-30T08:00:00Z"));
                           (u "arrivalTime", VStr (u "2025-06-30T16:00:00Z"));
                           (u "service_class", VStr (u "economy")) ] ]);
          (u "activities", VList [VDict Ex.skytree; VDict Ex.ueno]) ].

(** A plan whose second activity is a string. *)
Definition broken_plan : dict pyval :=
  [ (u "tripId", VStr (u "trip_12345"));
    (u "spans",
     VList
       [ VDict [ (u "spanId", VStr (u "span_1"));
                 (u "activities",
                  VList [VDict Ex.skytree; VStr (u "Ueno Park")]) ] ]) ].

End Ex2.

(** The words of a text after the characters that [p] rejects are removed:
    each word filtered, the words left empty dropped. *)
Definition filtered_words (p : N -> bool) (ws : list str) : list str :=
  filter (fun w => match w with [] => false | _ => true end)
         (map (filter p) ws).
(* ================================================================= *)
(** * Properties of the normalizer *)

Section NormalizerFacts.
Variable U : Unicode.

Lemma filter_all (f : N -> bool) (l : str) :
  forallb f l = true -> filter f l = l.
Proof.
  induction l as [|c l IH]; simpl; intro H; [reflexivity|].
  apply andb_true_iff in H as [Hc Hl]. rewrite Hc, IH; auto.
Qed.

Lemma forallb_filter (f : N -> bool) (l : str) :
  forallb f (filter f l) = true.
Proof.
  induction l as [|c l IH]; simpl; [reflexivity|].
  destruct (f c) eqn:Hc; simpl; [rewrite Hc|]; auto.
Qed.

Lemma split_from_words (s : str) :
  forall cur, Forall (fun c => isspace U c = false) cur ->
              Forall (word U) (split_from U cur s).
Proof.
  induction s as [|c s IH]; intros cur Hcur; simpl.
  - destruct cur; constructor; [|constructor].
    split; [discriminate|assumption].
  - destruct (isspace U c) eqn:Hc.
    + destruct cur.
      * apply IH; constructor.
      * constructor; [split; [discriminate|assumption]|].
        apply IH; constructor.
    + apply IH. apply Forall_app; split; [assumption|].
      constructor; [assumption|constructor].
Qed.

Lemma split_from_chars (P : N -> Prop) (s : str) :
  forall cur, Forall P cur -> Forall P s ->
              Forall (Forall P) (split_from U cur s).
Proof.
  induction s as [|c s IH]; intros cur Hcur Hs; simpl.
  - destruct cur; constructor; auto.
  - inversion Hs; subst.
    destruct (isspace U c).
    + destruct cur; [apply IH; auto|].
      constructor; [assumption|apply IH; auto].
    + apply IH; [|assumption].
      apply Forall_app; split; [assumption|constructor; auto].
Qed.

Lemma split_from_run (w : str) :
  Forall (fun c => isspace U c = false) w ->
  forall cur s, split_from U cur (w ++ s) = split_from U (cur ++ w) s.
Proof.
  induction w as [|c w IH]; intros Hw cur s; simpl.
  - rewrite app_nil_r; reflexivity.
  - inversion Hw; subst. rewrite H1.
    rewrite IH by assumption. rewrite <- app_assoc. reflexivity.
Qed.

Lemma join_chars (P : N -> Prop) (ws : list str) :
  P 32%N -> Forall (Forall P) ws -> Forall P (join (u " ") ws).
Proof.
  intros Hsp. induction ws as [|w ws IH]; intro H; simpl; [constructor|].
  inversion H; subst.
  destruct ws as [|w2 ws]; [assumption|].
  apply Forall_app; split; [assumption|].
  constructor; [exact Hsp|]. apply IH; assumption.
Qed.

Lemma lstrip_head (s : str) :
  match s with [] => True | c :: _ => isspace U c = false end ->
  lstrip U s = s.
Proof. destruct s as [|c s]; simpl; intro H; [reflexivity|now rewrite H]. Qed.

(** The joined words start and end with a character that is no space. *)
Lemma join_ends (ws : list str) :
  Forall (word U) ws -> ws <> [] ->
  (exists c s, join (u " ") ws = c :: s /\ isspace U c = false) /\
  (exists s c, join (u " ") ws = s ++ [c] /\ isspace U c = false).
Proof.
  induction ws as [|w ws IH]; intros Hws Hne; [congruence|].
  inversion Hws as [|? ? [Hw1 Hw2] Hrest]; subst.
  split.
  - destruct w as [|c w]; [congruence|].
    inversion Hw2; subst.
    destruct ws; simpl; eauto.
  - destruct ws as [|w2 ws].
    + simpl. destruct (exists_last Hw1) as [s [c Hs]]. subst w.
      exists s, c. split; [reflexivity|].
      apply Forall_app in Hw2 as [_ Hc]. now inversion Hc.
    + destruct IH as [_ [s [c [Hj Hc]]]]; [assumption|discriminate|].
      change (join (u " ") (w :: w2 :: ws))
        with (w ++ u " " ++ join (u " ") (w2 :: ws)).
      rewrite Hj. exists (w ++ u " " ++ s), c.
      split; [|assumption]. now rewrite !app_assoc.
Qed.

Lemma strip_join (ws : list str) :
  Forall (word U) ws -> strip U (join (u " ") ws) = join (u " ") ws.
Proof.
  intro Hws. destruct ws as [|w ws]; [reflexivity|].
  destruct (join_ends Hws) as [[c [s [Hh Hc]]] [s' [c' [Hl Hc']]]];
    [discriminate|].
  remember (join (u " ") (w :: ws)) as J.
  unfold strip. rewrite (lstrip_head J) by (rewrite Hh; exact Hc).
  rewrite (lstrip_head (rev J)); [apply rev_involutive|].
  rewrite Hl, rev_app_distr. exact Hc'.
Qed.

Hypothesis space_is_space : isspace U 32 = true.

Lemma split_join (ws : list str) :
  Forall (word U) ws -> split U (join (u " ") ws) = ws.
Proof.
  unfold split. induction ws as [|w ws IH]; intro Hws; [reflexivity|].
  inversion Hws as [|? ? [Hw1 Hw2] Hrest]; subst.
  destruct ws as [|w2 ws].
  - simpl. rewrite <- (app_nil_r w) at 1.
    rewrite split_from_run by assumption. simpl.
    destruct w; congruence.
  - change (join (u " ") (w :: w2 :: ws))
      with (w ++ 32%N :: join (u " ") (w2 :: ws)).
    rewrite split_from_run by assumption. simpl.
    rewrite space_is_space.
    destruct w as [|c w]; [congruence|].
    f_equal. apply IH. assumption.
Qed.

(** What [_normalize_text] returns is a list of words joined by one
    space. *)
Lemma normalize_shape (t : str) :
  exists ws, Forall (word U) ws /\
             Forall (Forall (fun c => kept_char U c = true)) ws /\
             _normalize_text U t = join (u " ") ws.
Proof.
  destruct t as [|c t].
  - exists []. repeat split; constructor.
  - unfold _normalize_text.
    set (t4 := filter (kept_char U) _).
    exists (split U t4). split; [|split].
    + apply split_from_words. constructor.
    + apply split_from_chars; [constructor|].
      apply Forall_forall. intros x Hx.
      apply filter_In in Hx. tauto.
    + apply strip_join. apply split_from_words. constructor.
Qed.

(** Normalizing joined words again does nothing when lower-casing and
    decomposition leave them alone. *)
Lemma normalize_joined (ws : list str) :
  Forall (word U) ws ->
  Forall (Forall (fun c => kept_char U c = true)) ws ->
  let n := join (u " ") ws in
  str_lower U n = n -> nfkd U n = n ->
  forallb (fun c => negb (combining U c)) n = true ->
  _normalize_text U n = n.
Proof.
  intros Hws Hkept n Hlow Hnf Hcomb.
  unfold _normalize_text. destruct n as [|c n'] eqn:Hn; [reflexivity|].
  rewrite Hlow, Hnf. rewrite (filter_all _ _ Hcomb).
  assert (Hk : forallb (kept_char U) (c :: n') = true).
  { apply forallb_forall. rewrite <- Hn.
    apply Forall_forall. apply join_chars; [|assumption].
    unfold kept_char. rewrite space_is_space.
    now rewrite orb_true_r. }
  rewrite (filter_all _ _ Hk). rewrite <- Hn. unfold n.
  rewrite split_join by assumption. apply strip_join. assumption.
Qed.

End NormalizerFacts.

(* ================================================================= *)
(** * Strings, dicts and identifiers *)

Lemma str_eqb_refl (a : str) : str_eqb a a = true.
Proof. induction a; simpl; [reflexivity|]. now rewrite N.eqb_refl. Qed.

Lemma str_eqb_eq (a b : str) : str_eqb a b = true <-> a = b.
Proof.
  split; [|intros ->; apply str_eqb_refl].
  revert b. induction a as [|x a IH]; destruct b as [|y b]; simpl;
    try discriminate; [reflexivity|].
  intro H. apply andb_true_iff in H as [H1 H2].
  apply N.eqb_eq in H1. f_equal; auto.
Qed.

Lemma str_eqb_neq (a b : str) : str_eqb a b = false <-> a <> b.
Proof.
  destruct (str_eqb a b) eqn:H.
  - apply str_eqb_eq in H. split; [discriminate|contradiction].
  - split; [|reflexivity]. intros _ Hab.
    apply str_eqb_eq in Hab. congruence.
Qed.

Lemma str_mem_In (k : str) (l : list str) : str_mem k l = true <-> In k l.
Proof.
  unfold str_mem. rewrite existsb_exists. split.
  - intros [x [Hx Hk]]. apply str_eqb_eq in Hk. now subst.
  - intro H. exists k. split; [assumption|apply str_eqb_refl].
Qed.

Lemma distinct_NoDup (l : list str) : distinct l = true -> NoDup l.
Proof.
  induction l as [|k l IH]; simpl; intro H; constructor;
    apply andb_true_iff in H as [H1 H2]; auto.
  intro Hin. apply str_mem_In in Hin. rewrite Hin in H1. discriminate.
Qed.

Section DictFacts.
Variable V : Type.
Implicit Types (d : dict V) (k : str) (v : V).

Lemma dict_get_set_same k v d : dict_get k (dict_set k v d) = Some v.
Proof.
  induction d as [|[k' v'] d IH]; simpl.
  - now rewrite str_eqb_refl.
  - destruct (str_eqb k k') eqn:H; simpl; rewrite H; auto.
Qed.

Lemma dict_get_set_other k k' v d :
  k' <> k -> dict_get k' (dict_set k v d) = dict_get k' d.
Proof.
  intro Hne. induction d as [|[k2 v2] d IH]; simpl.
  - apply str_eqb_neq in Hne. now rewrite Hne.
  - destruct (str_eqb k k2) eqn:H; simpl.
    + apply str_eqb_eq in H. subst k2.
      apply str_eqb_neq in Hne. now rewrite Hne.
    + now rewrite IH.
Qed.

Lemma dict_get_In k v d : dict_get k d = Some v -> In k (keys d).
Proof.
  induction d as [|[k' v'] d IH]; simpl; [discriminate|].
  destruct (str_eqb k k') eqn:H; intro Hg.
  - apply str_eqb_eq in H. now left.
  - right. auto.
Qed.

Lemma dict_get_None k d : dict_get k d = None <-> ~ In k (keys d).
Proof.
  induction d as [|[k' v'] d IH]; simpl; [tauto|].
  destruct (str_eqb k k') eqn:H.
  - apply str_eqb_eq in H. subst. split; [discriminate|tauto].
  - apply str_eqb_neq in H. rewrite IH. split; [|tauto].
    intros Hn [Heq|Hin]; [congruence|tauto].
Qed.

Lemma keys_dict_set_present k v v0 d :
  dict_get k d = Some v0 -> keys (dict_set k v d) = keys d.
Proof.
  induction d as [|[k' v'] d IH]; simpl; [discriminate|].
  destruct (str_eqb k k') eqn:H; simpl; intro Hg; [reflexivity|].
  f_equal. auto.
Qed.

Lemma dict_set_absent k v d :
  dict_get k d = None -> dict_set k v d = d ++ [(k, v)].
Proof.
  induction d as [|[k' v'] d IH]; simpl; [reflexivity|].
  destruct (str_eqb k k') eqn:H; [discriminate|].
  intro Hg. f_equal. auto.
Qed.

Lemma In_keys_dict_set x k v d :
  In x (keys (dict_set k v d)) -> x = k \/ In x (keys d).
Proof.
  induction d as [|[k' v'] d IH]; simpl.
  - intros [H|[]]. now left.
  - destruct (str_eqb k k') eqn:H; simpl.
    + tauto.
    + intros [Hx|Hx]; [tauto|]. destruct (IH Hx); tauto.
Qed.

Lemma keys_length d : length (keys d) = length d.
Proof. apply length_map. Qed.

End DictFacts.

Lemma hex_digit_lower (d : N) : (d < 16)%N -> is_lower_hex (hex_digit d) = true.
Proof.
  intro H. unfold hex_digit, is_lower_hex.
  destruct (d <? 10)%N eqn:Hd.
  - apply N.ltb_lt in Hd.
    replace (48 <=? 48 + d)%N with true by (symmetry; apply N.leb_le; lia).
    replace (48 + d <=? 57)%N with true by (symmetry; apply N.leb_le; lia).
    reflexivity.
  - apply N.ltb_ge in Hd.
    replace (97 <=? 87 + d)%N with true by (symmetry; apply N.leb_le; lia).
    replace (87 + d <=? 102)%N with true by (symmetry; apply N.leb_le; lia).
    apply orb_true_r.
Qed.

Lemma hex_digits_length (w : nat) : forall n, length (hex_digits w n) = w.
Proof.
  induction w as [|w IH]; intro n; simpl; [reflexivity|].
  rewrite length_app, IH. simpl. lia.
Qed.

Lemma hex_digits_lower (w : nat) :
  forall n, forallb is_lower_hex (hex_digits w n) = true.
Proof.
  induction w as [|w IH]; intro n; simpl; [reflexivity|].
  rewrite forallb_app, IH. simpl.
  rewrite hex_digit_lower; [reflexivity|].
  apply N.mod_lt. discriminate.
Qed.

Lemma forallb_firstn {A} (f : A -> bool) (k : nat) (l : list A) :
  forallb f l = true -> forallb f (firstn k l) = true.
Proof.
  revert l. induction k as [|k IH]; intros [|x l]; simpl; auto.
  intro H. apply andb_true_iff in H as [H1 H2]. rewrite H1. simpl. auto.
Qed.

(** Every id made from a UUID has the documented format. *)
Lemma activity_id_of_uuid_well_formed (n : N) :
  well_formed_id (activity_id_of_uuid n).
Proof.
  exists (firstn 16 (uuid_hex n)). split; [reflexivity|]. split.
  - rewrite length_firstn. unfold uuid_hex. rewrite hex_digits_length.
    reflexivity.
  - apply forallb_firstn. apply hex_digits_lower.
Qed.

(* ================================================================= *)
(** * The two paths of [process_activity] *)

Section Paths.
Variable E : Env.

Lemma search_keeps_state (e : vec) (s : Service) :
  snd (_search_similar_activities E e s) = s.
Proof.
  unfold _search_similar_activities.
  destruct (0 <? ntotal (index s))%nat; [|reflexivity].
  destruct (similar_of_hits _ _ _); reflexivity.
Qed.

(** Every candidate the loop keeps reaches the threshold and is named by
    [index_to_id]. *)
Lemma similar_of_hits_sound (ids : list str) (thr : Q) (hits : list (Q * Z)) :
  forall l, similar_of_hits ids thr hits = Ok l ->
            Forall (fun c => Qle_bool thr (snd c) = true /\ In (fst c) ids) l.
Proof.
  induction hits as [|[dist slot] hits IH]; simpl; intros l H.
  - inversion H. constructor.
  - destruct (negb (slot =? -1)%Z && Qle_bool thr (1 - dist / 2)) eqn:Hc;
      [|auto].
    apply andb_true_iff in Hc as [_ Hthr].
    destruct (list_get ids slot) as [id|] eqn:Hid; [|discriminate].
    destruct (similar_of_hits ids thr hits) as [l'|]; [|discriminate].
    inversion H; subst. constructor; [|auto].
    split; [exact Hthr|]. simpl.
    unfold list_get in Hid.
    destruct ((0 <=? _) && _)%Z; [|discriminate].
    destruct (nth_error ids _) eqn:Hn; [|discriminate].
    inversion Hid; subst. eapply nth_error_In; eauto.
Qed.

Lemma search_sound (e : vec) (s : Service) (l : list (str * Q)) :
  fst (_search_similar_activities E e s) = Ok (Some l) ->
  Forall (fun c => Qle_bool (similarity_threshold s) (snd c) = true /\
                   In (fst c) (index_to_id s)) l.
Proof.
  unfold _search_similar_activities.
  destruct (0 <? ntotal (index s))%nat; [|discriminate].
  destruct (similar_of_hits _ _ _) eqn:H; simpl; [|discriminate].
  intro Heq. inversion Heq; subst.
  eapply similar_of_hits_sound; eauto.
Qed.

(** The loop of [_rebuild_index] appends keys and embeddings in the order of
    the items and touches nothing else. *)
Lemma fold_rebuild_step (l : dict ActivityRecord) :
  forall s,
    let s' := fold_left rebuild_step l s in
    index_to_id s' = index_to_id s ++ keys l /\
    vectors (index s') = vectors (index s) ++ map embedding (values l) /\
    metric (index s') = metric (index s) /\
    activities s' = activities s /\
    faiss_file s' = faiss_file s /\ records_file s' = records_file s /\
    uuid_drawn s' = uuid_drawn s /\ writes_done s' = writes_done s /\
    similarity_threshold s' = similarity_threshold s.
Proof.
  induction l as [|[k r] l IH]; intro s; simpl.
  - rewrite !app_nil_r. repeat split.
  - destruct (IH (rebuild_step s (k, r))) as (H1 & H2 & H3 & H4 & H5 & H6 & H7 & H8 & H9).
    rewrite H1, H2, H3, H4, H5, H6, H7, H8, H9. simpl.
    rewrite <- !app_assoc. repeat split.
Qed.

Lemma match_state_fields (id : str) (r : ActivityRecord) (s : Service) :
  let s' := match_state id r s in
  index_to_id s' = keys (dict_set id r (activities s)) /\
  vectors (index s') = map embedding (values (dict_set id r (activities s))) /\
  metric (index s') = L2 /\
  activities s' = dict_set id r (activities s) /\
  faiss_file s' = faiss_file s /\ records_file s' = records_file s /\
  uuid_drawn s' = uuid_drawn s /\ writes_done s' = writes_done s /\
  similarity_threshold s' = similarity_threshold s.
Proof.
  unfold match_state.
  match goal with
  | |- context [fold_left rebuild_step ?l ?s0] =>
      destruct (fold_rebuild_step l s0)
        as (H1 & H2 & H3 & H4 & H5 & H6 & H7 & H8 & H9)
  end.
  cbv zeta. rewrite H1, H2, H3, H4, H5, H6, H7, H8, H9.
  repeat split.
Qed.

Lemma rebuild_flat (s : Service) :
  _rebuild_index E s =
  let s1 := fold_left rebuild_step (activities s)
              (set_index_to_id [] (set_index IndexFlatL2 s)) in
  if write_fails E (writes_done s)
  then (Raise RuntimeError, next_write s1)
  else (Ok tt, set_faiss_file (Some (index s1)) (next_write s1)).
Proof.
  unfold _rebuild_index, bind, modify, write_index. cbv beta iota zeta.
  match goal with
  | |- context [fold_left rebuild_step ?l ?s0] =>
      destruct (fold_rebuild_step l s0)
        as (_ & _ & _ & _ & _ & _ & _ & H8 & _)
  end.
  cbv zeta in H8. rewrite H8. reflexivity.
Qed.

(** The [try] of [process_activity], path by path. *)
Lemma body_flat (d : dict pyval) (s : Service) :
  process_activity_body E d s =
  match decide E d s with
  | Raise x => (Raise x, s)
  | Ok (Matched name location category e id) =>
      let s1 := match_state id (record_of id name location category e) s in
      if write_fails E (writes_done s)
      then (Raise RuntimeError, next_write s1)
      else (Ok (matched_result d id),
            set_faiss_file (Some (index s1)) (next_write s1))
  | Ok (Fresh name location category e) =>
      let id := drawn_id E (uuid_drawn s) in
      let s1 := create_state (record_of id name location category e) s in
      if write_fails E (writes_done s)
      then (Raise RuntimeError, next_write s1)
      else
        let s2 := set_faiss_file (Some (index s1)) (next_write s1) in
        if write_fails E (S (writes_done s))
        then (Raise OSError, next_write s2)
        else (Ok (annotated d id),
              set_records_file (Some (activities s2)) (next_write s2))
  end.
Proof.
  assert (Hcreate : forall name location category e,
    create_activity E d name location category e s =
    let id := drawn_id E (uuid_drawn s) in
    let s1 := create_state (record_of id name location category e) s in
    if write_fails E (writes_done s)
    then (Raise RuntimeError, next_write s1)
    else
      let s2 := set_faiss_file (Some (index s1)) (next_write s1) in
      if write_fails E (S (writes_done s))
      then (Raise OSError, next_write s2)
      else (Ok (annotated d id),
            set_records_file (Some (activities s2)) (next_write s2))).
  { intros. unfold create_activity, _store_activity, try_except,
      bind, _generate_activity_id, modify, write_index, _save_activities,
      raise, ret, drawn_id, create_state, record_of.
    cbv beta iota zeta.
    change (writes_done (set_index_to_id _ _)) with (writes_done s).
    destruct (write_fails E (writes_done s)); [reflexivity|].
    change (writes_done (set_faiss_file _ _)) with (S (writes_done s)).
    destruct (write_fails E (S (writes_done s))); reflexivity. }
  unfold decide, process_activity_body.
  unfold bind at 1. unfold lift at 1.
  destruct (get_lower E d (u "name")) as [name|]; [|reflexivity].
  unfold bind at 1. unfold lift at 1.
  destruct (get_lower E d (u "location")) as [location|]; [|reflexivity].
  unfold bind at 1. unfold lift at 1.
  destruct (get_lower E d (u "category")) as [category|]; [|reflexivity].
  unfold bind at 1. unfold _get_embedding.
  destruct (encode E (embedded_signature name location category)) as [e|];
    [|reflexivity].
  unfold ret at 1. unfold bind at 1.
  pose proof (search_keeps_state e s) as Hs.
  destruct (_search_similar_activities E e s) as [r s0]. simpl in Hs. subst s0.
  simpl fst.
  destruct r as [[[|[id sim] rest]|]|x]; try (apply Hcreate); [|reflexivity].
  unfold bind at 1, get at 1.
  destruct (dict_get id (activities s)); [|reflexivity].
  unfold bind at 1, get at 1.
  destruct (Qle_bool (similarity_threshold s) sim); [|apply Hcreate].
  unfold bind at 1, modify at 1. unfold bind at 1.
  rewrite rebuild_flat. cbv zeta.
  change (writes_done (set_activities _ s)) with (writes_done s).
  fold (record_of id name location category e).
  change (fold_left rebuild_step _ _)
    with (match_state id (record_of id name location category e) s).
  destruct (write_fails E (writes_done s)); reflexivity.
Qed.

(** [process_activity], path by path. *)
Lemma process_activity_flat (d : dict pyval) (s : Service) :
  process_activity E d s =
  match decide E d s with
  | Raise _ => (Ok (annotated d (drawn_id E (uuid_drawn s))), next_uuid s)
  | Ok (Matched name location category e id) =>
      let s1 := match_state id (record_of id name location category e) s in
      if write_fails E (writes_done s)
      then (Ok (annotated d (drawn_id E (uuid_drawn s))),
            next_uuid (next_write s1))
      else (Ok (matched_result d id),
            set_faiss_file (Some (index s1)) (next_write s1))
  | Ok (Fresh name location category e) =>
      let id := drawn_id E (uuid_drawn s) in
      let s1 := create_state (record_of id name location category e) s in
      if write_fails E (writes_done s)
      then (Ok (annotated d (drawn_id E (S (uuid_drawn s)))),
            next_uuid (next_write s1))
      else
        let s2 := set_faiss_file (Some (index s1)) (next_write s1) in
        if write_fails E (S (writes_done s))
        then (Ok (annotated d (drawn_id E (S (uuid_drawn s)))),
              next_uuid (next_write s2))
        else (Ok (annotated d id),
              set_records_file (Some (activities s2)) (next_write s2))
  end.
Proof.
  unfold process_activity, try_except. rewrite body_flat.
  destruct (decide E d s) as [[n l c e id|n l c e]|x]; [| |reflexivity].
  - cbv zeta. destruct (write_fails E (writes_done s)); [|reflexivity].
    unfold fallback, drawn_id.
    change (uuid_drawn (next_write ?x)) with (uuid_drawn x).
    destruct (match_state_fields id (record_of id n l c e) s)
      as (_ & _ & _ & _ & _ & _ & H7 & _).
    cbv zeta in H7. rewrite H7. reflexivity.
  - cbv zeta. destruct (write_fails E (writes_done s)); [reflexivity|].
    destruct (write_fails E (S (writes_done s))); reflexivity.
Qed.

End Paths.

(* ================================================================= *)
(** * Normalization (C10) and the embedded signature (C5) *)

(** C10, as stated, fails: normalizing the trade mark sign U+2122 gives "TM"
    (lower-casing leaves the sign alone and the decomposition that follows
    produces capitals), and normalizing "TM" gives "tm". *)
Lemma normalize_text_not_idempotent :
  _normalize_text Ucd.table (_normalize_text Ucd.table [8482%N])
  <> _normalize_text Ucd.table [8482%N].
Proof. vm_compute. discriminate. Qed.

(** C10, amended: [_normalize_text] is idempotent on every text whose
    normalized form is left unchanged by lower-casing and by NFKD
    decomposition and holds no combining mark. *)
Theorem normalize_text_idempotent_when_stable (U : Unicode) (t : str) :
  isspace U 32 = true ->
  str_lower U (_normalize_text U t) = _normalize_text U t ->
  nfkd U (_normalize_text U t) = _normalize_text U t ->
  forallb (fun c => negb (combining U c)) (_normalize_text U t) = true ->
  _normalize_text U (_normalize_text U t) = _normalize_text U t.
Proof.
  intros Hsp Hlow Hnf Hcomb.
  destruct (normalize_shape U t) as (ws & Hws & Hkept & Heq).
  rewrite Heq in *. apply normalize_joined; assumption.
Qed.

(** " Cafe'  Tokyo!" with a precomposed e acute: it normalizes to
    "cafe tokyo", which a second pass leaves alone. *)
Lemma normalize_text_idempotent_when_stable_witness :
  let t := [32; 67; 97; 102; 233; 32; 32; 84; 111; 107; 121; 111; 33]%N in
  _normalize_text Ucd.table t = u "cafe tokyo" /\
  _normalize_text Ucd.table (_normalize_text Ucd.table t)
  = _normalize_text Ucd.table t.
Proof.
  split; [reflexivity|].
  apply (normalize_text_idempotent_when_stable Ucd.table); reflexivity.
Defined.

Lemma plain_lower (c : N) : (c < 128)%N -> plain (Ucd.lower_cp c).
Proof.
  intro H. unfold plain, Ucd.lower_cp.
  destruct ((65 <=? c) && (c <=? 90))%N eqn:H1.
  - apply andb_true_iff in H1 as [Ha Hb].
    apply N.leb_le in Ha, Hb. lia.
  - replace ((192 <=? c) && (c <=? 222) && negb (c =? 215))%N with false.
    + split; [assumption|]. intros [Ha Hb].
      apply N.leb_le in Ha, Hb. rewrite Ha, Hb in H1. discriminate.
    + symmetry. apply andb_false_iff. left. apply andb_false_iff. left.
      apply N.leb_gt. lia.
Qed.

Lemma plain_fixed (c : N) :
  plain c ->
  Ucd.lower_cp c = c /\ Ucd.decompose c = [c] /\ Ucd.is_combining c = false.
Proof.
  intros [H1 H2]. unfold Ucd.lower_cp, Ucd.decompose, Ucd.is_combining.
  repeat split.
  - replace ((65 <=? c) && (c <=? 90))%N with false.
    + replace (192 <=? c)%N with false; [reflexivity|].
      symmetry. apply N.leb_gt. lia.
    + symmetry. apply andb_false_iff.
      destruct (N.leb_spec 65 c); [right; apply N.leb_gt; lia|now left].
  - repeat match goal with
           | |- context [(c =? ?k)%N] =>
               replace (c =? k)%N with false
                 by (symmetry; apply N.eqb_neq; lia)
           end.
    reflexivity.
  - repeat match goal with
           | |- context [(c =? ?k)%N] =>
               replace (c =? k)%N with false
                 by (symmetry; apply N.eqb_neq; lia)
           end.
    reflexivity.
Qed.

Lemma plain_text_fixed (s : str) :
  Forall plain s ->
  Ucd.lower s = s /\ Ucd.to_nfkd s = s /\
  forallb (fun c => negb (Ucd.is_combining c)) s = true.
Proof.
  induction 1 as [|c s Hc Hs (IH1 & IH2 & IH3)]; [repeat split|].
  destruct (plain_fixed Hc) as (H1 & H2 & H3).
  unfold Ucd.lower, Ucd.to_nfkd in *. simpl.
  rewrite H1, H2, H3, IH1, IH2, IH3. repeat split.
Qed.

(** The characters of a normalized text come from the lower-cased and
    decomposed text, or are the joining space. *)
Lemma normalize_chars (U : Unicode) (P : N -> Prop) (t : str) :
  P 32%N -> Forall P (nfkd U (str_lower U t)) -> Forall P (_normalize_text U t).
Proof.
  intros Hsp Hall. destruct t as [|c t]; [constructor|].
  unfold _normalize_text.
  set (t4 := filter (kept_char U) _).
  rewrite strip_join by (apply split_from_words; constructor).
  apply join_chars; [assumption|].
  apply split_from_chars; [constructor|].
  apply Forall_forall. intros x Hx. unfold t4 in Hx.
  apply filter_In in Hx as [Hx _]. apply filter_In in Hx as [Hx _].
  rewrite Forall_forall in Hall. auto.
Qed.

(** In particular [_normalize_text] is idempotent on ASCII texts. *)
Lemma normalize_text_idempotent_on_ascii (t : str) :
  Forall (fun c => (c < 128)%N) t ->
  _normalize_text Ucd.table (_normalize_text Ucd.table t)
  = _normalize_text Ucd.table t.
Proof.
  intro Hascii.
  assert (Hplain : Forall plain (_normalize_text Ucd.table t)).
  { apply normalize_chars.
    - split; [reflexivity|]. intros [H _]. now apply H.
    - assert (Hl : Forall plain (Ucd.lower t)).
      { unfold Ucd.lower. apply Forall_map.
        eapply Forall_impl; [|exact Hascii]. apply plain_lower. }
      simpl. destruct (plain_text_fixed Hl) as (_ & -> & _). exact Hl. }
  destruct (plain_text_fixed Hplain) as (H1 & H2 & H3).
  destruct (normalize_shape Ucd.table t) as (ws & Hws & Hkept & Heq).
  rewrite Heq in *. apply normalize_joined; auto.
Qed.

(** The text that reaches the embedder is built from the lower-cased fields
    and from nothing else: when the model raises on it, the [try] raises. *)
Lemma body_embeds_lowercased_fields (E : Env) (d : dict pyval) (s : Service)
    (name location category : str) :
  get_lower E d (u "name") = Ok name ->
  get_lower E d (u "location") = Ok location ->
  get_lower E d (u "category") = Ok category ->
  encode E (name ++ u " | " ++ location ++ u " | " ++ category) = None ->
  process_activity_body E d s = (Raise RuntimeError, s).
Proof.
  intros Hn Hl Hc He.
  unfold process_activity_body, bind, lift, _get_embedding, embedded_signature.
  rewrite Hn, Hl, Hc, He. reflexivity.
Qed.

(** C5: the code embeds the lower-cased raw fields.  For the activity named
    " Tokyo   Skytree!" in "TYO" of category "Tour" the stored embedding is the
    one of " tokyo   skytree! | tyo | tour", not the one of the normalized
    signature "tokyo skytree | tyo | tour". *)
Theorem raw_fields_are_embedded :
  let E := Ex.env Ex.disk_ok in
  exists s',
    process_activity E Ex.messy Ex.fresh_service
    = (Ok (annotated Ex.messy (drawn_id E 0)), s') /\
    map embedding (values (activities s')) = [[3]] /\
    encode E (u " tokyo   skytree! | tyo | tour") = Some [3] /\
    _create_activity_signature (unicode E)
      (u " Tokyo   Skytree!") (u "TYO") (u "Tour")
    = u "tokyo skytree | tyo | tour" /\
    encode E (u "tokyo skytree | tyo | tour") = Some [0].
Proof.
  eexists. split; [vm_compute; reflexivity|].
  repeat split.
Qed.

(* ================================================================= *)
(** * The result of [process_activity] (C9, C8) *)

Section Results.
Variable E : Env.

Lemma decide_matched (d : dict pyval) (s : Service)
    (name location category : str) (e : vec) (id : str) :
  decide E d s = Ok (Matched name location category e id) ->
  get_lower E d (u "name") = Ok name /\
  get_lower E d (u "location") = Ok location /\
  get_lower E d (u "category") = Ok category /\
  encode E (embedded_signature name location category) = Some e /\
  (exists sim rest,
     _search_similar_activities E e s = (Ok (Some ((id, sim) :: rest)), s)) /\
  (exists old, dict_get id (activities s) = Some old) /\
  In id (index_to_id s).
Proof.
  unfold decide.
  destruct (get_lower E d (u "name")) as [n|] eqn:Hn; [|discriminate].
  destruct (get_lower E d (u "location")) as [l|] eqn:Hl; [|discriminate].
  destruct (get_lower E d (u "category")) as [c|] eqn:Hc; [|discriminate].
  destruct (encode E (embedded_signature n l c)) as [e0|] eqn:He;
    [|discriminate].
  pose proof (search_keeps_state E e0 s) as Hst.
  pose proof (search_sound E e0 s) as Hsound.
  destruct (_search_similar_activities E e0 s) as [r s0] eqn:Hsearch.
  simpl in Hst, Hsound |- *. subst s0.
  destruct r as [[[|[id0 sim] rest]|]|x]; try discriminate.
  destruct (dict_get id0 (activities s)) as [old|] eqn:Hold; [|discriminate].
  destruct (Qle_bool (similarity_threshold s) sim); [|discriminate].
  intro H. inversion H; subst.
  specialize (Hsound _ eq_refl). inversion Hsound as [|? ? [_ Hin] _]; subst.
  simpl in Hin.
  split; [reflexivity|]. split; [reflexivity|]. split; [reflexivity|].
  split; [exact He|]. split; [exists sim, rest; exact Hsearch|].
  split; [exists old; exact Hold|exact Hin].
Qed.

Lemma activityId_of_annotated (d : dict pyval) (id : str) :
  dict_get (u "activityId") (annotated d id) = Some (VStr id).
Proof. apply dict_get_set_same. Qed.

Lemma activityId_of_matched_result (d : dict pyval) (id : str) :
  dict_get (u "activityId") (matched_result d id) = Some (VStr id).
Proof. reflexivity. Qed.

(** [{**activity_data, 'activityId': id}] keeps every other field. *)
Lemma annotated_keeps_fields (d : dict pyval) (id k : str) :
  k <> u "activityId" -> dict_get k (annotated d id) = dict_get k d.
Proof. intro H. apply dict_get_set_other. exact H. Qed.

(** The match path returns the eight listed keys and no other. *)
Lemma matched_result_keys (d : dict pyval) (id : str) :
  keys (matched_result d id)
  = [u "name"; u "description"; u "location"; u "startTime"; u "endTime";
     u "participants"; u "category"; u "activityId"].
Proof. reflexivity. Qed.

End Results.

(** C9: [process_activity] returns for every input dict, and what it returns
    carries an ['activityId'] of the form [activity_] plus 16 lower-case
    hexadecimal characters; the ids that [index_to_id] already holds are of
    that form. *)
Theorem process_activity_total (E : Env) (d : dict pyval) (s : Service) :
  Forall well_formed_id (index_to_id s) ->
  exists r s' id,
    process_activity E d s = (Ok r, s') /\
    dict_get (u "activityId") r = Some (VStr id) /\
    well_formed_id id.
Proof.
  intro Hwf. rewrite process_activity_flat.
  destruct (decide E d s) as [[n l c e id|n l c e]|x] eqn:Hd.
  - apply decide_matched in Hd as (_ & _ & _ & _ & _ & _ & Hin).
    cbv zeta. destruct (write_fails E (writes_done s)).
    + do 3 eexists. split; [reflexivity|].
      split; [apply activityId_of_annotated|].
      apply activity_id_of_uuid_well_formed.
    + do 3 eexists. split; [reflexivity|].
      split; [apply activityId_of_matched_result|].
      rewrite Forall_forall in Hwf. auto.
  - cbv zeta.
    destruct (write_fails E (writes_done s));
      [|destruct (write_fails E (S (writes_done s)))];
      (do 3 eexists; split; [reflexivity|];
       split; [apply activityId_of_annotated
              |apply activity_id_of_uuid_well_formed]).
  - do 3 eexists. split; [reflexivity|].
    split; [apply activityId_of_annotated|].
    apply activity_id_of_uuid_well_formed.
Qed.

Lemma example_ids_well_formed :
  well_formed_id Ex.id_aa /\ well_formed_id Ex.id_bb /\ well_formed_id Ex.id_cc.
Proof.
  repeat split.
  - exists (u "00000000000000aa"). repeat split.
  - exists (u "00000000000000bb"). repeat split.
  - exists (u "00000000000000cc"). repeat split.
Qed.

(** "Tokyo Tower" against the store of two records: the call returns the id
    of a stored record. *)
Lemma process_activity_total_witness :
  Forall well_formed_id (index_to_id Ex.two_service) /\
  exists r s' id,
    process_activity (Ex.env Ex.disk_ok) Ex.tower Ex.two_service = (Ok r, s') /\
    dict_get (u "activityId") r = Some (VStr id) /\
    well_formed_id id.
Proof.
  assert (H : Forall well_formed_id (index_to_id Ex.two_service)).
  { destruct example_ids_well_formed as (Ha & Hb & _).
    repeat constructor; assumption. }
  split; [exact H|].
  exact (process_activity_total (Ex.env Ex.disk_ok) Ex.tower Ex.two_service H).
Defined.

(** C8: on the match path the extra field is lost.  "Tokyo Skytree" with a
    ['price'] field, resolved against a store that holds "tokyo skytree",
    comes back with the eight listed keys and without ['price']. *)
Theorem match_path_drops_extra_fields :
  let E := Ex.env Ex.disk_ok in
  exists s',
    process_activity E Ex.priced Ex.two_service
    = (Ok (matched_result Ex.priced Ex.id_bb), s') /\
    dict_get (u "price") Ex.priced = Some (VInt 25) /\
    dict_get (u "price") (matched_result Ex.priced Ex.id_bb) = None.
Proof.
  eexists. split; [vm_compute; reflexivity|].
  split; reflexivity.
Qed.

(* ================================================================= *)
(** * Rebuilding the index (C7) *)

Lemma str_leb_total (a : str) :
  forall b, str_leb a b = false -> str_leb b a = true.
Proof.
  induction a as [|x a IH]; intros [|y b]; simpl; try discriminate;
    try reflexivity.
  destruct (x <? y)%N eqn:Hlt; [discriminate|].
  destruct (x =? y)%N eqn:Heq.
  - apply N.eqb_eq in Heq. subst y.
    rewrite N.ltb_irrefl, N.eqb_refl. apply IH.
  - intros _. apply N.ltb_ge in Hlt. apply N.eqb_neq in Heq.
    replace (y <? x)%N with true; [reflexivity|].
    symmetry. apply N.ltb_lt. lia.
Qed.

Section SortedItems.
Variable V : Type.
Implicit Types (l : list (str * V)) (x : str * V).

Lemma insert_item_perm x l : Permutation (insert_item x l) (x :: l).
Proof.
  induction l as [|y l IH]; simpl; [reflexivity|].
  destruct (str_leb (fst x) (fst y)); [reflexivity|].
  rewrite IH. apply perm_swap.
Qed.

Lemma sorted_items_perm l : Permutation (sorted_items l) l.
Proof.
  induction l as [|x l IH]; simpl; [reflexivity|].
  rewrite insert_item_perm. now constructor.
Qed.

Lemma insert_item_sorted x l :
  Sorted str_le (map fst l) -> Sorted str_le (map fst (insert_item x l)).
Proof.
  induction l as [|y l IH]; simpl; intro Hs.
  - repeat constructor.
  - destruct (str_leb (fst x) (fst y)) eqn:Hxy; simpl.
    + constructor; [assumption|]. constructor. exact Hxy.
    + inversion Hs as [|? ? Hs' Hhd]; subst.
      constructor; [auto|].
      destruct l as [|z l]; simpl.
      * constructor. apply str_leb_total. exact Hxy.
      * destruct (str_leb (fst x) (fst z)); simpl; constructor.
        -- apply str_leb_total. exact Hxy.
        -- inversion Hhd; assumption.
Qed.

Lemma sorted_items_sorted l : Sorted str_le (map fst (sorted_items l)).
Proof.
  induction l as [|x l IH]; simpl; [constructor|].
  apply insert_item_sorted. exact IH.
Qed.

Lemma dict_of_items_from (l : list (str * V)) :
  forall acc : dict V,
    NoDup (keys acc ++ map fst l) ->
    fold_left (fun d kv => dict_set (fst kv) (snd kv) d) l acc = acc ++ l.
Proof.
  induction l as [|[k v] l IH]; intros acc Hnd; simpl.
  - now rewrite app_nil_r.
  - simpl in Hnd. rewrite dict_set_absent.
    + rewrite IH; [now rewrite <- app_assoc|].
      unfold keys. rewrite map_app. simpl. rewrite <- app_assoc. exact Hnd.
    + apply dict_get_None. apply NoDup_remove_2 in Hnd.
      intro Hin. apply Hnd. apply in_or_app. now left.
Qed.

(** [dict(items)] is [items] when no key repeats. *)
Lemma dict_of_items_nodup l : NoDup (map fst l) -> dict_of_items l = l.
Proof. intro H. unfold dict_of_items. now rewrite dict_of_items_from. Qed.

End SortedItems.

(** X15: a rebuild discards the index and [index_to_id] and reinserts every
    record in the iteration order of the record map: [index_to_id] is then the list
    of the map's keys in that order, slot by slot the embedding of the record,
    and it is ascending by id only when the map is. *)
Lemma rebuild_follows_record_order (E : Env) (s : Service) :
  let s' := snd (_rebuild_index E s) in
  index_to_id s' = keys (activities s) /\
  vectors (index s') = map embedding (values (activities s)) /\
  metric (index s') = L2 /\
  activities s' = activities s /\
  (Sorted str_le (keys (activities s)) -> Sorted str_le (index_to_id s')).
Proof.
  rewrite rebuild_flat. cbv zeta.
  match goal with
  | |- context [fold_left rebuild_step ?l ?s0] =>
      destruct (fold_rebuild_step l s0)
        as (H1 & H2 & H3 & H4 & _)
  end.
  cbv zeta in *. simpl in H1, H2, H3, H4.
  destruct (write_fails E (writes_done s)); simpl;
    rewrite H1, H2, H3, H4; repeat split; auto.
Qed.

(** With "tokyo skytree" stored first under [activity_..bb] and
    "eiffel tower" second under [activity_..aa], the rule of section 4.2 does
    not hold of the rebuild. *)
Lemma rebuild_keeps_insertion_order :
  ~ rebuild_orders_by_id (Ex.env Ex.disk_ok) Ex.two_service.
Proof. unfold rebuild_orders_by_id. vm_compute. discriminate. Qed.

(** X12: the load path.  The records read from disk are sorted by id before
    the index is checked, so when the counts disagree and the index is
    rebuilt, [index_to_id] is ascending and the index follows it. *)
Lemma load_orders_by_id (E : Env) (threshold : Q) (ix : Faiss)
    (records : dict ActivityRecord) :
  NoDup (keys records) ->
  ntotal ix <> length records ->
  write_fails E 0 = false ->
  let s := init_service E threshold (Some ix) (Some records) in
  index_to_id s = map fst (sorted_items records) /\
  Sorted str_le (index_to_id s) /\
  Permutation (index_to_id s) (keys records) /\
  vectors (index s) = map embedding (values (sorted_items records)) /\
  activities s = sorted_items records.
Proof.
  intros Hnd Hne Hw s.
  assert (Hd : dict_of_items (sorted_items records) = sorted_items records).
  { apply dict_of_items_nodup.
    eapply Permutation_NoDup; [|exact Hnd].
    symmetry. apply Permutation_map. apply sorted_items_perm. }
  assert (Hs : exists base,
             index_to_id base = [] /\ index base = IndexFlatL2 /\
             activities base = sorted_items records /\
             s = let F := fold_left rebuild_step (sorted_items records) base in
                 set_faiss_file (Some (index F)) (next_write F)).
  { unfold s, init_service, _init_index, _load_activities, try_except.
    unfold bind at 1. unfold modify at 1. unfold bind at 1. unfold get at 1.
    cbn [faiss_file set_index_to_id set_activities records_file].
    unfold bind at 1. unfold modify at 1. unfold bind at 1. unfold get at 1.
    cbn [faiss_file set_index_to_id set_activities records_file set_index].
    unfold bind at 1. unfold modify at 1.
    unfold bind at 1. unfold modify at 1.
    unfold bind at 1. unfold get at 1.
    unfold bind at 1. unfold get at 1.
    cbn [index index_to_id set_index_to_id set_activities set_index].
    rewrite length_map.
    replace (length (sorted_items records)) with (length records)
      by (symmetry; apply Permutation_length; apply sorted_items_perm).
    destruct (Nat.eqb_spec (ntotal ix) (length records)) as [Heq|_];
      [contradiction|].
    cbn [negb]. rewrite rebuild_flat. cbv zeta.
    cbn [writes_done set_index_to_id set_activities set_index activities].
    rewrite Hw, Hd. cbn [snd].
    eexists. split; [|split; [|split; [|reflexivity]]]; reflexivity. }
  destruct Hs as (base & Hb1 & Hb2 & Hb3 & Hs). rewrite Hs. cbv zeta.
  destruct (fold_rebuild_step (sorted_items records) base)
    as (H1 & H2 & H3 & H4 & _).
  cbv zeta in *.
  cbn [set_faiss_file next_write index_to_id index activities].
  rewrite H1, H2, H4, Hb1, Hb2, Hb3. unfold keys. simpl.
  split; [reflexivity|]. split; [apply sorted_items_sorted|].
  split; [apply Permutation_map; apply sorted_items_perm|].
  split; reflexivity.
Qed.

(** C7: the rebuild does not reinsert in ascending order of id, and the
    mapping is not reproducible across restarts.  On the store that holds
    [activity_..bb] before [activity_..aa], a rebuild gives
    [index_to_id = [..bb; ..aa]], not the sorted list.  The rebuilt index is
    written in that order; after a restart [_init_index] names its slots in
    sorted order, [[..aa; ..bb]], and "Tokyo Skytree", which resolved to
    [activity_..bb] before the restart, resolves to [activity_..aa]. *)
Theorem rebuild_order_is_not_the_load_order :
  let E := Ex.env Ex.disk_ok in
  let s1 := snd (_rebuild_index E Ex.two_service) in
  let s2 := init_service E default_similarity_threshold
              (faiss_file s1) (records_file s1) in
  keys (activities Ex.two_service) = [Ex.id_bb; Ex.id_aa] /\
  index_to_id s1 = [Ex.id_bb; Ex.id_aa] /\
  map fst (sorted_items (activities Ex.two_service)) = [Ex.id_aa; Ex.id_bb] /\
  faiss_file s1 = Some (index s1) /\
  index s2 = index s1 /\
  index_to_id s2 = [Ex.id_aa; Ex.id_bb] /\
  (exists s', process_activity E Ex.skytree s1
              = (Ok (matched_result Ex.skytree Ex.id_bb), s')) /\
  (exists s', process_activity E Ex.skytree s2
              = (Ok (matched_result Ex.skytree Ex.id_aa), s')).
Proof.
  repeat split; try (eexists; vm_compute; reflexivity).
Qed.

(* ================================================================= *)
(** * The three counts (C1) and the recency cleanup (C2) *)

Section Cleanup.
Variable E : Env.

(** [cleanup_old_activities], outcome by outcome. *)
Lemma cleanup_flat (now days_old : Z) (s : Service) :
  cleanup_old_activities E now days_old s =
  match timedelta_days days_old with
  | Raise e => (Raise e, s)
  | Ok delta =>
  match datetime_sub now delta with
  | Raise e => (Raise e, s)
  | Ok cutoff_date =>
  match keep_recent cutoff_date (activities s) [] IndexFlatIP with
  | Raise e => (Raise e, s)
  | Ok kept =>
      let s1 := set_activities (fst kept) (set_index (snd kept) s) in
      if write_fails E (writes_done s) then (Raise RuntimeError, next_write s1)
      else
        let s2 := set_faiss_file (Some (index s1)) (next_write s1) in
        if write_fails E (S (writes_done s)) then (Raise OSError, next_write s2)
        else (Ok 0%Z, set_records_file (Some (activities s2)) (next_write s2))
  end end end.
Proof.
  unfold cleanup_old_activities, bind, lift, get, modify, write_index,
    _save_activities, ret.
  destruct (timedelta_days days_old) as [delta|]; [|reflexivity].
  destruct (datetime_sub now delta) as [cutoff|]; [|reflexivity].
  destruct (keep_recent cutoff (activities s) [] IndexFlatIP) as [kept|];
    [|reflexivity].
  cbv beta iota zeta.
  change (writes_done (set_activities _ _)) with (writes_done s).
  destruct (write_fails E (writes_done s)); [reflexivity|].
  change (writes_done (set_faiss_file _ _)) with (S (writes_done s)).
  destruct (write_fails E (S (writes_done s))); [reflexivity|].
  cbn [activities set_faiss_file next_write set_activities].
  rewrite Z.sub_diag. reflexivity.
Qed.

(** X17: the count that [cleanup_old_activities] returns is taken after
    [self.activities] has been replaced: whatever the store, a cleanup that
    returns returns zero. *)
Lemma cleanup_count_is_zero (now days_old n : Z) (s s' : Service) :
  cleanup_old_activities E now days_old s = (Ok n, s') -> n = 0%Z.
Proof.
  rewrite cleanup_flat.
  destruct (timedelta_days days_old); [|discriminate].
  destruct (datetime_sub now a); [|discriminate].
  destruct (keep_recent _ _ _ _); [|discriminate].
  cbv zeta.
  destruct (write_fails E (writes_done s)); [discriminate|].
  destruct (write_fails E (S (writes_done s))); [discriminate|].
  intro H. inversion H. reflexivity.
Qed.

(** [cleanup_old_activities] never assigns [index_to_id]. *)
Lemma cleanup_keeps_index_to_id (now days_old : Z) (s : Service) :
  index_to_id (snd (cleanup_old_activities E now days_old s)) = index_to_id s.
Proof.
  rewrite cleanup_flat.
  destruct (timedelta_days days_old); [|reflexivity].
  destruct (datetime_sub now a); [|reflexivity].
  destruct (keep_recent _ _ _ _); [|reflexivity].
  cbv zeta.
  destruct (write_fails E (writes_done s)); [reflexivity|].
  destruct (write_fails E (S (writes_done s))); reflexivity.
Qed.

(** On records that carry [last_used] the loop keeps the recent ones, in
    order, and indexes their embeddings. *)
Lemma keep_recent_filters (cutoff_date : Z) (items : dict ActivityRecord) :
  forall acc ix,
    NoDup (keys acc ++ keys items) ->
    Forall (fun item => last_used (snd item) <> None) items ->
    keep_recent cutoff_date items acc ix
    = Ok (acc ++ filter (recent cutoff_date) items,
          {| metric := metric ix;
             vectors := vectors ix ++
                        map embedding
                          (values (filter (recent cutoff_date) items)) |}).
Proof.
  induction items as [|[k r] items IH]; intros acc ix Hnd Hall; simpl.
  - rewrite !app_nil_r. destruct ix; reflexivity.
  - inversion Hall as [|? ? Hr Hrest]; subst. simpl in Hr.
    destruct (last_used r) as [t|] eqn:Hlu; [|congruence].
    assert (Hrec : recent cutoff_date (k, r) = (cutoff_date <=? t)%Z).
    { unfold recent. simpl. now rewrite Hlu. }
    rewrite Hrec.
    assert (Hk : dict_get k acc = None).
    { apply dict_get_None. simpl in Hnd. apply NoDup_remove_2 in Hnd.
      intro Hin. apply Hnd. apply in_or_app. now left. }
    destruct (cutoff_date <=? t)%Z.
    + rewrite dict_set_absent by exact Hk. rewrite IH.
      * simpl. rewrite <- !app_assoc. reflexivity.
      * unfold keys in *. rewrite map_app. simpl. rewrite <- app_assoc.
        exact Hnd.
      * exact Hrest.
    + apply IH; [|exact Hrest].
      simpl in Hnd. apply NoDup_remove_1 in Hnd. exact Hnd.
Qed.

(** A cleanup that returns and has removed a record leaves more ids in
    [index_to_id] than there are records. *)
Lemma cleanup_that_removes_breaks_sizes (now days_old n : Z) (s s' : Service) :
  sizes_agree s ->
  cleanup_old_activities E now days_old s = (Ok n, s') ->
  (length (activities s') < length (activities s))%nat ->
  ~ sizes_agree s'.
Proof.
  intros [_ Hs] Hrun Hlt [_ Hs'].
  pose proof (cleanup_keeps_index_to_id now days_old s) as Hk.
  rewrite Hrun in Hk. simpl in Hk. rewrite Hk in Hs'. lia.
Qed.

(** On a record built by this module the loop raises. *)
Lemma cleanup_raises_without_last_used (now days_old : Z) (s : Service)
    (id : str) (r : ActivityRecord) (rest : dict ActivityRecord)
    (delta cutoff_date : Z) :
  timedelta_days days_old = Ok delta ->
  datetime_sub now delta = Ok cutoff_date ->
  activities s = (id, r) :: rest ->
  last_used r = None ->
  cleanup_old_activities E now days_old s = (Raise AttributeError, s).
Proof.
  intros Hd Hc Ha Hl. rewrite cleanup_flat, Hd, Hc, Ha. simpl.
  rewrite Hl. reflexivity.
Qed.

(** X29: both paths of [process_activity], and its fallback, keep the three
    counts equal, provided the id drawn for a new record is not in use. *)
Lemma process_activity_keeps_sizes (d : dict pyval) (s : Service) :
  sizes_agree s ->
  dict_get (drawn_id E (uuid_drawn s)) (activities s) = None ->
  sizes_agree (snd (process_activity E d s)).
Proof.
  intros [Hs1 Hs2] Hfresh. rewrite process_activity_flat.
  destruct (decide E d s) as [[n l c e id|n l c e]|x].
  - cbv zeta.
    destruct (match_state_fields id (record_of id n l c e) s)
      as (H1 & H2 & _).
    cbv zeta in H1, H2.
    assert (Hm : sizes_agree (match_state id (record_of id n l c e) s)).
    { unfold sizes_agree, ntotal. rewrite H1, H2.
      unfold keys, values. rewrite !length_map.
      destruct (match_state_fields id (record_of id n l c e) s)
        as (_ & _ & _ & H4 & _).
      cbv zeta in H4. rewrite H4. split; reflexivity. }
    destruct (write_fails E (writes_done s)); exact Hm.
  - cbv zeta.
    assert (Hc : sizes_agree
                   (create_state
                      (record_of (drawn_id E (uuid_drawn s)) n l c e) s)).
    { unfold sizes_agree, create_state, ntotal, index_add. simpl.
      rewrite dict_set_absent by exact Hfresh.
      rewrite !length_app. simpl. unfold ntotal in Hs1. lia. }
    destruct (write_fails E (writes_done s)); [exact Hc|].
    destruct (write_fails E (S (writes_done s))); exact Hc.
  - split; assumption.
Qed.

End Cleanup.

(** C1: the cleanup breaks the invariant.  With three records that carry
    [last_used], 40, 10 and 1 days old, and the three counts equal,
    [cleanup_old_activities(30)] returns with an index of two vectors, two
    records, and an [index_to_id] of three ids. *)
Theorem cleanup_leaves_index_to_id_stale :
  let E := Ex.env Ex.disk_ok in
  sizes_agree Ex.aged_service /\
  exists n s',
    cleanup_old_activities E Ex.now 30 Ex.aged_service = (Ok n, s') /\
    ntotal (index s') = 2%nat /\
    length (activities s') = 2%nat /\
    index_to_id s' = [Ex.id_aa; Ex.id_bb; Ex.id_cc] /\
    ~ sizes_agree s'.
Proof.
  split; [split; reflexivity|].
  do 2 eexists. split; [vm_compute; reflexivity|].
  repeat split. intros [H _]. vm_compute in H. discriminate.
Qed.

(** C2: the count returned is wrong.  On the same store
    [cleanup_old_activities(30)] removes the one record last used 40 days
    before, keeps the other two, and returns 0. *)
Theorem cleanup_removes_one_and_returns_zero :
  let E := Ex.env Ex.disk_ok in
  keys (activities Ex.aged_service) = [Ex.id_aa; Ex.id_bb; Ex.id_cc] /\
  exists s',
    cleanup_old_activities E Ex.now 30 Ex.aged_service = (Ok 0%Z, s') /\
    keys (activities s') = [Ex.id_bb; Ex.id_cc] /\
    total_activities s' = 2%nat.
Proof.
  split; [reflexivity|].
  eexists. split; [vm_compute; reflexivity|].
  split; reflexivity.
Qed.

(* ================================================================= *)
(** * Choosing the match (C4) *)


Section Candidates.
Variables (ids : list str) (thr : Q).




End Candidates.

(** The first candidate is named by the slot of the first passing hit: of two
    stores that hold the same vectors with the ids [a] and [b] exchanged, the
    same hits select different ids, so the selection cannot follow the order
    of the ids, whichever way the index orders equally near hits. *)
Lemma first_candidate_follows_slot (thr : Q) (a b : str) (hits : list (Q * Z)) :
  a <> b ->
  forall id1 sim1 rest1 id2 sim2 rest2,
    similar_of_hits [a; b] thr hits = Ok ((id1, sim1) :: rest1) ->
    similar_of_hits [b; a] thr hits = Ok ((id2, sim2) :: rest2) ->
    id1 <> id2.
Proof.
  intro Hab.
  induction hits as [|[dist slot] hits IH]; simpl;
    intros id1 sim1 rest1 id2 sim2 rest2 H1 H2; [discriminate|].
  destruct (negb (slot =? -1)%Z && Qle_bool thr (1 - dist / 2)); [|eauto].
  destruct (list_get [a; b] slot) as [x|] eqn:Hx; [|discriminate].
  destruct (list_get [b; a] slot) as [y|] eqn:Hy; [|discriminate].
  destruct (similar_of_hits [a; b] thr hits); [|discriminate].
  destruct (similar_of_hits [b; a] thr hits); [|discriminate].
  inversion H1; inversion H2; subst.
  unfold list_get in Hx, Hy. simpl length in Hx, Hy.
  match type of Hx with
  | context [if ?c then _ else _] => destruct c; [|discriminate]
  end.
  match type of Hx with
  | context [nth_error _ ?j] =>
      destruct j as [|[|k]]; simpl in Hx, Hy;
      try (destruct k; discriminate); congruence
  end.
Qed.




(* ================================================================= *)
(** * Saving (C3) *)

(** C3, as stated, fails: when every write is refused, resolving
    "Tokyo Skytree" on an empty store returns normally, the new record is in
    memory, and neither file has been written. *)
Lemma failed_save_is_not_reported :
  ~ persisted_or_reported_failed (Ex.env Ex.disk_full) Ex.skytree
      Ex.fresh_service.
Proof.
  intro H.
  pose (out := process_activity (Ex.env Ex.disk_full) Ex.skytree
                 Ex.fresh_service).
  pose (r := match fst out with Ok r => r | Raise _ => [] end).
  destruct (H r (snd out)) as [Hf _].
  - vm_compute. reflexivity.
  - left. vm_compute. discriminate.
  - vm_compute in Hf. discriminate.
Qed.

(** C3, amended: the create path writes the index artifact and then the
    records artifact before it returns the new id, and the match path writes
    the index artifact before it returns the matched id.  When a write is
    refused the caller is not told: [process_activity] returns the input with
    a fallback id, and the record stays in memory although the file was not
    written. *)
Theorem saves_and_failed_saves (E : Env) (d : dict pyval) (s : Service)
    (dec : decision) :
  decide E d s = Ok dec ->
  exists r s',
    process_activity E d s = (Ok r, s') /\
    match dec with
    | Fresh name location category e =>
        let id := drawn_id E (uuid_drawn s) in
        dict_get id (activities s')
        = Some (record_of id name location category e) /\
        if write_fails E (writes_done s) || write_fails E (S (writes_done s))
        then r = annotated d (drawn_id E (S (uuid_drawn s))) /\
             records_file s' = records_file s
        else r = annotated d id /\
             faiss_file s' = Some (index s') /\
             records_file s' = Some (activities s')
    | Matched name location category e id =>
        dict_get id (activities s')
        = Some (record_of id name location category e) /\
        if write_fails E (writes_done s)
        then r = annotated d (drawn_id E (uuid_drawn s)) /\
             faiss_file s' = faiss_file s /\
             records_file s' = records_file s
        else r = matched_result d id /\
             faiss_file s' = Some (index s')
    end.
Proof.
  intro Hd. rewrite process_activity_flat, Hd.
  destruct dec as [n l c e id|n l c e]; cbv zeta.
  - destruct (match_state_fields id (record_of id n l c e) s)
      as (_ & _ & _ & H4 & H5 & H6 & _).
    cbv zeta in H4, H5, H6.
    destruct (write_fails E (writes_done s)); do 2 eexists;
      (split; [reflexivity|]);
      cbn [activities faiss_file records_file index set_faiss_file
           next_write next_uuid];
      rewrite ?H4, ?H5, ?H6; repeat split; apply dict_get_set_same.
  - assert (Hrec : dict_get (drawn_id E (uuid_drawn s))
                     (activities
                        (create_state
                           (record_of (drawn_id E (uuid_drawn s)) n l c e) s))
                   = Some (record_of (drawn_id E (uuid_drawn s)) n l c e)).
    { unfold create_state. simpl. apply dict_get_set_same. }
    destruct (write_fails E (writes_done s));
      [|destruct (write_fails E (S (writes_done s)))];
      do 2 eexists; (split; [reflexivity|]);
      cbn [orb activities faiss_file records_file index set_faiss_file
           set_records_file next_write next_uuid];
      (split; [exact Hrec|]); repeat split.
Qed.

(** Every write refused, "Tokyo Skytree" on an empty store. *)
Lemma saves_and_failed_saves_witness :
  let E := Ex.env Ex.disk_full in
  decide E Ex.skytree Ex.fresh_service
  = Ok (Fresh (u "tokyo skytree") (u "tyo") (u "tour") [0]) /\
  exists s',
    process_activity E Ex.skytree Ex.fresh_service
    = (Ok (annotated Ex.skytree (drawn_id E 1)), s') /\
    dict_get (drawn_id E 0) (activities s')
    = Some (record_of (drawn_id E 0) (u "tokyo skytree") (u "tyo") (u "tour")
              [0]) /\
    records_file s' = None.
Proof.
  intro E.
  assert (H1 : decide E Ex.skytree Ex.fresh_service
               = Ok (Fresh (u "tokyo skytree") (u "tyo") (u "tour") [0]))
    by (vm_compute; reflexivity).
  split; [exact H1|].
  destruct (saves_and_failed_saves E Ex.skytree Ex.fresh_service H1)
    as (r & s' & Hrun & Hrec & Hr & Hfile).
  exists s'. rewrite Hrun, Hr. repeat split; assumption.
Defined.

(* ================================================================= *)
(** * Trip plans (C6) *)

Section Steps.
Variable E : Env.
Local Open Scope nat_scope.

Lemma process_activity_ok (d : dict pyval) (s : Service) :
  exists r s', process_activity E d s = (Ok r, s').
Proof.
  unfold process_activity, try_except.
  destruct (process_activity_body E d s) as [[r|x] s1]; [eauto|].
  unfold fallback. eauto.
Qed.

Lemma stored_match_state (id : str) (r old : ActivityRecord) (s : Service)
    (k : str) :
  dict_get id (activities s) = Some old ->
  stored (match_state id r s) k -> stored s k.
Proof.
  intros Hold.
  destruct (match_state_fields id r s) as (H1 & _ & _ & H4 & _).
  cbv zeta in H1, H4. unfold stored. rewrite H1, H4.
  rewrite (keys_dict_set_present _ _ _ Hold). left. tauto.
Qed.

Lemma stored_create_state (r : ActivityRecord) (s : Service) (k : str) :
  stored (create_state r s) k -> stored s k \/ k = activity_id r.
Proof.
  unfold stored, create_state. simpl. intros [H|H].
  - apply In_keys_dict_set in H. tauto.
  - apply in_app_or in H. simpl in H. intuition.
Qed.

(** What one call does to the ids of the store and to the UUID source. *)
Lemma step_effect (d : dict pyval) (s : Service) (r : dict pyval)
    (s' : Service) :
  process_activity E d s = (Ok r, s') ->
  uuid_drawn s <= uuid_drawn s' <= uuid_drawn s + 2 /\
  (exists id, dict_get (u "activityId") r = Some (VStr id)) /\
  (forall k, stored s' k ->
             stored s k \/
             exists i, uuid_drawn s <= i < uuid_drawn s' /\ k = drawn_id E i) /\
  (forall x sx,
      process_activity_body E d s = (Raise x, sx) ->
      uuid_drawn s < uuid_drawn s' /\
      r = annotated d (drawn_id E (uuid_drawn s' - 1)) /\
      forall k, stored s' k ->
                stored s k \/
                exists i, uuid_drawn s <= i < uuid_drawn s' - 1 /\
                          k = drawn_id E i).
Proof.
  rewrite process_activity_flat, body_flat.
  destruct (decide E d s) as [[n l c e id|n l c e]|x0] eqn:Hd.
  - apply decide_matched in Hd as (_ & _ & _ & _ & _ & (old & Hold) & _).
    pose proof (fun k => @stored_match_state id (record_of id n l c e) old s k
                           Hold) as Hst.
    destruct (match_state_fields id (record_of id n l c e) s)
      as (_ & _ & _ & _ & _ & _ & H7 & _).
    cbv zeta in H7. cbv zeta.
    destruct (write_fails E (writes_done s)); intro H; inversion H; subst;
      cbn [uuid_drawn next_uuid next_write set_faiss_file]; rewrite H7.
    + split; [lia|]. split; [eexists; apply activityId_of_annotated|].
      split; [intros k Hk; left; apply Hst; exact Hk|].
      intros x sx _. split; [lia|].
      replace (S (uuid_drawn s) - 1) with (uuid_drawn s) by lia.
      split; [reflexivity|]. intros k Hk. left. apply Hst. exact Hk.
    + split; [lia|]. split; [eexists; apply activityId_of_matched_result|].
      split; [intros k Hk; left; apply Hst; exact Hk|].
      intros x sx Hx. discriminate.
  - cbv zeta.
    pose proof (fun k =>
      @stored_create_state (record_of (drawn_id E (uuid_drawn s)) n l c e) s k)
      as Hst.
    destruct (write_fails E (writes_done s));
      [|destruct (write_fails E (S (writes_done s)))];
      intro H; inversion H; subst;
      cbn [uuid_drawn next_uuid next_write set_faiss_file set_records_file
           create_state set_index_to_id set_activities set_index].
    + split; [lia|]. split; [eexists; apply activityId_of_annotated|].
      split.
      * intros k Hk. destruct (Hst k Hk) as [Hs|Hs]; [now left|].
        right. exists (uuid_drawn s). split; [lia|exact Hs].
      * intros x sx _. split; [lia|].
        replace (S (S (uuid_drawn s)) - 1) with (S (uuid_drawn s)) by lia.
        split; [reflexivity|].
        intros k Hk. destruct (Hst k Hk) as [Hs|Hs]; [now left|].
        right. exists (uuid_drawn s). split; [lia|exact Hs].
    + split; [lia|]. split; [eexists; apply activityId_of_annotated|].
      split.
      * intros k Hk. destruct (Hst k Hk) as [Hs|Hs]; [now left|].
        right. exists (uuid_drawn s). split; [lia|exact Hs].
      * intros x sx _. split; [lia|].
        replace (S (S (uuid_drawn s)) - 1) with (S (uuid_drawn s)) by lia.
        split; [reflexivity|].
        intros k Hk. destruct (Hst k Hk) as [Hs|Hs]; [now left|].
        right. exists (uuid_drawn s). split; [lia|exact Hs].
    + split; [lia|]. split; [eexists; apply activityId_of_annotated|].
      split.
      * intros k Hk. destruct (Hst k Hk) as [Hs|Hs]; [now left|].
        right. exists (uuid_drawn s). split; [lia|exact Hs].
      * intros x sx Hx. discriminate.
  - intro H. inversion H; subst. cbn [uuid_drawn next_uuid].
    split; [lia|]. split; [eexists; apply activityId_of_annotated|].
    split; [intros k Hk; left; exact Hk|].
    intros x sx _. split; [lia|].
    replace (S (uuid_drawn s) - 1) with (uuid_drawn s) by lia.
    split; [reflexivity|]. intros k Hk. left. exact Hk.
Qed.

(** X30: [process_activity] stores ids of the documented form only: when
    every id of the record map and of [index_to_id] is [activity_] followed by
    16 lower-case hexadecimal characters, so is every id after the call. *)
Lemma process_activity_keeps_ids_well_formed (d : dict pyval) (s : Service) :
  (forall k, stored s k -> well_formed_id k) ->
  forall k, stored (snd (process_activity E d s)) k -> well_formed_id k.
Proof.
  intros Hwf k Hk.
  destruct (process_activity_ok d s) as (r & s' & Hr).
  rewrite Hr in Hk. simpl in Hk.
  destruct (step_effect _ _ Hr) as (_ & _ & Hst & _).
  destruct (Hst k Hk) as [Hs|[i [_ Hi]]]; [auto|].
  subst k. apply activity_id_of_uuid_well_formed.
Qed.

(** A failure before the first assignment leaves store, index and files as
    they were. *)
Lemma early_failure_leaves_store (d : dict pyval) (s : Service) (x : exn) :
  decide E d s = Raise x ->
  let s' := snd (process_activity E d s) in
  activities s' = activities s /\ index s' = index s /\
  index_to_id s' = index_to_id s /\
  faiss_file s' = faiss_file s /\ records_file s' = records_file s.
Proof.
  intro Hd. rewrite process_activity_flat, Hd. repeat split.
Qed.

Lemma run_activities_app (pre post : list (dict pyval)) :
  forall s,
    run_activities E (pre ++ post) s =
    let (o1, s1) := run_activities E pre s in
    let (o2, s2) := run_activities E post s1 in
    (o1 ++ o2, s2).
Proof.
  induction pre as [|d pre IH]; intro s; simpl.
  - destruct (run_activities E post s); reflexivity.
  - destruct (process_activity_ok d s) as (r & s1 & Hr). rewrite Hr.
    rewrite IH.
    destruct (run_activities E pre s1) as [o1 s2].
    destruct (run_activities E post s2) as [o2 s3]. reflexivity.
Qed.

Lemma run_effect (acts : list (dict pyval)) :
  forall s outs s',
    run_activities E acts s = (outs, s') ->
    length outs = length acts /\
    uuid_drawn s <= uuid_drawn s' <= uuid_drawn s + 2 * length acts /\
    Forall (fun r => exists id, dict_get (u "activityId") r = Some (VStr id))
           outs /\
    forall k, stored s' k ->
              stored s k \/
              exists i, uuid_drawn s <= i < uuid_drawn s' /\ k = drawn_id E i.
Proof.
  induction acts as [|d acts IH]; intros s outs s' H; simpl in H.
  - inversion H; subst. simpl.
    split; [reflexivity|]. split; [lia|]. split; [constructor|]. tauto.
  - destruct (process_activity_ok d s) as (r & s1 & Hr). rewrite Hr in H.
    destruct (run_activities E acts s1) as [o2 s2] eqn:Hrun.
    inversion H; subst.
    destruct (step_effect _ _ Hr) as (Hu & Hid & Hst & _).
    destruct (IH _ _ _ Hrun) as (Hlen & Hu2 & Hids & Hst2).
    simpl. split; [lia|]. split; [lia|]. split; [constructor; assumption|].
    intros k Hk. destruct (Hst2 k Hk) as [Hs1|[i [Hi Hki]]].
    + destruct (Hst k Hs1) as [Hs0|[i [Hi Hki]]]; [now left|].
      right. exists i. split; [lia|exact Hki].
    + right. exists i. split; [lia|exact Hki].
Qed.

Lemma NoDup_map_injective {A B} (f : A -> B) (l : list A) (x y : A) :
  NoDup (map f l) -> In x l -> In y l -> f x = f y -> x = y.
Proof.
  induction l as [|a l IH]; simpl; intros Hnd Hx Hy Hf; [contradiction|].
  inversion Hnd as [|? ? Hnotin Hnd']; subst.
  destruct Hx as [Hx|Hx], Hy as [Hy|Hy]; subst; auto.
  - exfalso. apply Hnotin. rewrite Hf. now apply in_map.
  - exfalso. apply Hnotin. rewrite <- Hf. now apply in_map.
Qed.

Lemma fresh_draws_spec (s : Service) (k : nat) :
  fresh_draws E s k = true ->
  (forall i j, uuid_drawn s <= i < uuid_drawn s + k ->
               uuid_drawn s <= j < uuid_drawn s + k ->
               drawn_id E i = drawn_id E j -> i = j) /\
  (forall i, uuid_drawn s <= i < uuid_drawn s + k ->
             ~ stored s (drawn_id E i)).
Proof.
  unfold fresh_draws. intro H. apply andb_true_iff in H as [Hd Hf]. split.
  - intros i j Hi Hj Hij.
    apply distinct_NoDup in Hd.
    eapply NoDup_map_injective; [exact Hd| | |exact Hij]; apply in_seq; lia.
  - intros i Hi [Hs|Hs].
    + rewrite forallb_forall in Hf.
      specialize (Hf (drawn_id E i)).
      rewrite (proj2 (str_mem_In _ _) Hs) in Hf. simpl in Hf.
      discriminate Hf. apply in_map. apply in_seq. lia.
    + rewrite forallb_forall in Hf.
      specialize (Hf (drawn_id E i)).
      rewrite (proj2 (str_mem_In _ (index_to_id s)) Hs) in Hf.
      rewrite andb_false_r in Hf.
      discriminate Hf. apply in_map. apply in_seq. lia.
Qed.

(** An activity whose [try] raises gets a fallback id that is in no store,
    whatever is processed before and after it. *)
Lemma run_failure (pre post : list (dict pyval)) (a : dict pyval)
    (s : Service) (x : exn) (sx : Service) :
  fresh_draws E s (2 * length (pre ++ a :: post)) = true ->
  process_activity_body E a (snd (run_activities E pre s)) = (Raise x, sx) ->
  exists fb,
    nth_error (fst (run_activities E (pre ++ a :: post) s)) (length pre)
    = Some (annotated a fb) /\
    well_formed_id fb /\
    ~ stored (snd (run_activities E (pre ++ a :: post) s)) fb.
Proof.
  intros Hfresh Hraise.
  apply fresh_draws_spec in Hfresh as [Hinj Hnew].
  rewrite length_app in Hinj, Hnew. simpl in Hinj, Hnew.
  rewrite run_activities_app.
  destruct (run_activities E pre s) as [o1 s1] eqn:Hpre.
  simpl in Hraise. simpl.
  destruct (process_activity_ok a s1) as (r & s2 & Hr). rewrite Hr.
  destruct (run_activities E post s2) as [o2 s3] eqn:Hpost.
  destruct (run_effect _ _ Hpre) as (Hlen1 & Hu1 & _ & Hst1).
  destruct (step_effect _ _ Hr) as (Hu2 & _ & _ & Hfail).
  destruct (Hfail _ _ Hraise) as (Hlt & Hres & Hst2).
  destruct (run_effect _ _ Hpost) as (Hlen3 & Hu3 & _ & Hst3).
  exists (drawn_id E (uuid_drawn s2 - 1)). simpl.
  split; [|split].
  - rewrite nth_error_app2 by lia. rewrite Hlen1, Nat.sub_diag. simpl.
    now rewrite Hres.
  - apply activity_id_of_uuid_well_formed.
  - intro Hk.
    assert (Hrange : uuid_drawn s <= uuid_drawn s2 - 1
                     < uuid_drawn s + (length pre + S (length post) +
                                       (length pre + S (length post) + 0)))
      by lia.
    destruct (Hst3 _ Hk) as [Hk2|[i [Hi Hki]]].
    + destruct (Hst2 _ Hk2) as [Hk1|[i [Hi Hki]]].
      * destruct (Hst1 _ Hk1) as [Hk0|[i [Hi Hki]]].
        -- exact (Hnew _ Hrange Hk0).
        -- apply Hinj in Hki; lia.
      * apply Hinj in Hki; lia.
    + apply Hinj in Hki; lia.
Qed.

End Steps.

Section Plans.
Variable E : Env.
Local Open Scope nat_scope.

Lemma dicts_of_app (a b : list pyval) :
  dicts_of (a ++ b) = dicts_of a ++ dicts_of b.
Proof. unfold dicts_of. apply flat_map_app. Qed.

Lemma dicts_of_dicts (l : list (dict pyval)) : dicts_of (map VDict l) = l.
Proof. induction l as [|d l IH]; simpl; [reflexivity|]. now rewrite IH. Qed.

Lemma dicts_of_length (acts : list pyval) :
  forallb is_dict acts = true -> length (dicts_of acts) = length acts.
Proof.
  induction acts as [|a acts IH]; simpl; [reflexivity|].
  intro H. apply andb_true_iff in H as [Ha Hrest].
  destruct a; try discriminate. simpl. now rewrite IH.
Qed.

Lemma process_activities_run (acts : list pyval) :
  forallb is_dict acts = true ->
  forall s,
    process_activities E acts s =
    let (outs, s') := run_activities E (dicts_of acts) s in
    (Ok (map VDict outs), s').
Proof.
  induction acts as [|a acts IH]; intros Hall s; [reflexivity|].
  simpl in Hall. apply andb_true_iff in Hall as [Ha Hrest].
  destruct a as [| | | | |d]; try discriminate.
  change (dicts_of (VDict d :: acts)) with (d :: dicts_of acts).
  simpl. unfold bind at 1. unfold process_activity_value, bind at 1.
  destruct (process_activity_ok E d s) as (r & s1 & Hr). rewrite Hr.
  unfold ret at 1. unfold bind at 1.
  rewrite (IH Hrest s1).
  destruct (run_activities E (dicts_of acts) s1) as [outs s2]. reflexivity.
Qed.

Lemma span_activities_set (sd : dict pyval) (l : list pyval) :
  span_activities (VDict (dict_set (u "activities") (VList l) sd)) = l.
Proof.
  unfold span_activities, get_or. now rewrite dict_get_set_same.
Qed.

Lemma process_span_run (span : pyval) (s : Service) :
  well_formed_span span = true ->
  exists span',
    process_span E span s
    = (Ok span', snd (run_activities E (dicts_of (span_activities span)) s)) /\
    span_activities span'
    = map VDict (fst (run_activities E (dicts_of (span_activities span)) s)) /\
    length (span_activities span') = length (span_activities span).
Proof.
  destruct span as [| | | | |sd]; try discriminate.
  intro Hwf. unfold well_formed_span in Hwf.
  assert (Hsa : exists acts,
             get_or sd (u "activities") (VList []) = VList acts /\
             forallb is_dict acts = true).
  { destruct (get_or sd (u "activities") (VList [])); try discriminate.
    eauto. }
  destruct Hsa as (acts & Hget & Hall).
  assert (Hacts : span_activities (VDict sd) = acts).
  { unfold span_activities. now rewrite Hget. }
  rewrite Hacts. unfold process_span. rewrite Hget.
  unfold bind at 1. unfold lift, py_iter. unfold bind at 1.
  rewrite (process_activities_run acts Hall s).
  destruct (run_activities E (dicts_of acts) s) as [outs s'] eqn:Hrun.
  eexists. split; [reflexivity|].
  rewrite span_activities_set. split; [reflexivity|].
  rewrite length_map. destruct (run_effect _ _ _ Hrun) as (Hlen & _).
  simpl. rewrite <- (dicts_of_length acts Hall). exact Hlen.
Qed.

Lemma process_spans_run (spans : list pyval) :
  forallb well_formed_span spans = true ->
  forall s,
    let acts := dicts_of (flat_map span_activities spans) in
    exists spans',
      process_spans E spans s = (Ok spans', snd (run_activities E acts s)) /\
      dicts_of (flat_map span_activities spans')
      = fst (run_activities E acts s) /\
      map (fun sp => length (span_activities sp)) spans'
      = map (fun sp => length (span_activities sp)) spans.
Proof.
  induction spans as [|sp spans IH]; intros Hall s.
  - exists []. repeat split.
  - simpl in Hall. apply andb_true_iff in Hall as [Hsp Hrest].
    destruct (process_span_run sp s Hsp) as (sp' & Hrun & Hacts & Hlen).
    cbv zeta. simpl flat_map. rewrite dicts_of_app, run_activities_app.
    destruct (run_activities E (dicts_of (span_activities sp)) s)
      as [o1 s1] eqn:H1.
    simpl in Hrun, Hacts.
    destruct (IH Hrest s1) as (spans' & Hruns & Hflat & Hlens).
    cbv zeta in Hruns, Hflat.
    destruct (run_activities E (dicts_of (flat_map span_activities spans)) s1)
      as [o2 s2] eqn:H2.
    simpl in Hruns, Hflat.
    exists (sp' :: spans'). simpl. unfold bind at 1. rewrite Hrun.
    unfold bind at 1. rewrite Hruns. unfold ret.
    split; [reflexivity|]. split.
    + rewrite dicts_of_app, Hacts, dicts_of_dicts, Hflat. reflexivity.
    + now rewrite Hlen, Hlens.
Qed.

(** The spans that run without raising, then the span that raises. *)
Lemma process_spans_app_raise (a b : list pyval) (sp : pyval) (x : exn) :
  forall s a' s1 s2,
    process_spans E a s = (Ok a', s1) ->
    process_span E sp s1 = (Raise x, s2) ->
    process_spans E (a ++ sp :: b) s = (Raise x, s2).
Proof.
  induction a as [|sp0 a IH]; intros s a' s1 s2; simpl; unfold bind, ret.
  - intros H Hsp. inversion H; subst. now rewrite Hsp.
  - destruct (process_span E sp0 s) as [[sp0'|y] s0]; [|discriminate].
    destruct (process_spans E a s0) as [[rest'|y] s3] eqn:Hrest;
      [|discriminate].
    intros H Hsp. inversion H; subst.
    now rewrite (IH _ _ _ _ Hrest Hsp).
Qed.

Lemma process_activities_app_raise (a b : list pyval) (v : pyval) (x : exn) :
  forall s a' s1 s2,
    process_activities E a s = (Ok a', s1) ->
    process_activity_value E v s1 = (Raise x, s2) ->
    process_activities E (a ++ v :: b) s = (Raise x, s2).
Proof.
  induction a as [|v0 a IH]; intros s a' s1 s2; simpl; unfold bind, ret.
  - intros H Hv. inversion H; subst. now rewrite Hv.
  - destruct (process_activity_value E v0 s) as [[v0'|y] s0]; [|discriminate].
    destruct (process_activities E a s0) as [[rest'|y] s3] eqn:Hrest;
      [|discriminate].
    intros H Hv. inversion H; subst.
    now rewrite (IH _ _ _ _ Hrest Hv).
Qed.

(** An entry of ['activities'] that is no dict ends [process_trip_plan] with
    [TypeError], after the activities before it have been processed. *)
Lemma non_dict_entry_aborts_plan (plan : dict pyval) (s : Service)
    (spans_before spans_after : list pyval) (sd : dict pyval)
    (before : list (dict pyval)) (v : pyval) (after : list pyval) :
  dict_get (u "spans") plan
  = Some (VList (spans_before ++ VDict sd :: spans_after)) ->
  forallb well_formed_span spans_before = true ->
  dict_get (u "activities") sd = Some (VList (map VDict before ++ v :: after)) ->
  is_dict v = false ->
  process_trip_plan E plan s
  = (Raise TypeError,
     next_uuid
       (snd (run_activities E
               (dicts_of (flat_map span_activities spans_before) ++ before)
               s))).
Proof.
  intros Hspans Hwf Hacts Hv.
  destruct (process_spans_run spans_before Hwf s)
    as (spans' & Hrun & _).
  cbv zeta in Hrun.
  assert (Hbefore : forallb is_dict (map VDict before) = true).
  { clear. induction before; simpl; auto. }
  pose proof (process_activities_run (map VDict before) Hbefore
                (snd (run_activities E
                        (dicts_of (flat_map span_activities spans_before)) s)))
    as Hpa.
  rewrite dicts_of_dicts in Hpa.
  rewrite run_activities_app.
  destruct (run_activities E
              (dicts_of (flat_map span_activities spans_before)) s)
    as [o1 s1].
  simpl snd in Hrun, Hpa.
  destruct (run_activities E before s1) as [o2 s2]. simpl snd.
  assert (Hbad : process_activity_value E v s2 = (Raise TypeError, next_uuid s2)).
  { destruct v; try discriminate; reflexivity. }
  assert (Hspan : process_span E (VDict sd) s1 = (Raise TypeError, next_uuid s2)).
  { unfold process_span, get_or. rewrite Hacts. cbn [py_iter].
    unfold lift. unfold bind at 1. unfold bind at 1.
    now rewrite (process_activities_app_raise _ after _ _ Hpa Hbad). }
  unfold process_trip_plan, get_or. cbv zeta. rewrite Hspans.
  cbn [py_iter]. unfold lift. unfold bind at 1. unfold bind at 1.
  now rewrite (process_spans_app_raise _ spans_after _ _ Hrun Hspan).
Qed.

(** The activity at a position of the run: its result is the output at that
    position, and the run up to it ends in the state its call leaves. *)
Lemma run_step_at (pre post : list (dict pyval)) (a : dict pyval)
    (s : Service) :
  exists r,
    fst (process_activity E a (snd (run_activities E pre s))) = Ok r /\
    nth_error (fst (run_activities E (pre ++ a :: post) s)) (length pre)
    = Some r /\
    snd (run_activities E (pre ++ [a]) s)
    = snd (process_activity E a (snd (run_activities E pre s))).
Proof.
  rewrite !run_activities_app.
  destruct (run_activities E pre s) as [o1 s1] eqn:Hpre.
  destruct (run_effect _ _ _ Hpre) as (Hlen1 & _).
  simpl.
  destruct (process_activity_ok E a s1) as (r & s2 & Hr). rewrite Hr.
  destruct (run_activities E post s2) as [o2 s3]. simpl.
  exists r. split; [reflexivity|]. split; [|reflexivity].
  rewrite nth_error_app2 by lia. rewrite Hlen1, Nat.sub_diag. reflexivity.
Qed.

Lemma step_outcome_holds (a : dict pyval) (s1 : Service) :
  exists r,
    fst (process_activity E a s1) = Ok r /\
    step_outcome E a s1 r (snd (process_activity E a s1)).
Proof.
  unfold step_outcome. rewrite process_activity_flat.
  destruct (decide E a s1) as [[n l c e id|n l c e]|x]; cbv zeta.
  - destruct (match_state_fields id (record_of id n l c e) s1)
      as (_ & _ & _ & H4 & _).
    cbv zeta in H4.
    destruct (write_fails E (writes_done s1)); eexists;
      (split; [reflexivity|]);
      cbn [fst snd activities faiss_file records_file index set_faiss_file
           next_write next_uuid];
      rewrite ?H4; repeat split; apply dict_get_set_same.
  - assert (Hrec : dict_get (drawn_id E (uuid_drawn s1))
                     (activities
                        (create_state
                           (record_of (drawn_id E (uuid_drawn s1)) n l c e) s1))
                   = Some (record_of (drawn_id E (uuid_drawn s1)) n l c e)).
    { unfold create_state. simpl. apply dict_get_set_same. }
    assert (Hin : In (drawn_id E (uuid_drawn s1))
                     (index_to_id
                        (create_state
                           (record_of (drawn_id E (uuid_drawn s1)) n l c e)
                           s1))).
    { unfold create_state. simpl. apply in_or_app. right. now left. }
    destruct (write_fails E (writes_done s1));
      [|destruct (write_fails E (S (writes_done s1)))];
      eexists; (split; [reflexivity|]);
      cbn [fst snd orb activities faiss_file records_file index index_to_id
           set_faiss_file set_records_file next_write next_uuid];
      (split; [exact Hrec|]); (split; [exact Hin|]); repeat split.
  - eexists. split; [reflexivity|]. simpl. repeat split.
Qed.

End Plans.

(** An entry of ['activities'] that is no dict ends the whole call: the
    handler of [process_activity] cannot spread it into a dict. *)
Lemma entry_that_is_no_dict_aborts (E : Env) (v : pyval) (rest : list pyval)
    (s : Service) :
  is_dict v = false ->
  process_activities E (v :: rest) s = (Raise TypeError, next_uuid s).
Proof. destruct v; try discriminate; reflexivity. Qed.

(** C6, as stated, fails when the step that fails is a write.  With the
    first write refused, "Tokyo Skytree" comes back with a fallback id, but
    its record has been added to the record store and its embedding to the
    index before the write was tried, and they stay there. *)
Lemma failed_write_leaves_the_record :
  ~ failed_activity_is_left_out (Ex.env Ex.disk_refuses_first) Ex.pair_plan
      Ex.fresh_service.
Proof.
  intro H.
  pose (E := Ex.env Ex.disk_refuses_first).
  pose (sx := snd (process_activity_body E Ex.skytree Ex.fresh_service)).
  destruct (H [] Ex.skytree [Ex.eiffel] RuntimeError sx) as (_ & Hacts & _).
  - reflexivity.
  - vm_compute. reflexivity.
  - vm_compute in Hacts. discriminate.
Qed.

(** C6, amended.  On a plan whose spans and activities are dicts, with UUID
    draws that are new, [process_trip_plan] returns the plan with every
    activity annotated with an id; the activities are resolved one after the
    other by [process_activity], and for each of them [step_outcome] holds:
    an activity whose resolution raises before anything is stored (a field
    that is no string, the embedder, the search) comes back with a fallback
    id and leaves records, index, [index_to_id] and both files as they were;
    an activity whose resolution raises at a write comes back with a fallback
    id too, but its record is in the record store all the same (under the id
    drawn first on the create path, which is also in [index_to_id]; under the
    matched id on the match path); an activity that resolves is persisted:
    after a create both files hold the current index and records, after a
    match the index file holds the current index.  Every fallback id has the
    documented form and is neither a key of the record store nor an entry of
    [index_to_id] when the plan is done.  An entry of ['activities'] that is
    no dict does abort the whole plan, with [TypeError], after the activities
    before it have been processed. *)
Theorem trip_plan_survives_failures (E : Env) (plan : dict pyval)
    (s : Service) :
  (well_formed_plan plan = true ->
   fresh_draws E s (2 * length (plan_activities plan)) = true ->
   exists plan' s',
     process_trip_plan E plan s = (Ok plan', s') /\
     (plan_activities plan', s') = run_activities E (plan_activities plan) s /\
     map (fun sp => length (span_activities sp)) (plan_spans plan')
     = map (fun sp => length (span_activities sp)) (plan_spans plan) /\
     Forall (fun r => exists id, dict_get (u "activityId") r = Some (VStr id))
            (plan_activities plan') /\
     forall pre a post,
       plan_activities plan = pre ++ a :: post ->
       let s1 := snd (run_activities E pre s) in
       let s2 := snd (process_activity E a s1) in
       exists r,
         nth_error (plan_activities plan') (length pre) = Some r /\
         fst (process_activity E a s1) = Ok r /\
         snd (run_activities E (pre ++ [a]) s) = s2 /\
         step_outcome E a s1 r s2 /\
         forall x sx,
           process_activity_body E a s1 = (Raise x, sx) ->
           exists fallback_id,
             r = annotated a fallback_id /\
             well_formed_id fallback_id /\
             ~ stored s' fallback_id) /\
  (forall spans_before sd spans_after before v after,
      dict_get (u "spans") plan
      = Some (VList (spans_before ++ VDict sd :: spans_after)) ->
      forallb well_formed_span spans_before = true ->
      dict_get (u "activities") sd
      = Some (VList (map VDict before ++ v :: after)) ->
      is_dict v = false ->
      process_trip_plan E plan s
      = (Raise TypeError,
         next_uuid
           (snd (run_activities E
                   (dicts_of (flat_map span_activities spans_before) ++ before)
                   s)))).
Proof.
  split; [|intros; eapply non_dict_entry_aborts_plan; eauto].
  intros Hwf Hfresh.
  unfold well_formed_plan in Hwf.
  assert (Hmain : exists plan',
    process_trip_plan E plan s
    = (Ok plan', snd (run_activities E (plan_activities plan) s)) /\
    plan_activities plan' = fst (run_activities E (plan_activities plan) s) /\
    map (fun sp => length (span_activities sp)) (plan_spans plan')
    = map (fun sp => length (span_activities sp)) (plan_spans plan)).
  { unfold process_trip_plan, plan_activities, plan_spans.
    unfold get_or in *.
    destruct (dict_get (u "spans") plan) as [v|] eqn:Hget.
    - destruct v as [| | | |spans|]; try discriminate.
      destruct (process_spans_run E spans Hwf s) as (spans' & Hrun & Hflat & Hl).
      cbv zeta in Hrun, Hflat.
      unfold bind at 1. unfold lift, py_iter. unfold bind at 1.
      rewrite Hrun. unfold ret.
      eexists. split; [reflexivity|].
      rewrite dict_get_set_same. split; assumption.
    - exists plan. unfold bind, lift, py_iter, ret. simpl.
      rewrite Hget. repeat split. }
  destruct Hmain as (plan' & Hrun & Hacts & Hlens).
  destruct (run_activities E (plan_activities plan) s) as [outs s'] eqn:Hr.
  simpl in Hrun, Hacts.
  exists plan', s'. split; [exact Hrun|]. split; [now rewrite Hacts|].
  split; [exact Hlens|].
  destruct (run_effect _ _ _ Hr) as (_ & _ & Hids & _).
  split; [now rewrite Hacts|].
  intros pre a post Hsplit. cbv zeta.
  rewrite Hsplit in Hfresh, Hr.
  destruct (run_step_at E pre post a s) as (r & Hres & Hnth & Hstate).
  rewrite Hr in Hnth. simpl in Hnth.
  exists r. rewrite Hacts.
  split; [exact Hnth|]. split; [exact Hres|]. split; [exact Hstate|].
  split.
  - destruct (step_outcome_holds E a (snd (run_activities E pre s)))
      as (r' & Hr' & Hout).
    rewrite Hres in Hr'. inversion Hr'; subst r'. exact Hout.
  - intros x sx Hraise.
    destruct (@run_failure E pre post a s x sx Hfresh Hraise)
      as (fb & Hn & Hw & Hs).
    rewrite Hr in Hn, Hs. simpl in Hn, Hs.
    exists fb. rewrite Hnth in Hn. inversion Hn. auto.
Qed.

(** "Tokyo Skytree" and "Eiffel Tower" on a fresh service, the first write
    refused: the first activity comes back with the fallback id of the
    second draw while its record is stored under the id of the first.  And
    the plan whose second entry is a string: the call raises. *)
Lemma trip_plan_survives_failures_witness :
  let E := Ex.env Ex.disk_refuses_first in
  well_formed_plan Ex.pair_plan = true /\
  fresh_draws E Ex.fresh_service (2 * length (plan_activities Ex.pair_plan))
  = true /\
  (exists plan' s' r,
      process_trip_plan E Ex.pair_plan Ex.fresh_service = (Ok plan', s') /\
      nth_error (plan_activities plan') 0 = Some r /\
      step_outcome E Ex.skytree Ex.fresh_service r
        (snd (process_activity E Ex.skytree Ex.fresh_service)) /\
      exists fallback_id,
        r = annotated Ex.skytree fallback_id /\
        well_formed_id fallback_id /\
        ~ stored s' fallback_id) /\
  fst (process_trip_plan E Ex2.broken_plan Ex.fresh_service) = Raise TypeError.
Proof.
  intro E.
  assert (H1 : well_formed_plan Ex.pair_plan = true) by reflexivity.
  assert (H2 : fresh_draws E Ex.fresh_service
                 (2 * length (plan_activities Ex.pair_plan)) = true)
    by (vm_compute; reflexivity).
  split; [exact H1|]. split; [exact H2|]. split.
  - destruct (trip_plan_survives_failures E Ex.pair_plan Ex.fresh_service)
      as [Hplan _].
    destruct (Hplan H1 H2) as (plan' & s' & Hrun & _ & _ & _ & Hstep).
    destruct (Hstep [] Ex.skytree [Ex.eiffel] eq_refl)
      as (r & Hnth & _ & _ & Hout & Hfail).
    destruct (Hfail RuntimeError
                (snd (process_activity_body E Ex.skytree Ex.fresh_service)))
      as (fb & Hfb).
    { vm_compute. reflexivity. }
    exists plan', s', r.
    split; [exact Hrun|]. split; [exact Hnth|]. split; [exact Hout|].
    exists fb. exact Hfb.
  - destruct (trip_plan_survives_failures E Ex2.broken_plan Ex.fresh_service)
      as [_ Habort].
    rewrite (Habort [] [ (u "spanId", VStr (u "span_1"));
                         (u "activities",
                          VList [VDict Ex.skytree; VStr (u "Ueno Park")]) ]
               [] [Ex.skytree] (VStr (u "Ueno Park")) []
               eq_refl eq_refl eq_refl eq_refl).
    reflexivity.
Defined.

(* ================================================================= *)
(** * More on the normalizer *)

(** X1: a normalized text is in canonical form: it has no white space at its
    ends, its words are separated by exactly one space (splitting and joining
    it again changes nothing), and every character is one the regular
    expression keeps. *)
Theorem normalized_text_is_canonical (U : Unicode) (t : str) :
  isspace U 32 = true ->
  strip U (_normalize_text U t) = _normalize_text U t /\
  join (u " ") (split U (_normalize_text U t)) = _normalize_text U t /\
  Forall (fun c => kept_char U c = true) (_normalize_text U t).
Proof.
  intro Hsp.
  destruct (normalize_shape U t) as (ws & Hws & Hkept & Heq).
  rewrite Heq. split; [apply strip_join; assumption|].
  split; [rewrite split_join by assumption; reflexivity|].
  apply join_chars; [|assumption].
  unfold kept_char. rewrite Hsp. now rewrite orb_true_r.
Qed.

Lemma normalized_text_is_canonical_witness :
  let t := u "  Tokyo   Skytree! " in
  isspace Ucd.table 32 = true /\
  _normalize_text Ucd.table t = u "tokyo skytree" /\
  strip Ucd.table (_normalize_text Ucd.table t) = _normalize_text Ucd.table t /\
  join (u " ") (split Ucd.table (_normalize_text Ucd.table t))
  = _normalize_text Ucd.table t.
Proof.
  intro t.
  assert (H : isspace Ucd.table 32 = true) by reflexivity.
  destruct (normalized_text_is_canonical Ucd.table t H) as (H1 & H2 & _).
  split; [exact H|]. split; [reflexivity|]. split; assumption.
Defined.

Lemma filtered_words_cons (p : N -> bool) (w : str) (ws : list str) :
  filtered_words p (w :: ws)
  = match filter p w with
    | [] => filtered_words p ws
    | _ => filter p w :: filtered_words p ws
    end.
Proof.
  unfold filtered_words. cbn [map filter].
  destruct (filter p w); reflexivity.
Qed.

Section WordsOfAText.
Variable U : Unicode.
Variable p : N -> bool.
Hypothesis keeps_spaces : forall c, isspace U c = true -> p c = true.

Lemma split_from_space (c : N) (cur s : str) :
  isspace U c = true ->
  split_from U cur (c :: s)
  = match cur with
    | [] => split_from U [] s
    | _ => cur :: split_from U [] s
    end.
Proof. intro H. simpl. now rewrite H. Qed.

Lemma split_from_letter (c : N) (cur s : str) :
  isspace U c = false ->
  split_from U cur (c :: s) = split_from U (cur ++ [c]) s.
Proof. intro H. simpl. now rewrite H. Qed.

(** Removing rejected characters and splitting is splitting and then
    filtering the words. *)
Lemma split_from_filter (s : str) :
  forall cur,
    split_from U (filter p cur) (filter p s)
    = filtered_words p (split_from U cur s).
Proof.
  induction s as [|c s IH]; intro cur.
  - cbn [filter split_from].
    destruct cur as [|x cur]; [reflexivity|].
    rewrite filtered_words_cons.
    destruct (filter p (x :: cur)); reflexivity.
  - destruct (isspace U c) eqn:Hc.
    + cbn [filter]. rewrite (keeps_spaces c Hc).
      rewrite !split_from_space by assumption.
      specialize (IH []). cbn [filter] in IH.
      destruct cur as [|x cur]; [exact IH|].
      rewrite filtered_words_cons.
      destruct (filter p (x :: cur)); [exact IH|].
      now rewrite IH.
    + rewrite (split_from_letter c cur s Hc). rewrite <- IH.
      rewrite filter_app. cbn [filter].
      destruct (p c).
      * now rewrite split_from_letter.
      * now rewrite app_nil_r.
Qed.

End WordsOfAText.

(** On an ASCII text the normalizer lower-cases, splits into words, removes
    the rejected characters from each word and joins what is left. *)
Lemma normalize_ascii_by_words (t : str) :
  Forall (fun c => (c < 128)%N) t ->
  _normalize_text Ucd.table t
  = join (u " ")
      (filtered_words (kept_char Ucd.table) (split Ucd.table (Ucd.lower t))).
Proof.
  intro Hascii.
  destruct t as [|c t]; [reflexivity|].
  assert (Hl : Forall plain (Ucd.lower (c :: t))).
  { unfold Ucd.lower. apply Forall_map.
    eapply Forall_impl; [|exact Hascii]. apply plain_lower. }
  destruct (plain_text_fixed Hl) as (_ & H2 & H3).
  unfold _normalize_text.
  change (str_lower Ucd.table (c :: t)) with (Ucd.lower (c :: t)).
  change (nfkd Ucd.table (Ucd.lower (c :: t)))
    with (Ucd.to_nfkd (Ucd.lower (c :: t))).
  rewrite H2.
  change (combining Ucd.table) with Ucd.is_combining.
  rewrite (filter_all _ _ H3).
  rewrite strip_join by (apply split_from_words; constructor).
  unfold split.
  rewrite <- (split_from_filter Ucd.table (kept_char Ucd.table)) with (cur := []).
  - reflexivity.
  - intros x Hx. unfold kept_char.
    change (isspace Ucd.table x) with (Ucd.is_space x) in *.
    simpl. rewrite Hx. now rewrite orb_true_r.
Qed.

(** X2: case and spacing do not matter to [_create_activity_signature] on
    ASCII fields: two triples whose names, locations and categories consist of
    the same words up to letter case, however the words are spaced, have the
    same signature. *)
Theorem signature_ignores_case_and_spacing
    (name1 location1 category1 name2 location2 category2 : str) :
  Forall (fun c => (c < 128)%N)
         (name1 ++ location1 ++ category1 ++ name2 ++ location2 ++ category2) ->
  split Ucd.table (Ucd.lower name1) = split Ucd.table (Ucd.lower name2) ->
  split Ucd.table (Ucd.lower location1)
  = split Ucd.table (Ucd.lower location2) ->
  split Ucd.table (Ucd.lower category1)
  = split Ucd.table (Ucd.lower category2) ->
  _create_activity_signature Ucd.table name1 location1 category1
  = _create_activity_signature Ucd.table name2 location2 category2.
Proof.
  intros Hascii Hn Hl Hc.
  repeat (apply Forall_app in Hascii; destruct Hascii as [? Hascii]).
  unfold _create_activity_signature.
  rewrite !normalize_ascii_by_words by assumption.
  rewrite Hn, Hl, Hc. reflexivity.
Qed.

Lemma signature_ignores_case_and_spacing_witness :
  _create_activity_signature Ucd.table
    (u "Tokyo Skytree") (u "TYO") (u "tour")
  = _create_activity_signature Ucd.table
      (u " tokyo   skytree") (u "tyo") (u "Tour").
Proof.
  apply signature_ignores_case_and_spacing; [|reflexivity..].
  cbv [u app map String.list_ascii_of_string].
  repeat (constructor; [reflexivity|]). constructor.
Defined.

(* ================================================================= *)
(** * More on the identifiers *)

Lemma hex_digit_injective (a b : N) :
  (a < 16)%N -> (b < 16)%N -> hex_digit a = hex_digit b -> a = b.
Proof.
  unfold hex_digit. intros Ha Hb.
  destruct (N.ltb_spec a 10), (N.ltb_spec b 10); lia.
Qed.

(** The [w] digits written are those of [n mod 16^w]. *)
Lemma hex_digits_same (w : nat) :
  forall n m,
    hex_digits w n = hex_digits w m <->
    (n mod 16 ^ N.of_nat w = m mod 16 ^ N.of_nat w)%N.
Proof.
  induction w as [|w IH]; intros n m.
  - simpl. rewrite !N.mod_1_r. tauto.
  - cbn [hex_digits].
    replace (16 ^ N.of_nat (S w))%N with (16 * 16 ^ N.of_nat w)%N
      by (rewrite Nat2N.inj_succ, N.pow_succ_r'; reflexivity).
    rewrite !N.Div0.mod_mul_r.
    split.
    + intro H. apply app_inj_tail in H as [H1 H2].
      apply IH in H1.
      apply hex_digit_injective in H2;
        [|apply N.mod_lt; discriminate|apply N.mod_lt; discriminate].
      now rewrite H1, H2.
    + intro H.
      assert (Hn : (n mod 16 < 16)%N) by (apply N.mod_lt; discriminate).
      assert (Hm : (m mod 16 < 16)%N) by (apply N.mod_lt; discriminate).
      assert (H12 : (n mod 16 = m mod 16 /\
                     (n / 16) mod 16 ^ N.of_nat w
                     = (m / 16) mod 16 ^ N.of_nat w)%N).
      { revert H Hn Hm.
        generalize (n mod 16)%N, (m mod 16)%N,
          ((n / 16) mod 16 ^ N.of_nat w)%N, ((m / 16) mod 16 ^ N.of_nat w)%N.
        intros a c b d H Ha Hc. lia. }
      destruct H12 as [H2 H1].
      apply IH in H1. now rewrite H1, H2.
Qed.

(** The first [w] of [w + k] digits are the digits of [n / 16^k]. *)
Lemma firstn_hex_digits (w k : nat) :
  forall n,
    firstn w (hex_digits (k + w) n) = hex_digits w (n / 16 ^ N.of_nat k)%N.
Proof.
  induction k as [|k IH]; intro n.
  - simpl. rewrite N.div_1_r.
    rewrite <- (hex_digits_length w n) at 1. apply firstn_all.
  - cbn [Nat.add hex_digits].
    rewrite firstn_app, hex_digits_length.
    replace (w - (k + w))%nat with 0%nat by lia.
    rewrite firstn_O, app_nil_r, IH.
    rewrite N.Div0.div_div.
    rewrite Nat2N.inj_succ, N.pow_succ_r'. reflexivity.
Qed.

(** X3: the id keeps the upper half of the UUID and nothing else: two UUIDs
    give the same activity id exactly when bits 64 to 127 of their integers
    agree. *)
Theorem activity_id_keeps_upper_64_bits (n m : N) :
  activity_id_of_uuid n = activity_id_of_uuid m <->
  ((n / 2 ^ 64) mod 2 ^ 64 = (m / 2 ^ 64) mod 2 ^ 64)%N.
Proof.
  unfold activity_id_of_uuid, uuid_hex.
  change 32%nat with (16 + 16)%nat.
  rewrite !firstn_hex_digits.
  change (16 ^ N.of_nat 16)%N with (2 ^ 64)%N.
  split.
  - intro H. apply app_inv_head in H.
    apply hex_digits_same in H. exact H.
  - intro H. f_equal. apply hex_digits_same. exact H.
Qed.

(* ================================================================= *)
(** * More on [process_activity] *)

Section Resolution.
Variable E : Env.
Local Open Scope nat_scope.


Lemma decide_reads_three_fields (d1 d2 : dict pyval) (s : Service) :
  dict_get (u "name") d1 = dict_get (u "name") d2 ->
  dict_get (u "location") d1 = dict_get (u "location") d2 ->
  dict_get (u "category") d1 = dict_get (u "category") d2 ->
  decide E d1 s = decide E d2 s.
Proof.
  intros Hn Hl Hc. unfold decide, get_lower. now rewrite Hn, Hl, Hc.
Qed.

End Resolution.

(** X4: the resolution reads the name, the location and the category and
    nothing else: two activities that agree on these three keys leave the
    service in the same state and come back with the same [activityId],
    whatever their other fields are. *)
Theorem resolution_reads_three_fields (E : Env) (d1 d2 : dict pyval)
    (s : Service) :
  dict_get (u "name") d1 = dict_get (u "name") d2 ->
  dict_get (u "location") d1 = dict_get (u "location") d2 ->
  dict_get (u "category") d1 = dict_get (u "category") d2 ->
  snd (process_activity E d1 s) = snd (process_activity E d2 s) /\
  exists r1 r2 id,
    fst (process_activity E d1 s) = Ok r1 /\
    fst (process_activity E d2 s) = Ok r2 /\
    dict_get (u "activityId") r1 = Some (VStr id) /\
    dict_get (u "activityId") r2 = Some (VStr id).
Proof.
  intros Hn Hl Hc.
  rewrite !process_activity_flat.
  rewrite (decide_reads_three_fields E d1 d2 s Hn Hl Hc).
  destruct (decide E d2 s) as [[n l c e id|n l c e]|x]; cbv zeta.
  - destruct (write_fails E (writes_done s)); (split; [reflexivity|]);
      do 3 eexists; simpl fst;
      (split; [reflexivity|]); (split; [reflexivity|]);
      first [split; apply activityId_of_annotated
            |split; apply activityId_of_matched_result].
  - destruct (write_fails E (writes_done s));
      [|destruct (write_fails E (S (writes_done s)))];
      (split; [reflexivity|]);
      do 3 eexists; simpl fst;
      (split; [reflexivity|]); (split; [reflexivity|]);
      split; apply activityId_of_annotated.
  - split; [reflexivity|]. do 3 eexists. simpl fst.
    split; [reflexivity|]. split; [reflexivity|].
    split; apply activityId_of_annotated.
Qed.

(** "Tokyo Skytree" twice, with different descriptions and times. *)
Lemma resolution_reads_three_fields_witness :
  let E := Ex.env Ex.disk_ok in
  snd (process_activity E Ex.skytree Ex.two_service)
  = snd (process_activity E Ex2.skytree_later Ex.two_service) /\
  exists r1 r2 id,
    fst (process_activity E Ex.skytree Ex.two_service) = Ok r1 /\
    fst (process_activity E Ex2.skytree_later Ex.two_service) = Ok r2 /\
    dict_get (u "activityId") r1 = Some (VStr id) /\
    dict_get (u "activityId") r2 = Some (VStr id).
Proof.
  intro E.
  apply (resolution_reads_three_fields E Ex.skytree Ex2.skytree_later
           Ex.two_service); reflexivity.
Defined.

(** X5: a field that is present but is no string, or an embedder that raises,
    costs a UUID and nothing else: the activity comes back with a fallback id
    and index, [index_to_id], records and both files are as before. *)
Theorem early_failure_changes_nothing (E : Env) (d : dict pyval) (s : Service) :
  (exists key v,
      In key [u "name"; u "location"; u "category"] /\
      dict_get key d = Some v /\ (forall t, v <> VStr t)) \/
  (exists name location category,
      get_lower E d (u "name") = Ok name /\
      get_lower E d (u "location") = Ok location /\
      get_lower E d (u "category") = Ok category /\
      encode E (name ++ u " | " ++ location ++ u " | " ++ category) = None) ->
  process_activity E d s
  = (Ok (annotated d (drawn_id E (uuid_drawn s))), next_uuid s).
Proof.
  intro H.
  assert (Hd : exists x, decide E d s = Raise x).
  { destruct H as [(key & v & Hkey & Hget & Hv)|(n & l & c & Hn & Hl & Hc & He)].
    - assert (Hraise : get_lower E d key = Raise AttributeError).
      { unfold get_lower. rewrite Hget.
        destruct v; try reflexivity. exfalso. eapply Hv. reflexivity. }
      unfold decide.
      destruct Hkey as [<-|[<-|[<-|[]]]].
      + rewrite Hraise. eauto.
      + destruct (get_lower E d (u "name")); [|eauto].
        rewrite Hraise. eauto.
      + destruct (get_lower E d (u "name")); [|eauto].
        destruct (get_lower E d (u "location")); [|eauto].
        rewrite Hraise. eauto.
    - unfold decide. rewrite Hn, Hl, Hc.
      unfold embedded_signature. rewrite He. eauto. }
  destruct Hd as [x Hd]. rewrite process_activity_flat, Hd. reflexivity.
Qed.

(** An activity whose name is [None]. *)
Lemma early_failure_changes_nothing_witness :
  let E := Ex.env Ex.disk_ok in
  dict_get (u "name") Ex2.nameless = Some VNone /\
  process_activity E Ex2.nameless Ex.two_service
  = (Ok (annotated Ex2.nameless (drawn_id E 2)), next_uuid Ex.two_service).
Proof.
  intro E. split; [reflexivity|].
  apply (early_failure_changes_nothing E Ex2.nameless Ex.two_service).
  left. exists (u "name"), VNone.
  split; [now left|]. split; [reflexivity|]. discriminate.
Defined.

(** X6: the create path adds one record and touches no other: the new record
    goes to the end of the record map under the id drawn, its embedding to
    the end of the index and its id to the end of [index_to_id], whether or
    not the writes that follow succeed. *)
Theorem create_path_appends_one_record (E : Env) (d : dict pyval)
    (s : Service) (name location category : str) (e : vec) :
  decide E d s = Ok (Fresh name location category e) ->
  dict_get (drawn_id E (uuid_drawn s)) (activities s) = None ->
  let id := drawn_id E (uuid_drawn s) in
  let s' := snd (process_activity E d s) in
  activities s'
  = activities s ++ [(id, record_of id name location category e)] /\
  index_to_id s' = index_to_id s ++ [id] /\
  vectors (index s') = vectors (index s) ++ [e] /\
  metric (index s') = metric (index s).
Proof.
  intros Hd Hfresh. cbv zeta.
  rewrite process_activity_flat, Hd. cbv zeta.
  assert (Hc : forall s1,
    activities s1
    = activities (create_state
                    (record_of (drawn_id E (uuid_drawn s)) name location
                       category e) s) ->
    index_to_id s1
    = index_to_id (create_state
                    (record_of (drawn_id E (uuid_drawn s)) name location
                       category e) s) ->
    index s1
    = index (create_state
               (record_of (drawn_id E (uuid_drawn s)) name location
                  category e) s) ->
    activities s1
    = activities s ++ [(drawn_id E (uuid_drawn s),
                        record_of (drawn_id E (uuid_drawn s)) name location
                          category e)] /\
    index_to_id s1 = index_to_id s ++ [drawn_id E (uuid_drawn s)] /\
    vectors (index s1) = vectors (index s) ++ [e] /\
    metric (index s1) = metric (index s)).
  { intros s1 -> -> ->. unfold create_state. simpl.
    rewrite dict_set_absent by exact Hfresh. repeat split. }
  destruct (write_fails E (writes_done s));
    [|destruct (write_fails E (S (writes_done s)))];
    apply Hc; reflexivity.
Qed.

(** "Tokyo Skytree" on a fresh service. *)
Lemma create_path_appends_one_record_witness :
  let E := Ex.env Ex.disk_ok in
  let s' := snd (process_activity E Ex.skytree Ex.fresh_service) in
  decide E Ex.skytree Ex.fresh_service
  = Ok (Fresh (u "tokyo skytree") (u "tyo") (u "tour") [0]) /\
  activities s'
  = [(drawn_id E 0,
      record_of (drawn_id E 0) (u "tokyo skytree") (u "tyo") (u "tour") [0])] /\
  index_to_id s' = [drawn_id E 0].
Proof.
  intros E s'.
  assert (H1 : decide E Ex.skytree Ex.fresh_service
               = Ok (Fresh (u "tokyo skytree") (u "tyo") (u "tour") [0]))
    by (vm_compute; reflexivity).
  assert (H2 : dict_get (drawn_id E (uuid_drawn Ex.fresh_service))
                 (activities Ex.fresh_service) = None) by reflexivity.
  destruct (create_path_appends_one_record E Ex.skytree Ex.fresh_service H1 H2)
    as (Ha & Hi & _).
  split; [exact H1|]. split; [exact Ha|exact Hi].
Defined.

(** X7: the match path replaces one record and touches no other: the record
    map keeps its keys and their order, every other record is the one it was,
    and the rebuilt index is aligned with the record map whatever state the
    index was in before. *)
Theorem match_path_replaces_one_record (E : Env) (d : dict pyval)
    (s : Service) (name location category : str) (e : vec) (id : str) :
  decide E d s = Ok (Matched name location category e id) ->
  let s' := snd (process_activity E d s) in
  activities s'
  = dict_set id (record_of id name location category e) (activities s) /\
  keys (activities s') = keys (activities s) /\
  (forall k, k <> id ->
             dict_get k (activities s') = dict_get k (activities s)) /\
  aligned s' /\
  metric (index s') = L2.
Proof.
  intros Hd. cbv zeta.
  destruct (decide_matched E d s Hd) as (_ & _ & _ & _ & _ & (old & Hold) & _).
  rewrite process_activity_flat, Hd. cbv zeta.
  destruct (match_state_fields id (record_of id name location category e) s)
    as (H1 & H2 & H3 & H4 & _).
  cbv zeta in H1, H2, H3, H4.
  assert (Hm : forall s1,
    activities s1
    = activities (match_state id (record_of id name location category e) s) ->
    index_to_id s1
    = index_to_id (match_state id (record_of id name location category e) s) ->
    index s1
    = index (match_state id (record_of id name location category e) s) ->
    activities s1
    = dict_set id (record_of id name location category e) (activities s) /\
    keys (activities s1) = keys (activities s) /\
    (forall k, k <> id ->
               dict_get k (activities s1) = dict_get k (activities s)) /\
    aligned s1 /\ metric (index s1) = L2).
  { intros s1 Ha Hi Hx. unfold aligned. rewrite Ha, Hi, Hx, H1, H2, H3, H4.
    split; [reflexivity|].
    split; [eapply keys_dict_set_present; exact Hold|].
    split; [intros k Hk; now apply dict_get_set_other|].
    repeat split. }
  destruct (write_fails E (writes_done s)); apply Hm; reflexivity.
Qed.

(** "Tokyo Tower" against the two stored records. *)
Lemma match_path_replaces_one_record_witness :
  let E := Ex.env Ex.disk_ok in
  let s' := snd (process_activity E Ex.tower Ex.two_service) in
  decide E Ex.tower Ex.two_service
  = Ok (Matched (u "tokyo tower") (u "tyo") (u "tour") [1 # 2] Ex.id_bb) /\
  keys (activities s') = [Ex.id_bb; Ex.id_aa] /\
  dict_get Ex.id_aa (activities s') = dict_get Ex.id_aa Ex.two_records /\
  aligned s'.
Proof.
  intros E s'.
  assert (H1 : decide E Ex.tower Ex.two_service
               = Ok (Matched (u "tokyo tower") (u "tyo") (u "tour") [1 # 2]
                       Ex.id_bb)) by (vm_compute; reflexivity).
  destruct (match_path_replaces_one_record E Ex.tower Ex.two_service H1)
    as (_ & Hk & Hother & Hal & _).
  split; [exact H1|]. split; [exact Hk|].
  split; [apply Hother; vm_compute; discriminate|exact Hal].
Defined.

(** X8: alignment is an invariant of [process_activity]: if every slot of the
    index holds the embedding of the record that [index_to_id] names, it
    still does after the call, on every path, provided the id drawn for a new
    record is not in use. *)
Theorem process_activity_keeps_alignment (E : Env) (d : dict pyval)
    (s : Service) :
  aligned s ->
  dict_get (drawn_id E (uuid_drawn s)) (activities s) = None ->
  aligned (snd (process_activity E d s)).
Proof.
  intros [Hal1 Hal2] Hfresh.
  rewrite process_activity_flat.
  destruct (decide E d s) as [[n l c e id|n l c e]|x] eqn:Hd.
  - cbv zeta.
    destruct (match_state_fields id (record_of id n l c e) s)
      as (H1 & H2 & _ & H4 & _).
    cbv zeta in H1, H2, H4.
    assert (Hm : aligned (match_state id (record_of id n l c e) s)).
    { unfold aligned. rewrite H1, H2, H4. split; reflexivity. }
    destruct (write_fails E (writes_done s)); exact Hm.
  - cbv zeta.
    assert (Hc : aligned
                   (create_state
                      (record_of (drawn_id E (uuid_drawn s)) n l c e) s)).
    { unfold aligned, create_state. simpl.
      rewrite dict_set_absent by exact Hfresh.
      unfold keys, values. rewrite !map_app. simpl.
      unfold keys in Hal1. unfold values in Hal2.
      rewrite Hal1, Hal2. split; reflexivity. }
    destruct (write_fails E (writes_done s)); [exact Hc|].
    destruct (write_fails E (S (writes_done s))); exact Hc.
  - split; assumption.
Qed.

Lemma process_activity_keeps_alignment_witness :
  let E := Ex.env Ex.disk_ok in
  aligned Ex.two_service /\
  aligned (snd (process_activity E Ex.messy Ex.two_service)).
Proof.
  intro E.
  assert (H1 : aligned Ex.two_service) by (split; reflexivity).
  split; [exact H1|].
  apply (@process_activity_keeps_alignment E Ex.messy Ex.two_service H1).
  reflexivity.
Defined.

Lemma process_activity_keeps_sizes_witness :
  let E := Ex.env Ex.disk_full in
  sizes_agree Ex.two_service /\
  sizes_agree (snd (process_activity E Ex.messy Ex.two_service)).
Proof.
  intro E.
  assert (H1 : sizes_agree Ex.two_service) by (split; reflexivity).
  split; [exact H1|].
  apply (@process_activity_keeps_sizes E Ex.messy Ex.two_service H1). reflexivity.
Defined.

Lemma process_activity_keeps_ids_well_formed_witness :
  let E := Ex.env Ex.disk_ok in
  let s' := snd (process_activity E Ex.messy Ex.two_service) in
  Forall well_formed_id (keys (activities s') ++ index_to_id s').
Proof.
  intros E s'. apply Forall_forall. intros k Hk.
  apply (@process_activity_keeps_ids_well_formed E Ex.messy Ex.two_service).
  - destruct example_ids_well_formed as (Ha & Hb & _).
    intros k0 [Hk0|Hk0]; simpl in Hk0;
      destruct Hk0 as [<-|[<-|[]]]; assumption.
  - apply in_app_or in Hk. exact Hk.
Defined.

(* ================================================================= *)
(** * Submitting a new activity twice *)




Section Hits.
Variables (ids : list str) (thr : Q).




End Hits.




(* ================================================================= *)
(** * Starting the service: [__init__], [_init_index], [_rebuild_index] *)

Section Load.
Variable E : Env.

Lemma sorted_items_length (V : Type) (l : list (str * V)) :
  length (sorted_items l) = length l.
Proof. apply Permutation_length. apply sorted_items_perm. Qed.

(** [__init__] when both files exist. *)
Lemma init_flat (threshold : Q) (ix : Faiss) (records : dict ActivityRecord) :
  init_service E threshold (Some ix) (Some records) =
  let s := read_state threshold ix records in
  if Nat.eqb (ntotal ix) (length records) then s
  else match _rebuild_index E s with
       | (Ok _, s') => s'
       | (Raise _, s') => emptied s'
       end.
Proof.
  unfold init_service, _init_index, _load_activities, try_except.
  unfold bind, modify, get, ret.
  cbn [faiss_file records_file set_index_to_id set_activities set_index
       index index_to_id activities similarity_threshold uuid_drawn
       writes_done].
  rewrite length_map, sorted_items_length. cbv zeta.
  destruct (Nat.eqb (ntotal ix) (length records)); cbn [negb].
  - reflexivity.
  - match goal with
    | |- context [_rebuild_index E ?s0] =>
        change s0 with (read_state threshold ix records)
    end.
    destruct (_rebuild_index E (read_state threshold ix records)) as [[[]|x] s'];
      reflexivity.
Qed.

Lemma sorted_items_fixed (V : Type) (l : list (str * V)) :
  Sorted str_le (map fst l) -> sorted_items l = l.
Proof.
  induction l as [|x l IH]; simpl; intro Hs; [reflexivity|].
  inversion Hs as [|? ? Hs' Hhd]; subst. rewrite (IH Hs').
  destruct l as [|y l]; simpl; [reflexivity|].
  inversion Hhd as [|? ? Hxy]; subst. unfold str_le in Hxy.
  now rewrite Hxy.
Qed.

Lemma sorted_items_dict (records : dict ActivityRecord) :
  NoDup (keys records) ->
  dict_of_items (sorted_items records) = sorted_items records.
Proof.
  intro Hnd. apply dict_of_items_nodup.
  eapply Permutation_NoDup; [|exact Hnd].
  symmetry. apply Permutation_map. apply sorted_items_perm.
Qed.

End Load.

(** X10: when the index file holds as many vectors as the records file holds
    records, [__init__] takes the index as it is, writes nothing, and names
    its slots by the record ids in ascending order: slot [i] goes to the
    [i]-th smallest id, whatever record its vector was stored for. *)
Theorem load_trusts_index_file (E : Env) (threshold : Q) (ix : Faiss)
    (records : dict ActivityRecord) :
  NoDup (keys records) ->
  ntotal ix = length records ->
  let s := init_service E threshold (Some ix) (Some records) in
  index s = ix /\
  index_to_id s = keys (sorted_items records) /\
  Sorted str_le (index_to_id s) /\
  Permutation (index_to_id s) (keys records) /\
  activities s = sorted_items records /\
  writes_done s = 0%nat /\ faiss_file s = Some ix.
Proof.
  intros Hnd Hlen s. unfold s. rewrite init_flat. cbv zeta.
  rewrite Hlen, Nat.eqb_refl. unfold read_state. simpl.
  rewrite (sorted_items_dict _ Hnd).
  repeat split.
  - apply sorted_items_sorted.
  - apply Permutation_map. apply sorted_items_perm.
Qed.

(** The index of two vectors and the two records of [Ex.two_service]:
    the vector stored for [activity_..bb] is named [activity_..aa]. *)
Lemma load_trusts_index_file_witness :
  let s := init_service (Ex.env Ex.disk_ok) default_similarity_threshold
             (Some Ex.two_index) (Some Ex.two_records) in
  keys Ex.two_records = [Ex.id_bb; Ex.id_aa] /\
  index s = Ex.two_index /\
  index_to_id s = [Ex.id_aa; Ex.id_bb].
Proof.
  intro s.
  assert (Hnd : NoDup (keys Ex.two_records)).
  { apply distinct_NoDup. reflexivity. }
  assert (Hlen : ntotal Ex.two_index = length Ex.two_records) by reflexivity.
  destruct (@load_trusts_index_file (Ex.env Ex.disk_ok)
              default_similarity_threshold Ex.two_index Ex.two_records
              Hnd Hlen)
    as (H1 & H2 & _).
  split; [reflexivity|]. split; [exact H1|exact H2].
Defined.

(** X11: a store whose two files were written, whose slots follow its
    records and whose records are in ascending order of id comes back from a
    restart as it was: index, [index_to_id] and records are the same. *)
Theorem restart_keeps_sorted_store (E : Env) (s0 : Service) :
  aligned s0 ->
  NoDup (keys (activities s0)) ->
  Sorted str_le (keys (activities s0)) ->
  faiss_file s0 = Some (index s0) ->
  records_file s0 = Some (activities s0) ->
  let s := init_service E (similarity_threshold s0)
             (faiss_file s0) (records_file s0) in
  index s = index s0 /\ index_to_id s = index_to_id s0 /\
  activities s = activities s0 /\ aligned s.
Proof.
  intros [Hids Hvec] Hnd Hsorted Hf Hr s. unfold s.
  rewrite Hf, Hr, init_flat. cbv zeta.
  assert (Hlen : ntotal (index s0) = length (activities s0)).
  { unfold ntotal. rewrite Hvec. unfold values. now rewrite !length_map. }
  rewrite Hlen, Nat.eqb_refl. unfold read_state, aligned. simpl.
  rewrite (sorted_items_dict _ Hnd), (sorted_items_fixed _ Hsorted).
  rewrite Hids. repeat split. exact Hvec.
Qed.

Lemma restart_keeps_sorted_store_witness :
  let s := init_service (Ex.env Ex.disk_ok) default_similarity_threshold
             (Some Ex2.sorted_index) (Some Ex2.sorted_records) in
  index s = Ex2.sorted_index /\ index_to_id s = [Ex.id_aa; Ex.id_bb] /\
  activities s = Ex2.sorted_records /\ aligned s.
Proof.
  intro s.
  assert (Ha : aligned Ex2.sorted_service) by (split; reflexivity).
  assert (Hnd : NoDup (keys (activities Ex2.sorted_service))).
  { apply distinct_NoDup. reflexivity. }
  assert (Hs : Sorted str_le (keys (activities Ex2.sorted_service))).
  { repeat constructor. }
  apply (@restart_keeps_sorted_store (Ex.env Ex.disk_ok) Ex2.sorted_service
           Ha Hnd Hs eq_refl eq_refl).
Defined.

(** An empty index file beside the two records of [Ex.two_service]. *)
Lemma load_orders_by_id_witness :
  let s := init_service (Ex.env Ex.disk_ok) default_similarity_threshold
             (Some IndexFlatL2) (Some Ex.two_records) in
  index_to_id s = [Ex.id_aa; Ex.id_bb] /\
  vectors (index s) = [[1]; [0]].
Proof.
  intro s.
  assert (Hnd : NoDup (keys Ex.two_records)).
  { apply distinct_NoDup. reflexivity. }
  assert (Hne : ntotal IndexFlatL2 <> length Ex.two_records)
    by (vm_compute; discriminate).
  destruct (@load_orders_by_id (Ex.env Ex.disk_ok)
              default_similarity_threshold IndexFlatL2 Ex.two_records
              Hnd Hne eq_refl)
    as (H1 & _ & _ & H4 & _).
  split; [exact H1|exact H4].
Defined.

(** X13: when the counts differ and the write of the rebuilt index fails,
    [_init_index] falls back to an empty store: no record is in memory
    although the records file was read, and both files stay as they were. *)
Theorem failed_rebuild_starts_empty (E : Env) (threshold : Q) (ix : Faiss)
    (records : dict ActivityRecord) :
  ntotal ix <> length records ->
  write_fails E 0 = true ->
  let s := init_service E threshold (Some ix) (Some records) in
  index s = IndexFlatL2 /\ index_to_id s = [] /\ activities s = [] /\
  faiss_file s = Some ix /\ records_file s = Some records.
Proof.
  intros Hne Hw s. unfold s. rewrite init_flat. cbv zeta.
  destruct (Nat.eqb_spec (ntotal ix) (length records)) as [Heq|_];
    [contradiction|].
  rewrite rebuild_flat. cbv zeta.
  change (writes_done (read_state threshold ix records)) with 0%nat.
  rewrite Hw. unfold emptied.
  match goal with
  | |- context [fold_left rebuild_step ?l ?b] =>
      destruct (fold_rebuild_step l b) as (_ & _ & _ & _ & H5 & H6 & _)
  end.
  cbv zeta in H5, H6.
  cbn [snd index index_to_id activities faiss_file records_file
       set_index_to_id set_activities set_index next_write].
  rewrite H5, H6. repeat split.
Qed.

Lemma failed_rebuild_starts_empty_witness :
  let s := init_service (Ex.env Ex.disk_full) default_similarity_threshold
             (Some IndexFlatL2) (Some Ex.two_records) in
  index s = IndexFlatL2 /\ index_to_id s = [] /\ activities s = [] /\
  faiss_file s = Some IndexFlatL2 /\ records_file s = Some Ex.two_records.
Proof.
  intro s.
  apply (@failed_rebuild_starts_empty (Ex.env Ex.disk_full)
           default_similarity_threshold IndexFlatL2 Ex.two_records).
  - vm_compute. discriminate.
  - reflexivity.
Defined.


(** X14: a records file without an index file is not used: the service
    starts empty, and the first activity it creates replaces the content of
    the records file, so the records that were on disk are lost. *)
Theorem records_without_index_are_overwritten (E : Env) (threshold : Q)
    (records : dict ActivityRecord) (d : dict pyval)
    (name location category : str) (e : vec) :
  let s := init_service E threshold None (Some records) in
  decide E d s = Ok (Fresh name location category e) ->
  write_fails E 0 = false ->
  write_fails E 1 = false ->
  activities s = [] /\
  records_file s = Some records /\
  records_file (snd (process_activity E d s))
  = Some [(drawn_id E 0, record_of (drawn_id E 0) name location category e)].
Proof.
  intros s Hd Hw0 Hw1.
  split; [reflexivity|]. split; [reflexivity|].
  rewrite process_activity_flat, Hd. cbv zeta.
  change (writes_done s) with 0%nat. rewrite Hw0, Hw1. reflexivity.
Qed.

(** "Tokyo Tower" on a directory that holds the two records only. *)
Lemma records_without_index_are_overwritten_witness :
  let E := Ex.env Ex.disk_ok in
  let s := init_service E default_similarity_threshold None
             (Some Ex.two_records) in
  records_file s = Some Ex.two_records /\
  records_file (snd (process_activity E Ex.tower s))
  = Some [(drawn_id E 0,
           record_of (drawn_id E 0) (u "tokyo tower") (u "tyo") (u "tour")
             [1 # 2])].
Proof.
  intros E s.
  assert (Hd : decide E Ex.tower s
               = Ok (Fresh (u "tokyo tower") (u "tyo") (u "tour") [1 # 2]))
    by (vm_compute; reflexivity).
  destruct (@records_without_index_are_overwritten E
              default_similarity_threshold Ex.two_records Ex.tower
              _ _ _ _ Hd eq_refl eq_refl) as (_ & H2 & H3).
  split; [exact H2|exact H3].
Defined.

(* ================================================================= *)
(** * [cleanup_old_activities] beyond the example of C1 and C2 *)

Lemma Forall_dict_set (V : Type) (P : str * V -> Prop) (k : str) (v : V)
    (d : dict V) :
  (forall k', P (k', v)) -> Forall P d -> Forall P (dict_set k v d).
Proof.
  intros Hv. induction 1 as [|[k' v'] d Hx Hd IH]; simpl.
  - constructor; [apply Hv|constructor].
  - destruct (str_eqb k k'); constructor; auto.
Qed.

(** X16: on a store whose records all carry [last_used] the cleanup keeps
    the records used at or after the cutoff, in their order, and builds an
    inner-product index of their embeddings; it leaves [index_to_id] as it
    was, writes both files and returns 0. *)
Theorem cleanup_keeps_recent_records (E : Env) (now days_old : Z)
    (s : Service) (delta cutoff_date : Z) :
  timedelta_days days_old = Ok delta ->
  datetime_sub now delta = Ok cutoff_date ->
  NoDup (keys (activities s)) ->
  Forall (fun item => last_used (snd item) <> None) (activities s) ->
  write_fails E (writes_done s) = false ->
  write_fails E (S (writes_done s)) = false ->
  exists s',
    cleanup_old_activities E now days_old s = (Ok 0%Z, s') /\
    activities s' = filter (recent cutoff_date) (activities s) /\
    index s' = {| metric := IP;
                  vectors := map embedding
                               (values (filter (recent cutoff_date)
                                          (activities s))) |} /\
    index_to_id s' = index_to_id s /\
    faiss_file s' = Some (index s') /\
    records_file s' = Some (activities s').
Proof.
  intros Hd Hc Hnd Hall Hw1 Hw2.
  rewrite cleanup_flat, Hd, Hc.
  rewrite (@keep_recent_filters cutoff_date (activities s) [] IndexFlatIP
             Hnd Hall).
  cbv zeta. rewrite Hw1, Hw2. eexists. split; [reflexivity|].
  repeat split.
Qed.

(** The three records of [Ex.aged_service], 40, 10 and 1 days old. *)
Lemma cleanup_keeps_recent_records_witness :
  exists s',
    cleanup_old_activities (Ex.env Ex.disk_ok) Ex.now 30 Ex.aged_service
    = (Ok 0%Z, s') /\
    keys (activities s') = [Ex.id_bb; Ex.id_cc] /\
    index s' = {| metric := IP; vectors := [[1]; [2]] |} /\
    index_to_id s' = [Ex.id_aa; Ex.id_bb; Ex.id_cc].
Proof.
  assert (Hnd : NoDup (keys (activities Ex.aged_service))).
  { apply distinct_NoDup. reflexivity. }
  assert (Hall : Forall (fun item => last_used (snd item) <> None)
                   (activities Ex.aged_service)).
  { repeat constructor; discriminate. }
  destruct (@cleanup_keeps_recent_records (Ex.env Ex.disk_ok) Ex.now 30
              Ex.aged_service _ _ eq_refl eq_refl Hnd Hall eq_refl eq_refl)
    as (s' & Hrun & Ha & Hi & Hk & _).
  exists s'. split; [exact Hrun|].
  rewrite Ha, Hi, Hk. repeat split.
Defined.

(** The cleanup of [Ex.aged_service] removes one record of three. *)
Lemma cleanup_count_is_zero_witness :
  let r := cleanup_old_activities (Ex.env Ex.disk_ok) Ex.now 30
             Ex.aged_service in
  length (activities Ex.aged_service) = 3%nat /\
  length (activities (snd r)) = 2%nat /\
  exists n, fst r = Ok n /\ n = 0%Z.
Proof.
  intro r.
  assert (H : r = (Ok 0%Z, snd r)) by (vm_compute; reflexivity).
  split; [reflexivity|]. split; [vm_compute; reflexivity|].
  exists 0%Z. split; [rewrite H; reflexivity|].
  exact (@cleanup_count_is_zero (Ex.env Ex.disk_ok) Ex.now 30 0
           Ex.aged_service (snd r) H).
Defined.

(** X18: a cleanup that raises [OverflowError] (the duration or the cutoff
    is not representable) or [AttributeError] (a record has no [last_used])
    has changed nothing: both are raised before the first assignment.  The
    exceptions of the two writes come later, after index and records have
    been replaced. *)
Theorem cleanup_failure_before_write_keeps_state (E : Env) (now days_old : Z)
    (s : Service) (x : exn) :
  fst (cleanup_old_activities E now days_old s) = Raise x ->
  x = OverflowError \/ x = AttributeError ->
  snd (cleanup_old_activities E now days_old s) = s.
Proof.
  rewrite cleanup_flat.
  destruct (timedelta_days days_old) as [delta|]; [|reflexivity].
  destruct (datetime_sub now delta) as [cutoff|]; [|reflexivity].
  destruct (keep_recent _ _ _ _) as [kept|]; [|reflexivity].
  cbv zeta.
  destruct (write_fails E (writes_done s)); simpl.
  - intros H [Hx|Hx]; subst x; discriminate.
  - destruct (write_fails E (S (writes_done s))); simpl.
    + intros H [Hx|Hx]; subst x; discriminate.
    + discriminate.
Qed.

(** A duration of more than 999999999 days. *)
Lemma cleanup_failure_before_write_keeps_state_witness :
  let r := cleanup_old_activities (Ex.env Ex.disk_ok) Ex.now 1000000000
             Ex.aged_service in
  fst r = Raise OverflowError /\ snd r = Ex.aged_service.
Proof.
  intro r. split; [reflexivity|].
  apply (@cleanup_failure_before_write_keeps_state (Ex.env Ex.disk_ok) Ex.now
           1000000000 Ex.aged_service OverflowError).
  - reflexivity.
  - now left.
Defined.

(** X19: [process_activity] sets [last_used] on no record: a store whose
    records lack the attribute keeps lacking it, on the match path, on the
    create path and on the fallback. *)
Theorem process_activity_sets_no_last_used (E : Env) (d : dict pyval)
    (s : Service) :
  without_last_used (activities s) ->
  without_last_used (activities (snd (process_activity E d s))).
Proof.
  unfold without_last_used. intro H. rewrite process_activity_flat.
  destruct (decide E d s) as [[n l c e id|n l c e]|x]; cbv zeta.
  - assert (Hm : Forall (fun kv => last_used (snd kv) = None)
                   (activities (match_state id (record_of id n l c e) s))).
    { destruct (match_state_fields id (record_of id n l c e) s)
        as (_ & _ & _ & H4 & _).
      cbv zeta in H4. rewrite H4. apply Forall_dict_set; auto. }
    destruct (write_fails E (writes_done s)); exact Hm.
  - assert (Hc : Forall (fun kv => last_used (snd kv) = None)
                   (activities
                      (create_state
                         (record_of (drawn_id E (uuid_drawn s)) n l c e) s))).
    { unfold create_state. simpl. apply Forall_dict_set; auto. }
    destruct (write_fails E (writes_done s)); [exact Hc|].
    destruct (write_fails E (S (writes_done s))); exact Hc.
  - exact H.
Qed.

Lemma process_activity_sets_no_last_used_witness :
  without_last_used
    (activities
       (snd (process_activity (Ex.env Ex.disk_ok) Ex.tower Ex.two_service))).
Proof.
  apply (@process_activity_sets_no_last_used (Ex.env Ex.disk_ok) Ex.tower
           Ex.two_service).
  repeat constructor.
Defined.

(** X20: the endpoint [DELETE /cleanup-activities/{days_old}] on a store
    that holds a record and whose records lack [last_used], as the records
    that [process_activity] builds do: it answers with status 500 for the
    [AttributeError] of the loop and leaves the store as it was. *)
Theorem cleanup_endpoint_fails_on_own_records (E : Env) (now days_old : Z)
    (s : Service) (delta cutoff_date : Z) :
  timedelta_days days_old = Ok delta ->
  datetime_sub now delta = Ok cutoff_date ->
  activities s <> [] ->
  without_last_used (activities s) ->
  TripController.cleanup_old_activities E now days_old s
  = (HTTPException 500 AttributeError, s).
Proof.
  intros Hd Hc Hne Hall.
  destruct (activities s) as [|[id r] rest] eqn:Ha; [contradiction|].
  inversion Hall as [|? ? Hr _]; subst. simpl in Hr.
  unfold TripController.cleanup_old_activities, TripController.guarded.
  rewrite (@cleanup_raises_without_last_used E now days_old s id r rest
             delta cutoff_date Hd Hc Ha Hr).
  reflexivity.
Qed.

Lemma cleanup_endpoint_fails_on_own_records_witness :
  TripController.cleanup_old_activities (Ex.env Ex.disk_ok) Ex.now 30
    Ex.two_service
  = (HTTPException 500 AttributeError, Ex.two_service).
Proof.
  apply (@cleanup_endpoint_fails_on_own_records (Ex.env Ex.disk_ok) Ex.now 30
           Ex.two_service _ _ eq_refl eq_refl).
  - discriminate.
  - repeat constructor.
Defined.

(* ================================================================= *)
(** * [get_activity_stats] *)

Section CategoryCounts.
Implicit Types (counts : dict Z) (acts : dict ActivityRecord).

Lemma count_of_step (c : str) counts (item : str * ActivityRecord) :
  count_of c (count_category counts item)
  = (count_of c counts
     + if str_eqb (category (snd item)) c then 1 else 0)%Z.
Proof.
  unfold count_category. cbv zeta.
  fold (count_of (category (snd item)) counts).
  destruct (str_eqb (category (snd item)) c) eqn:Hc.
  - apply str_eqb_eq in Hc. rewrite <- Hc. unfold count_of at 1.
    now rewrite dict_get_set_same.
  - apply str_eqb_neq in Hc. unfold count_of at 1.
    rewrite dict_get_set_other by congruence.
    fold (count_of c counts). lia.
Qed.

Lemma count_of_fold (c : str) acts :
  forall counts,
    count_of c (fold_left count_category acts counts)
    = (count_of c counts + records_in_category c acts)%Z.
Proof.
  unfold records_in_category.
  induction acts as [|item acts IH]; intro counts; simpl; [lia|].
  rewrite IH, count_of_step.
  destruct (str_eqb (category (snd item)) c); simpl length; lia.
Qed.

Lemma sum_counts_set (k : str) (v : Z) counts :
  sum_counts (dict_set k v counts)
  = (sum_counts counts - count_of k counts + v)%Z.
Proof.
  unfold sum_counts, count_of.
  induction counts as [|[k' v'] counts IH]; simpl; [lia|].
  destruct (str_eqb k k'); simpl; [lia|]. rewrite IH. lia.
Qed.

Lemma sum_counts_fold acts :
  forall counts,
    sum_counts (fold_left count_category acts counts)
    = (sum_counts counts + Z.of_nat (length acts))%Z.
Proof.
  induction acts as [|item acts IH]; intro counts; simpl length;
    [simpl; lia|].
  simpl fold_left. rewrite IH. unfold count_category. cbv zeta.
  rewrite sum_counts_set.
  fold (count_of (category (snd item)) counts). lia.
Qed.

Lemma dict_get_value (k : str) (v : Z) counts :
  dict_get k counts = Some v -> exists k', In (k', v) counts.
Proof.
  induction counts as [|[k' v'] counts IH]; simpl; [discriminate|].
  destruct (str_eqb k k').
  - intro H. inversion H; subst. exists k'. now left.
  - intro H. destruct (IH H) as [k2 Hin]. exists k2. now right.
Qed.

Lemma counts_positive_fold acts :
  forall counts,
    Forall (fun kv => (0 < snd kv)%Z) counts ->
    Forall (fun kv => (0 < snd kv)%Z) (fold_left count_category acts counts).
Proof.
  induction acts as [|item acts IH]; intros counts Hpos; simpl; [exact Hpos|].
  apply IH. unfold count_category. cbv zeta.
  apply Forall_dict_set; [|exact Hpos].
  intro k0. simpl.
  destruct (dict_get (category (snd item)) counts) as [n|] eqn:Hg; [|lia].
  destruct (@dict_get_value _ _ _ Hg) as [k' Hin].
  rewrite Forall_forall in Hpos. specialize (Hpos _ Hin). simpl in Hpos. lia.
Qed.

Lemma keys_nodup_set (k : str) (v : Z) counts :
  NoDup (keys counts) -> NoDup (keys (dict_set k v counts)).
Proof.
  intro Hnd. destruct (dict_get k counts) as [v0|] eqn:Hg.
  - now rewrite (@keys_dict_set_present _ k v v0 counts Hg).
  - rewrite (@dict_set_absent _ k v counts Hg). unfold keys. rewrite map_app. simpl.
    apply dict_get_None in Hg.
    assert (Hp : Permutation (k :: map fst counts) (map fst counts ++ [k])).
    { apply Permutation_cons_append. }
    eapply Permutation_NoDup; [exact Hp|]. constructor; assumption.
Qed.

Lemma keys_nodup_fold acts :
  forall counts,
    NoDup (keys counts) ->
    NoDup (keys (fold_left count_category acts counts)).
Proof.
  induction acts as [|item acts IH]; intros counts Hnd; simpl; [exact Hnd|].
  apply IH. apply keys_nodup_set. exact Hnd.
Qed.

End CategoryCounts.

(** X21: the statistics are exact.  [categories] has one key for each
    category that occurs among the records and no other, its value is the
    number of records of that category, and the values add up to
    [total_activities]. *)
Theorem category_counts_are_exact (s : Service) :
  let stats := get_activity_stats s in
  (forall c,
      dict_get c (stats_categories stats)
      = if (records_in_category c (activities s) =? 0)%Z then None
        else Some (records_in_category c (activities s))) /\
  NoDup (keys (stats_categories stats)) /\
  sum_counts (stats_categories stats) = stats_total_activities stats.
Proof.
  cbv zeta. unfold get_activity_stats, category_counts. simpl.
  split; [|split].
  - intro c.
    pose proof (count_of_fold c (activities s) []) as Hc.
    change (count_of c []) with 0%Z in Hc. rewrite Z.add_0_l in Hc.
    pose proof (@counts_positive_fold (activities s) [] (Forall_nil _)) as Hp.
    unfold count_of in Hc.
    destruct (dict_get c (fold_left count_category (activities s) []))
      as [n|] eqn:Hg.
    + destruct (@dict_get_value _ _ _ Hg) as [k' Hin].
      rewrite Forall_forall in Hp. specialize (Hp _ Hin). simpl in Hp.
      rewrite <- Hc.
      replace (n =? 0)%Z with false by (symmetry; apply Z.eqb_neq; lia).
      reflexivity.
    + rewrite <- Hc. reflexivity.
  - apply keys_nodup_fold. constructor.
  - rewrite sum_counts_fold. reflexivity.
Qed.

(* ================================================================= *)
(** * [ActivityRecord.to_dict] and [ActivityRecord.from_dict] *)

(** X22: [from_dict(r.to_dict())] succeeds and rebuilds the five declared
    fields of [r]; an attribute [last_used] that [r] carries is not in the
    dictionary and not on the record rebuilt. *)
Theorem from_dict_to_dict (r : ActivityRecord) :
  exists loose,
    from_dict (to_dict r) = Ok loose /\
    declared loose
    = Some (record_of (activity_id r) (name r) (location r) (category r)
              (embedding r)) /\
    keys (to_dict r) = record_keys.
Proof.
  eexists. split; [vm_compute; reflexivity|]. split; reflexivity.
Qed.

(** X23: [from_dict] succeeds exactly on the dictionaries that have the five
    keys, takes each field from its key and ignores every other key; on any
    other dictionary it raises [KeyError] and nothing else. *)
Theorem from_dict_needs_five_keys (data : dict record_value) :
  ((exists loose, from_dict data = Ok loose) <->
   Forall (fun k => dict_get k data <> None) record_keys) /\
  (forall loose,
      from_dict data = Ok loose ->
      map (fun k => dict_get k data) record_keys
      = [Some (loose_activity_id loose); Some (loose_name loose);
         Some (loose_location loose); Some (loose_category loose);
         Some (loose_embedding loose)]) /\
  (forall x, from_dict data = Raise x -> x = KeyError).
Proof.
  unfold from_dict, item, record_keys.
  split; [split|split].
  - intros [loose H].
    destruct (dict_get (u "activity_id") data) eqn:Ha; [|discriminate].
    destruct (dict_get (u "name") data) eqn:Hn; [|discriminate].
    destruct (dict_get (u "location") data) eqn:Hl; [|discriminate].
    destruct (dict_get (u "category") data) eqn:Hc; [|discriminate].
    destruct (dict_get (u "embedding") data) eqn:He; [|discriminate].
    repeat (constructor; [cbv beta; congruence|]). constructor.
  - intro H.
    inversion H as [|? ? Ha H1]; subst. inversion H1 as [|? ? Hn H2]; subst.
    inversion H2 as [|? ? Hl H3]; subst. inversion H3 as [|? ? Hc H4]; subst.
    inversion H4 as [|? ? He _]; subst.
    destruct (dict_get (u "activity_id") data); [|congruence].
    destruct (dict_get (u "name") data); [|congruence].
    destruct (dict_get (u "location") data); [|congruence].
    destruct (dict_get (u "category") data); [|congruence].
    destruct (dict_get (u "embedding") data); [|congruence].
    eexists. reflexivity.
  - intros loose H. cbn [map].
    destruct (dict_get (u "activity_id") data); [|discriminate].
    destruct (dict_get (u "name") data); [|discriminate].
    destruct (dict_get (u "location") data); [|discriminate].
    destruct (dict_get (u "category") data); [|discriminate].
    destruct (dict_get (u "embedding") data); [|discriminate].
    inversion H; subst loose. reflexivity.
  - intros x H.
    destruct (dict_get (u "activity_id") data); [|inversion H; reflexivity].
    destruct (dict_get (u "name") data); [|inversion H; reflexivity].
    destruct (dict_get (u "location") data); [|inversion H; reflexivity].
    destruct (dict_get (u "category") data); [|inversion H; reflexivity].
    destruct (dict_get (u "embedding") data); [|inversion H; reflexivity].
    discriminate.
Qed.

(* ================================================================= *)
(** * [process_trip_plan]: what it leaves alone and what an abort leaves *)

Section PlanFrame.
Variable E : Env.

Lemma process_span_frame (span : pyval) (s : Service) (span' : pyval)
    (s' : Service) :
  process_span E span s = (Ok span', s') ->
  exists sd outs,
    span = VDict sd /\
    span' = VDict (dict_set (u "activities") (VList outs) sd).
Proof.
  destruct span as [| | | | |sd]; try discriminate.
  unfold process_span, bind, lift, ret.
  destruct (py_iter (get_or sd (u "activities") (VList []))) as [acts|];
    [|discriminate].
  destruct (process_activities E acts s) as [[outs|x] s1]; [|discriminate].
  intro H. inversion H; subst. eauto.
Qed.

Lemma process_spans_frame (spans : list pyval) :
  forall s spans' s',
    process_spans E spans s = (Ok spans', s') ->
    Forall2 (fun span span' =>
               exists sd outs,
                 span = VDict sd /\
                 span' = VDict (dict_set (u "activities") (VList outs) sd))
            spans spans'.
Proof.
  induction spans as [|sp spans IH]; intros s spans' s'; simpl.
  - intro H. inversion H. constructor.
  - unfold bind at 1.
    destruct (process_span E sp s) as [[sp'|x] s1] eqn:Hsp; [|discriminate].
    unfold bind at 1.
    destruct (process_spans E spans s1) as [[rest'|x] s2] eqn:Hrest;
      [|discriminate].
    intro H. inversion H; subst. constructor.
    + eapply process_span_frame; eauto.
    + eapply IH; eauto.
Qed.

End PlanFrame.

(** X24: [process_trip_plan] touches the ['activities'] of the spans and
    nothing else.  A call that returns gives a plan with the same keys in the
    same order, the same value under every key but ['spans'], and span by
    span the dict it was with ['activities'] set to a list. *)
Theorem trip_plan_touches_activities_only (E : Env) (plan : dict pyval)
    (s : Service) (plan' : dict pyval) (s' : Service) :
  process_trip_plan E plan s = (Ok plan', s') ->
  keys plan' = keys plan /\
  (forall k, k <> u "spans" -> dict_get k plan' = dict_get k plan) /\
  Forall2 (fun span span' =>
             exists sd outs,
               span = VDict sd /\
               span' = VDict (dict_set (u "activities") (VList outs) sd))
          (plan_spans plan) (plan_spans plan').
Proof.
  unfold process_trip_plan, plan_spans, get_or. cbv zeta.
  unfold bind at 1. unfold lift.
  destruct (dict_get (u "spans") plan) as [v|] eqn:Hspans.
  - destruct v as [| | |t|l|d]; try discriminate.
    + (* a string *)
      cbn [py_iter]. unfold bind at 1.
      destruct (process_spans E _ s) as [[spans'|x] s1] eqn:Hrun;
        [|discriminate].
      unfold ret. intro H. inversion H; subst. rewrite Hspans.
      repeat split; constructor.
    + (* a list *)
      cbn [py_iter]. unfold bind at 1.
      destruct (process_spans E l s) as [[spans'|x] s1] eqn:Hrun;
        [|discriminate].
      unfold ret. intro H. inversion H; subst.
      split; [eapply keys_dict_set_present; eauto|].
      split; [intros k Hk; now apply dict_get_set_other|].
      rewrite dict_get_set_same. eapply process_spans_frame; eauto.
    + (* a dict *)
      cbn [py_iter]. unfold bind at 1.
      destruct (process_spans E _ s) as [[spans'|x] s1] eqn:Hrun;
        [|discriminate].
      unfold ret. intro H. inversion H; subst. rewrite Hspans.
      repeat split; constructor.
  - cbn [py_iter process_spans]. unfold bind, ret.
    intro H. inversion H; subst. rewrite Hspans.
    repeat split; constructor.
Qed.

(** The plan of two spans on a fresh service: ['tripId'] and the two
    ['spanId'] are as they were. *)
Lemma trip_plan_touches_activities_only_witness :
  exists plan',
    fst (process_trip_plan (Ex.env Ex.disk_ok) Ex.plan Ex.fresh_service)
    = Ok plan' /\
    keys plan' = [u "tripId"; u "spans"] /\
    dict_get (u "tripId") plan' = Some (VStr (u "trip_12345")).
Proof.
  destruct (process_trip_plan (Ex.env Ex.disk_ok) Ex.plan Ex.fresh_service)
    as [[plan'|x] s'] eqn:H.
  - destruct (@trip_plan_touches_activities_only (Ex.env Ex.disk_ok) Ex.plan
                Ex.fresh_service plan' s' H) as (Hk & Hg & _).
    exists plan'. split; [reflexivity|]. split; [exact Hk|].
    rewrite Hg; [reflexivity|discriminate].
  - vm_compute in H. discriminate.
Defined.

(** X25: an entry of ['activities'] that is no dict ends the request without
    undoing what went before.  The endpoint [POST /process-activities]
    answers with status 500 for the [TypeError], and the service is left as
    the activities before the entry made it, one UUID further: their records
    stay stored although no plan is returned. *)
Theorem bad_entry_aborts_after_storing (E : Env) (plan : dict pyval)
    (s : Service) (spans_before spans_after : list pyval) (sd : dict pyval)
    (before : list (dict pyval)) (v : pyval) (after : list pyval) :
  dict_get (u "spans") plan
  = Some (VList (spans_before ++ VDict sd :: spans_after)) ->
  forallb well_formed_span spans_before = true ->
  dict_get (u "activities") sd = Some (VList (map VDict before ++ v :: after)) ->
  is_dict v = false ->
  TripController.process_activities_endpoint E plan s
  = (HTTPException 500 TypeError,
     next_uuid
       (snd (run_activities E
               (dicts_of (flat_map span_activities spans_before) ++ before)
               s))).
Proof.
  intros Hspans Hwf Hacts Hv.
  unfold TripController.process_activities_endpoint, TripController.guarded.
  now rewrite (non_dict_entry_aborts_plan E plan s _ _ _ _ _ _
                 Hspans Hwf Hacts Hv).
Qed.

(** "Tokyo Skytree", then a string: the record of the first is stored. *)
Lemma bad_entry_aborts_after_storing_witness :
  let E := Ex.env Ex.disk_ok in
  let r := TripController.process_activities_endpoint E Ex2.broken_plan
             Ex.fresh_service in
  fst r = HTTPException 500 TypeError /\
  keys (activities (snd r)) = [drawn_id E 0] /\
  uuid_drawn (snd r) = 2%nat.
Proof.
  intros E r.
  assert (H : r = (HTTPException 500 TypeError,
                   next_uuid
                     (snd (run_activities E
                             (dicts_of (flat_map span_activities []) ++
                              [Ex.skytree])
                             Ex.fresh_service)))).
  { apply (@bad_entry_aborts_after_storing E Ex2.broken_plan Ex.fresh_service
             [] [] [ (u "spanId", VStr (u "span_1"));
                     (u "activities",
                      VList [VDict Ex.skytree; VStr (u "Ueno Park")]) ]
             [Ex.skytree] (VStr (u "Ueno Park")) []); reflexivity. }
  rewrite H. split; [reflexivity|]. split; vm_compute; reflexivity.
Defined.

(* ================================================================= *)
(** * The validators of [trip_service.py] on processed plans *)

Section Validators.

Lemma has_fields_set_other (fields : list str) (k : str) (v : pyval)
    (d : dict pyval) :
  ~ In k fields ->
  has_fields fields (VDict (dict_set k v d)) = has_fields fields (VDict d).
Proof.
  induction fields as [|f fields IH]; intro Hk; simpl; [reflexivity|].
  rewrite dict_get_set_other by (intro Heq; apply Hk; left; congruence).
  rewrite IH by (intro Hin; apply Hk; now right). reflexivity.
Qed.

Lemma get_or_set_same (k : str) (v default : pyval) (d : dict pyval) :
  get_or (dict_set k v d) k default = v.
Proof. unfold get_or. now rewrite dict_get_set_same. Qed.

Lemma get_or_set_other (k k' : str) (v default : pyval) (d : dict pyval) :
  k' <> k -> get_or (dict_set k v d) k' default = get_or d k' default.
Proof. intro H. unfold get_or. now rewrite dict_get_set_other. Qed.

Lemma validate_annotated (d : dict pyval) (id : str) :
  _validate_activity (VDict (annotated d id)) = _validate_activity (VDict d).
Proof.
  unfold _validate_activity, annotated. apply has_fields_set_other.
  unfold activity_required_fields. simpl.
  intros [H|[H|[H|[H|[H|[]]]]]]; vm_compute in H; discriminate.
Qed.

Lemma validate_matched_result (d : dict pyval) (id : str) :
  _validate_activity (VDict (matched_result d id)) = Ok true.
Proof. reflexivity. Qed.

Lemma process_activity_result (E : Env) (d : dict pyval) (s : Service) :
  exists r,
    fst (process_activity E d s) = Ok r /\
    ((exists id, r = annotated d id) \/ (exists id, r = matched_result d id)).
Proof.
  rewrite process_activity_flat.
  destruct (decide E d s) as [[n l c e id|n l c e]|x]; cbv zeta.
  - destruct (write_fails E (writes_done s)); eexists;
      (split; [reflexivity|]); eauto.
  - destruct (write_fails E (writes_done s));
      [|destruct (write_fails E (S (writes_done s)))];
      eexists; (split; [reflexivity|]); eauto.
  - eexists. split; [reflexivity|]. eauto.
Qed.

Lemma process_activity_valid (E : Env) (d : dict pyval) (s : Service) :
  _validate_activity (VDict d) = Ok true ->
  exists r,
    fst (process_activity E d s) = Ok r /\
    _validate_activity (VDict r) = Ok true.
Proof.
  intro Hv. destruct (process_activity_result E d s) as (r & Hr & Hshape).
  exists r. split; [exact Hr|].
  destruct Hshape as [[id ->]|[id ->]].
  - now rewrite validate_annotated.
  - apply validate_matched_result.
Qed.

Lemma all_valid_true (validate : pyval -> res bool) (items : list pyval) :
  all_valid validate items = Ok true <->
  Forall (fun x => validate x = Ok true) items.
Proof.
  induction items as [|x items IH]; simpl.
  - split; [constructor|reflexivity].
  - destruct (validate x) as [[|]|e] eqn:Hx.
    + rewrite IH. split.
      * intro H. constructor; assumption.
      * intro H. inversion H; assumption.
    + split; [discriminate|]. intro H. inversion H; congruence.
    + split; [discriminate|]. intro H. inversion H; congruence.
Qed.

Lemma run_activities_valid (E : Env) (acts : list (dict pyval)) :
  forall s,
    Forall (fun d => _validate_activity (VDict d) = Ok true) acts ->
    Forall (fun r => _validate_activity (VDict r) = Ok true)
           (fst (run_activities E acts s)).
Proof.
  induction acts as [|d acts IH]; intros s Hall; simpl; [constructor|].
  inversion Hall as [|? ? Hd Hrest]; subst.
  destruct (@process_activity_valid E d s Hd) as (r & Hr & Hv).
  destruct (process_activity E d s) as [[r0|x] s1]; simpl in Hr;
    [|discriminate].
  inversion Hr; subst r0.
  specialize (IH s1 Hrest).
  destruct (run_activities E acts s1) as [rs s2]. simpl in *.
  constructor; assumption.
Qed.

Lemma dicts_of_all_dicts (l : list pyval) :
  forallb is_dict l = true -> map VDict (dicts_of l) = l.
Proof.
  induction l as [|v l IH]; simpl; [reflexivity|].
  intro H. apply andb_true_iff in H as [Hv Hl].
  destruct v; try discriminate. simpl.
  change (flat_map _ l) with (dicts_of l). now rewrite IH.
Qed.

(** The second loop of [_validate_span] on a dict: it never raises, it runs
    to its end exactly when each array field is absent or a list, and it
    then leaves each array field present with the value that
    [span.get(field, [])] had. *)
Lemma default_arrays_dict (fields : list str) :
  forall sd,
    NoDup fields ->
    exists sd1,
      snd (default_arrays fields (VDict sd)) = VDict sd1 /\
      (forall k, ~ In k fields -> dict_get k sd1 = dict_get k sd) /\
      ((Forall (fun f => exists l, get_or sd f (VList []) = VList l) fields /\
        fst (default_arrays fields (VDict sd)) = Ok true /\
        forall f, In f fields ->
                  dict_get f sd1 = Some (get_or sd f (VList []))) \/
       (~ Forall (fun f => exists l, get_or sd f (VList []) = VList l) fields /\
        fst (default_arrays fields (VDict sd)) = Ok false)).
Proof.
  induction fields as [|f fields IH]; intros sd Hnd.
  - exists sd. split; [reflexivity|]. split; [reflexivity|].
    left. split; [constructor|]. split; [reflexivity|]. intros f [].
  - inversion Hnd as [|? ? Hf Hnd']; subst.
    cbn [default_arrays py_contains py_setitem py_getitem].
    unfold item.
    destruct (dict_get f sd) as [v|] eqn:Hg.
    + assert (Hget : get_or sd f (VList []) = v)
        by (unfold get_or; now rewrite Hg).
      destruct (IH sd Hnd') as (sd1 & Hsnd & Hother & Hcases).
      assert (Hlist : (exists l, v = VList l) \/
                      (forall l, v <> VList l) ).
      { destruct v; try (right; discriminate). left. eauto. }
      destruct Hlist as [[l ->]|Hno].
      * exists sd1. split; [exact Hsnd|].
        split; [intros k Hk; apply Hother; intro; apply Hk; now right|].
        destruct Hcases as [(Hall & Hok & Hin)|(Hnot & Hfalse)].
        -- left. split; [constructor; [rewrite Hget; eauto|exact Hall]|].
           split; [exact Hok|].
           intros g [<-|Hg']; [|now apply Hin].
           rewrite (Hother _ Hf), Hget. exact Hg.
        -- right. split; [|exact Hfalse].
           intro H. inversion H; auto.
      * exists sd.
        assert (Hres : match v with
                       | VList _ => default_arrays fields (VDict sd)
                       | _ => (Ok false, VDict sd)
                       end = (Ok false, VDict sd)).
        { destruct v; try reflexivity. exfalso. eapply Hno. reflexivity. }
        rewrite Hres. split; [reflexivity|]. split; [reflexivity|].
        right. split; [|reflexivity].
        intro H. inversion H as [|? ? [l Hl] _].
        rewrite Hget in Hl. eapply Hno; eauto.
    + assert (Hget : get_or sd f (VList []) = VList [])
        by (unfold get_or; now rewrite Hg).
      destruct (IH (dict_set f (VList []) sd) Hnd')
        as (sd1 & Hsnd & Hother & Hcases).
      assert (Hsame : forall g, In g fields ->
                get_or (dict_set f (VList []) sd) g (VList [])
                = get_or sd g (VList [])).
      { intros g Hg'. apply get_or_set_other. intro; subst. contradiction. }
      assert (Hiff : Forall (fun g => exists l,
                        get_or (dict_set f (VList []) sd) g (VList [])
                        = VList l) fields <->
                     Forall (fun g => exists l,
                        get_or sd g (VList []) = VList l) fields).
      { rewrite !Forall_forall. split; intros H g Hg';
          specialize (H g Hg'); rewrite Hsame in *; auto. }
      exists sd1. split; [exact Hsnd|]. split.
      * intros k Hk. rewrite Hother by (intro; apply Hk; now right).
        apply dict_get_set_other. intro; subst. apply Hk. now left.
      * destruct Hcases as [(Hall & Hok & Hin)|(Hnot & Hfalse)].
        -- left. split; [constructor; [rewrite Hget; eauto|now apply Hiff]|].
           split; [exact Hok|].
           intros g [<-|Hg'].
           ++ rewrite (Hother _ Hf), Hget. apply dict_get_set_same.
           ++ rewrite (Hin _ Hg'). now rewrite Hsame.
        -- right. split; [|exact Hfalse].
           intro H. inversion H; subst. apply Hnot. now apply Hiff.
Qed.

Lemma span_array_fields_nodup : NoDup span_array_fields.
Proof. apply distinct_NoDup. reflexivity. Qed.

(** [_validate_span] on a dict: when it returns [True], and what the span
    is then. *)
Lemma validate_span_dict (sd : dict pyval) :
  (fst (_validate_span (VDict sd)) = Ok true <->
   has_fields span_required_fields (VDict sd) = Ok true /\
   exists transportation accommodation activities,
     get_or sd (u "transportation") (VList []) = VList transportation /\
     get_or sd (u "accommodation") (VList []) = VList accommodation /\
     get_or sd (u "activities") (VList []) = VList activities /\
     all_valid _validate_transportation transportation = Ok true /\
     all_valid _validate_accommodation accommodation = Ok true /\
     all_valid _validate_activity activities = Ok true) /\
  (fst (_validate_span (VDict sd)) = Ok true ->
   exists sd1,
     snd (_validate_span (VDict sd)) = VDict sd1 /\
     forall k,
       dict_get k sd1
       = if str_mem k span_array_fields
         then Some (get_or sd k (VList []))
         else dict_get k sd).
Proof.
  destruct (default_arrays_dict sd span_array_fields_nodup)
    as (sd1 & Hsnd & Hother & Hcases).
  unfold _validate_span. cbv zeta.
  fold span_array_fields.
  destruct (has_fields span_required_fields (VDict sd)) as [[|]|e] eqn:Hreq.
  2: { split; [split; [discriminate|intros [H _]; discriminate]
              |discriminate]. }
  2: { split; [split; [discriminate|intros [H _]; discriminate]
              |discriminate]. }
  destruct (default_arrays span_array_fields (VDict sd)) as [r span1].
  cbn [fst snd] in Hsnd, Hcases. subst span1.
  destruct Hcases as [(Hall & Hok & Hin)|(Hnot & Hfalse)]; subst r.
  - inversion Hall as [|? ? [lt Ht] Hall1]; subst.
    inversion Hall1 as [|? ? [la Ha] Hall2]; subst.
    inversion Hall2 as [|? ? [lact Hact] _]; subst.
    assert (Hve : forall validate f,
               In f span_array_fields ->
               valid_entries validate (VDict sd1) f
               = match py_iter (get_or sd f (VList [])) with
                 | Raise e => Raise e
                 | Ok l => all_valid validate l
                 end).
    { intros validate f Hf. unfold valid_entries, py_get.
      unfold get_or at 1. now rewrite (Hin _ Hf). }
    rewrite !Hve by (unfold span_array_fields; simpl; auto).
    rewrite Ht, Ha, Hact. cbn [py_iter].
    split; [split|].
    + intro H. split; [reflexivity|]. exists lt, la, lact.
      destruct (all_valid _validate_transportation lt) as [[|]|];
        try discriminate.
      destruct (all_valid _validate_accommodation la) as [[|]|];
        try discriminate.
      destruct (all_valid _validate_activity lact) as [[|]|];
        try discriminate.
      repeat split.
    + intros (_ & lt' & la' & lact' & H1 & H2 & H3 & H4 & H5 & H6).
      inversion H1; inversion H2; inversion H3; subst.
      now rewrite H4, H5, H6.
    + intros _. exists sd1. split.
      * destruct (all_valid _validate_transportation lt) as [[|]|];
          try reflexivity.
        destruct (all_valid _validate_accommodation la) as [[|]|];
          try reflexivity.
        destruct (all_valid _validate_activity lact) as [[|]|];
          reflexivity.
      * intro k. destruct (str_mem k span_array_fields) eqn:Hm.
        -- apply str_mem_In in Hm. now apply Hin.
        -- apply Hother. intro Hk. apply str_mem_In in Hk. congruence.
  - split; [split|]; try discriminate.
    intros (_ & lt & la & lact & H1 & H2 & H3 & _).
    exfalso. apply Hnot. repeat constructor; eauto.
Qed.

Lemma has_fields_dict (fields : list str) (d : dict pyval) :
  exists b, has_fields fields (VDict d) = Ok b /\
            (b = true -> forall f, In f fields -> dict_get f d <> None).
Proof.
  induction fields as [|f fields (b & Hb & Hin)]; simpl.
  - exists true. split; [reflexivity|]. intros _ f [].
  - destruct (dict_get f d) eqn:Hf.
    + exists b. split; [exact Hb|].
      intros Ht g [<-|Hg]; [congruence|now apply Hin].
    + exists false. split; [reflexivity|discriminate].
Qed.

End Validators.

(** X26: [_validate_span] on a dict.  It returns [True] exactly when the
    seven required keys are present, each of the three array fields is absent
    or a list, and every entry of the three lists passes its validator; and
    it then leaves the span with each array field present, an absent one as
    the empty list, and every other key as it was. *)
Theorem validate_span_accepts (sd : dict pyval) :
  (fst (_validate_span (VDict sd)) = Ok true <->
   has_fields span_required_fields (VDict sd) = Ok true /\
   exists transportation accommodation activities,
     get_or sd (u "transportation") (VList []) = VList transportation /\
     get_or sd (u "accommodation") (VList []) = VList accommodation /\
     get_or sd (u "activities") (VList []) = VList activities /\
     all_valid _validate_transportation transportation = Ok true /\
     all_valid _validate_accommodation accommodation = Ok true /\
     all_valid _validate_activity activities = Ok true) /\
  (fst (_validate_span (VDict sd)) = Ok true ->
   exists sd1,
     snd (_validate_span (VDict sd)) = VDict sd1 /\
     forall k,
       dict_get k sd1
       = if str_mem k span_array_fields
         then Some (get_or sd k (VList []))
         else dict_get k sd).
Proof. apply validate_span_dict. Qed.

(** X27: a span that passes [_validate_span] still passes it after
    [process_trip_plan] has processed its activities, so the validation that
    [plan_trip] runs after the processing rejects no span for what the
    processing did. *)
Theorem processed_span_stays_valid (E : Env) (span : pyval) (s : Service) :
  well_formed_span span = true ->
  fst (_validate_span span) = Ok true ->
  exists span',
    fst (process_span E span s) = Ok span' /\
    fst (_validate_span span') = Ok true.
Proof.
  intros Hwf Hvalid.
  destruct (process_span_run E span s Hwf) as (span' & Hrun & Hacts & _).
  destruct (process_span_frame E span s Hrun) as (sd & outs & -> & ->).
  rewrite span_activities_set in Hacts. subst outs.
  exists (VDict (dict_set (u "activities")
                   (VList (map VDict
                             (fst (run_activities E
                                     (dicts_of (span_activities (VDict sd)))
                                     s))))
                   sd)).
  split; [now rewrite Hrun|].
  destruct (validate_span_dict sd) as [[Hto _] _].
  destruct (Hto Hvalid)
    as (Hreq & lt & la & lact & Ht & Ha & Hact & Hvt & Hva & Hvact).
  apply validate_span_dict. split.
  - rewrite has_fields_set_other; [exact Hreq|].
    unfold span_required_fields. simpl.
    intros [H|[H|[H|[H|[H|[H|[H|[]]]]]]]]; vm_compute in H; discriminate.
  - exists lt, la. eexists.
    rewrite !get_or_set_other
      by (intro H; vm_compute in H; discriminate).
    rewrite get_or_set_same.
    split; [exact Ht|]. split; [exact Ha|]. split; [reflexivity|].
    split; [exact Hvt|]. split; [exact Hva|].
    apply all_valid_true. apply Forall_map with (f := VDict).
    apply run_activities_valid.
    unfold well_formed_span in Hwf.
    unfold span_activities. rewrite Hact in *.
    apply all_valid_true in Hvact.
    rewrite <- (dicts_of_all_dicts _ Hwf) in Hvact.
    apply Forall_map in Hvact. exact Hvact.
Qed.

(** The span of [Ex2.span_1]: a flight, "Tokyo Skytree" and "Ueno Park". *)
Lemma processed_span_stays_valid_witness :
  exists span',
    fst (process_span (Ex.env Ex.disk_ok) Ex2.span_1 Ex.fresh_service)
    = Ok span' /\
    fst (_validate_span span') = Ok true.
Proof.
  apply (@processed_span_stays_valid (Ex.env Ex.disk_ok) Ex2.span_1
           Ex.fresh_service); vm_compute; reflexivity.
Defined.

(** X28: on a dict the three item validators return a boolean and never
    raise: every key they index has passed the presence check before. *)
Theorem validators_never_raise_on_dicts (d : dict pyval) :
  (exists b, _validate_activity (VDict d) = Ok b) /\
  (exists b, _validate_transportation (VDict d) = Ok b) /\
  (exists b, _validate_accommodation (VDict d) = Ok b).
Proof.
  split; [|split].
  - unfold _validate_activity.
    destruct (has_fields_dict activity_required_fields d) as (b & Hb & _).
    eauto.
  - unfold _validate_transportation. cbv zeta.
    match goal with
    | |- context [has_fields ?fs (VDict d)] =>
        destruct (has_fields_dict fs d) as (b & Hb & Hin); rewrite Hb
    end.
    destruct b; [|eauto].
    cbn [py_getitem]. unfold item.
    destruct (dict_get (u "type") d) as [t|] eqn:Ht;
      [|exfalso; apply (Hin eq_refl (u "type")); [simpl; auto|exact Ht]].
    destruct (negb (one_of _ t)); [eauto|].
    destruct (dict_get (u "service_class") d) as [c|] eqn:Hc;
      [|exfalso; apply (Hin eq_refl (u "service_class"));
        [simpl; auto 10|exact Hc]].
    destruct (negb (one_of _ c)); eauto.
  - unfold _validate_accommodation. cbv zeta.
    match goal with
    | |- context [has_fields ?fs (VDict d)] =>
        destruct (has_fields_dict fs d) as (b & Hb & Hin); rewrite Hb
    end.
    destruct b; [|eauto].
    cbn [py_getitem]. unfold item.
    destruct (dict_get (u "type") d) as [t|] eqn:Ht;
      [|exfalso; apply (Hin eq_refl (u "type")); [simpl; auto|exact Ht]].
    destruct (negb (one_of _ t)); eauto.
Qed.
